(** * Wallet withdrawal and peer transfer: a shallow embedding

    The two money-moving edge functions of the repository
    (the withdrawal handler with its retry and timeout helpers, and the
    wallet-to-wallet transfer handler) are embedded as executable
    programs of a small state-and-exception monad. Line numbers refer
    to [supabase/functions/withdraw-funds/index.ts], which holds the
    withdrawal function (lines 1-649) followed by the transfer function
    (lines 650-841). The approval webhook of the same file
    (lines 842-974) and the phone sign-in form come after them, with
    types of their own.

    Conventions.
    - A JavaScript [number] is an exact rational ([Q]); [Math.floor] is
      [Qfloor], [Math.round] is [Qfloor (x + 1/2)].
    - Strings are [string]; case conversion and white space follow the
      ASCII part of the JavaScript definitions.
    - The tables [user_central_wallets] and [wallet_transactions] are a
      finite map from owner id to balance and an append-only list.
    - Everything outside the process (the payment provider, the
      database errors, the clock, the authenticated caller) is an
      oracle ([Env]); the handlers are deterministic functions of it.
    - Response headers (the CORS headers, and the JSON content type
      of every response with a body) and the 10 s deadline of
      [fetchWithTimeout] are not modelled: the oracle says which
      requests are aborted. *)

From Stdlib Require Import QArith Qround Qminmax Qpower Lqa ZArith String Ascii List Bool Lia.
From stdpp Require Import gmap strings.
Import ListNotations.

Open Scope Q_scope.
Open Scope string_scope.

(** ** JavaScript values and helpers *)

Module JS.

Definition Qleb (x y : Q) : bool := Qle_bool x y.
Definition Qltb (x y : Q) : bool := negb (Qle_bool y x).

(** [Math.floor], [Math.round], [Math.max], [Math.min], [Math.pow(2, i)]. *)
Definition floor (x : Q) : Q := inject_Z (Qfloor x).
Definition round (x : Q) : Q := inject_Z (Qfloor (x + (1 # 2))).
Definition max (x y : Q) : Q := Qmax x y.
Definition min (x y : Q) : Q := Qmin x y.
Definition pow2 (i : nat) : Q := 2 ^ Z.of_nat i.

(** [x || d] on an optional string: the empty string is falsy. *)
Definition truthy (o : option string) : bool :=
  match o with
  | Some s => negb (String.eqb s "")
  | None => false
  end.

Definition or_else (o : option string) (d : string) : string :=
  match o with
  | Some s => if String.eqb s "" then d else s
  | None => d
  end.

Definition toLowerChar (c : ascii) : ascii :=
  let n := nat_of_ascii c in
  if (65 <=? n)%nat && (n <=? 90)%nat then ascii_of_nat (n + 32) else c.

Definition toUpperChar (c : ascii) : ascii :=
  let n := nat_of_ascii c in
  if (97 <=? n)%nat && (n <=? 122)%nat then ascii_of_nat (n - 32) else c.

Fixpoint mapChars (f : ascii -> ascii) (s : string) : string :=
  match s with
  | EmptyString => EmptyString
  | String c t => String (f c) (mapChars f t)
  end.

Definition toLowerCase : string -> string := mapChars toLowerChar.
Definition toUpperCase : string -> string := mapChars toUpperChar.

Definition startsWith (s p : string) : bool := String.prefix p s.

(** [s.includes(sub)] *)
Fixpoint includes (s sub : string) : bool :=
  String.prefix sub s ||
  match s with
  | EmptyString => false
  | String _ t => includes t sub
  end.

(** [s.slice(n)] for [0 <= n] *)
Fixpoint slice (n : nat) (s : string) : string :=
  match n, s with
  | O, _ => s
  | S k, EmptyString => EmptyString
  | S k, String _ t => slice k t
  end.

(** [s.substring(0, n)] *)
Fixpoint take (n : nat) (s : string) : string :=
  match n, s with
  | O, _ => EmptyString
  | S k, EmptyString => EmptyString
  | S k, String c t => String c (take k t)
  end.

Fixpoint filterChars (keep : ascii -> bool) (s : string) : string :=
  match s with
  | EmptyString => EmptyString
  | String c t => if keep c then String c (filterChars keep t) else filterChars keep t
  end.

(** The ASCII members of the class [\s]. *)
Definition isSpace (c : ascii) : bool :=
  let n := nat_of_ascii c in
  (n =? 32)%nat || ((9 <=? n)%nat && (n <=? 13)%nat).

(** [s.trim().replace(/\s+/g, '').replace(/-/g, '')]: trimming is
    subsumed by the removal of every white-space character. *)
Definition stripSeparators (s : string) : string :=
  filterChars (fun c => negb (Ascii.eqb c "-")) (filterChars (fun c => negb (isSpace c)) s).

(** [s.replace(/^\+/, '')] *)
Definition stripLeadingPlus (s : string) : string :=
  match s with
  | String "+" t => t
  | _ => s
  end.

End JS.

(** A template literal, kept as its fragments so that no number
    formatting has to be fixed: [`KES ${fee + 1}`] is
    [[FStr "KES "; FNum (fee + 1)]]. *)
Inductive Frag : Type :=
| FStr (s : string)
| FNum (q : Q)
| FFixed2 (q : Q).

Definition Text := list Frag.

#[warnings="-register-all"]
Inductive JVal : Type :=
| JStr (s : string)
| JText (t : Text)
| JNum (q : Q)
| JBool (b : bool)
| JObj (fields : list (string * JVal)).

(** A JSON object as the list of its defined fields, in source order.
    [JSON.stringify] drops fields whose value is [undefined]. *)
Definition JObject := list (string * JVal).

Definition opt_field (k : string) (o : option JVal) : JObject :=
  match o with
  | Some v => [(k, v)]
  | None => []
  end.

Fixpoint field (k : string) (o : JObject) : option JVal :=
  match o with
  | [] => None
  | (k', v) :: t => if String.eqb k k' then Some v else field k t
  end.

Record Response : Type := mkResponse {
  status : Z;
  body : option JObject
}.

Definition json_response (st : Z) (o : JObject) : Response :=
  {| status := st; body := Some o |}.

(** What a [throw] carries: an [Error] with its message, or a value
    that is not an [Error] ([retryWithBackoff] throws [null] when it
    made no attempt). *)
Inductive Thrown : Type :=
| ErrorObj (message : string)
| NotAnError.

(** [e instanceof Error ? e.message : dflt] *)
Definition message_or (e : Thrown) (dflt : string) : string :=
  match e with
  | ErrorObj m => m
  | NotAnError => dflt
  end.

(** ** The fee schedules *)

(** [calculateFee] of the withdrawal handler (lines 154-175). *)
Definition calculateFee (amt : Q) (method : string) : Q :=
  if String.eqb method "mpesa" then
    if JS.Qleb amt 100 then 0
    else if JS.Qleb amt 2500 then 15
    else if JS.Qleb amt 3500 then 25
    else if JS.Qleb amt 5000 then 30
    else if JS.Qleb amt 7500 then 45
    else if JS.Qleb amt 10000 then 50
    else JS.max 50 (JS.floor (amt * 0.005))
  else if String.eqb method "airtel" then
    if JS.Qleb amt 100 then 0
    else if JS.Qleb amt 2500 then 15
    else if JS.Qleb amt 5000 then 30
    else JS.max 50 (JS.floor (amt * 0.005))
  else if String.eqb method "bank" then
    JS.max 25 (JS.floor (amt * 0.001))
  else 0.

(** The branch of [calculateFee] that an amount falls into, numbered in
    source order within its channel. *)
Definition feeTier (amt : Q) (method : string) : nat :=
  if String.eqb method "mpesa" then
    if JS.Qleb amt 100 then 0
    else if JS.Qleb amt 2500 then 1
    else if JS.Qleb amt 3500 then 2
    else if JS.Qleb amt 5000 then 3
    else if JS.Qleb amt 7500 then 4
    else if JS.Qleb amt 10000 then 5
    else 6
  else if String.eqb method "airtel" then
    if JS.Qleb amt 100 then 0
    else if JS.Qleb amt 2500 then 1
    else if JS.Qleb amt 5000 then 2
    else 3
  else 0%nat.

(** [transactionFee] of the wallet transfer handler (lines 698-700):
    [Math.min(Math.max(amount * feePercentage, 10), 100)]. *)
Definition feePercentage : Q := 0.01.

Definition transactionFee (amount : Q) : Q :=
  JS.min (JS.max (amount * feePercentage) 10) 100.

(** The same fee in the words of the specification:
    [max(min(amount * 1%, 100), 10)]. *)
Definition transactionFee_spec (amount : Q) : Q :=
  Qmax (Qmin (amount * (1 # 100)) 100) 10.

(** ** The world outside the handlers *)

(** One entry of the provider's channel catalogue. *)
Record Bank : Type := mkBank {
  name : option string;
  slug : option string;
  code : option string
}.

(** The [data] member of a provider reply. *)
Inductive Data : Type :=
| DAbsent
| DBalances (balances : list (option Q))
| DBanks (banks : list Bank)
| DRecipient (recipient_code : option string)
| DTransfer (reference : option string).

(** A parsed provider reply: [{ status, message, code, data }]. *)
Record Json : Type := mkJson {
  j_status : bool;
  j_message : option string;
  j_code : option string;
  j_data : Data
}.

(** An HTTP reply; [resp_json = None] when [.json()] throws. *)
Record HttpResponse : Type := mkHttpResponse {
  resp_status : Z;
  resp_json : option Json
}.

Definition resp_ok (r : HttpResponse) : bool :=
  (200 <=? resp_status r)%Z && (resp_status r <=? 299)%Z.

(** How one [fetch] ends: a reply, the abort signal of the timeout
    firing ([AbortError]), or any other rejection. *)
Inductive FetchOutcome : Type :=
| Responded (r : HttpResponse)
| Aborted
| Rejected (e : Thrown).

(** The JSON payload of an outbound request. *)
Inductive Payload : Type :=
| PNone
| PRecipient (type name : string) (account_number bank_code_ : option string)
             (currency : string) (provider : option string)
| PTransfer (source : string) (amount : Q) (recipient : option string)
            (reason : string) (reference : Text).

Record HttpRequest : Type := mkHttpRequest {
  url : string;
  http_method : string;
  bearer : string;
  payload : Payload
}.

Inductive Level : Type := Log | Warn | Error.

(** What the process does that can be observed from outside, in the
    order it happens. Console lines keep their first argument and the
    scalar arguments after it. *)
Inductive Event : Type :=
| EFetch (r : HttpRequest)
| ESleep (ms : Q)
| EConsole (l : Level) (line : Text).

Record User : Type := mkUser {
  id : string;
  email : option string
}.

(** A row of [wallet_transactions]. *)
Record TransactionRecord : Type := mkTransactionRecord {
  tx_user_id : string;
  tx_type : string;
  tx_amount : Q;
  tx_description : Text;
  tx_status : string;
  tx_reference_id : option Text;
  tx_metadata : JObject
}.

(** The oracle: everything the handlers read from outside. The [k]-th
    outbound request ends as [fetch_outcome k]; the [k]-th database
    call fails with [db_fault k] when that is [Some]; [date_now k] is
    the clock once [k] outbound requests have been issued. *)
Record Env : Type := mkEnv {
  fetch_outcome : nat -> FetchOutcome;
  db_fault : nat -> option string;
  auth_user : option User;
  list_users : option (list User);
  PAYSTACK_SECRET_KEY : option string;
  date_now : nat -> Z
}.

Record World : Type := mkWorld {
  user_central_wallets : gmap string Q;
  wallet_transactions : list TransactionRecord;
  fetch_count : nat;
  db_count : nat;
  trace : list Event
}.

Definition emit (e : Event) (w : World) : World :=
  {| user_central_wallets := user_central_wallets w;
     wallet_transactions := wallet_transactions w;
     fetch_count := fetch_count w;
     db_count := db_count w;
     trace := trace w ++ [e] |}.

Definition count_fetch (w : World) : World :=
  {| user_central_wallets := user_central_wallets w;
     wallet_transactions := wallet_transactions w;
     fetch_count := S (fetch_count w);
     db_count := db_count w;
     trace := trace w |}.

Definition count_db (w : World) : World :=
  {| user_central_wallets := user_central_wallets w;
     wallet_transactions := wallet_transactions w;
     fetch_count := fetch_count w;
     db_count := S (db_count w);
     trace := trace w |}.

Definition set_wallets (m : gmap string Q) (w : World) : World :=
  {| user_central_wallets := m;
     wallet_transactions := wallet_transactions w;
     fetch_count := fetch_count w;
     db_count := db_count w;
     trace := trace w |}.

Definition set_transactions (l : list TransactionRecord) (w : World) : World :=
  {| user_central_wallets := user_central_wallets w;
     wallet_transactions := l;
     fetch_count := fetch_count w;
     db_count := db_count w;
     trace := trace w |}.

(** The outbound requests and the pauses of a trace. *)
Fixpoint fetches (t : list Event) : list HttpRequest :=
  match t with
  | [] => []
  | EFetch r :: t' => r :: fetches t'
  | _ :: t' => fetches t'
  end.

Fixpoint sleeps (t : list Event) : list Q :=
  match t with
  | [] => []
  | ESleep d :: t' => d :: sleeps t'
  | _ :: t' => sleeps t'
  end.

(** ** The handler monad

    A handler step either yields a value, leaves the handler with a
    response ([return new Response(...)]), or throws. *)
Inductive Outcome (A : Type) : Type :=
| Val (a : A)
| Ret (r : Response)
| Throw (e : Thrown).

Arguments Val {A} a.
Arguments Ret {A} r.
Arguments Throw {A} e.

Definition M (A : Type) : Type := World -> Outcome A * World.

Definition ret {A} (a : A) : M A := fun w => (Val a, w).

Definition bind {A B} (m : M A) (f : A -> M B) : M B :=
  fun w =>
    match m w with
    | (Val a, w') => f a w'
    | (Ret r, w') => (Ret r, w')
    | (Throw e, w') => (Throw e, w')
    end.

Definition respond {A} (r : Response) : M A := fun w => (Ret r, w).

Definition throw {A} (e : Thrown) : M A := fun w => (Throw e, w).

(** [try { m } catch (e) { h e }] *)
Definition try_catch {A} (m : M A) (h : Thrown -> M A) : M A :=
  fun w =>
    match m w with
    | (Throw e, w') => h e w'
    | r => r
    end.

Definition when (b : bool) (m : M unit) : M unit :=
  if b then m else ret tt.

Declare Scope handler_scope.
Delimit Scope handler_scope with handler.
Bind Scope handler_scope with M.

Notation "x <- m ;; k" := (bind m (fun x => k))
  (at level 100, m at next level, right associativity) : handler_scope.
Notation "m ;; k" := (bind m (fun _ => k))
  (at level 100, right associativity) : handler_scope.

Open Scope handler_scope.

Definition console (l : Level) (line : Text) : M unit :=
  fun w => (Val tt, emit (EConsole l line) w).

(** [await new Promise(resolve => setTimeout(resolve, delay))] *)
Definition sleep (delay : Q) : M unit :=
  fun w => (Val tt, emit (ESleep delay) w).

(** The whole handler body sits in one [try]; its [catch] and every
    early [return] produce the response. Neither [catch] block of the
    two functions throws; the last case makes the function total. *)
Definition run_handler (m : M Response) (on_error : Thrown -> M Response) (w : World)
  : Response * World :=
  match m w with
  | (Val r, w') => (r, w')
  | (Ret r, w') => (r, w')
  | (Throw e, w') =>
      match on_error e w' with
      | (Val r, w'') => (r, w'')
      | (Ret r, w'') => (r, w'')
      | (Throw _, w'') => ({| status := 500; body := None |}, w'')
      end
  end.

(** The reply shape of the database client: [{ data, error }]. *)
Record PgResult (A : Type) : Type := mkPgResult {
  data : option A;
  error : option string
}.

Arguments mkPgResult {A} data error.
Arguments data {A} p.
Arguments error {A} p.

Section Handlers.

Variable env : Env.

(** ** Retry and timeout *)

(** [fetchWithTimeout] (lines 33-56): the request is issued; an abort
    becomes [Error('network_timeout')], any other rejection is
    rethrown. *)
Definition fetchWithTimeout (req : HttpRequest) : M HttpResponse :=
  fun w =>
    let w' := count_fetch (emit (EFetch req) w) in
    match fetch_outcome env (fetch_count w) with
    | Responded r => (Val r, w')
    | Aborted => (Throw (ErrorObj "network_timeout"), w')
    | Rejected e => (Throw e, w')
    end.

(** The loop of [retryWithBackoff] (lines 9-31), from iteration [i]
    with [remaining = maxRetries - i] iterations left. *)
Fixpoint retry_from {T} (fn : M T) (maxRetries : nat) (initialDelay : Q)
  (remaining i : nat) (lastError : Thrown) : M T :=
  match remaining with
  | O => throw lastError
  | S remaining' =>
      try_catch fn (fun error =>
        when (i <? maxRetries - 1)%nat
          (let delay := initialDelay * JS.pow2 i in
           console Log [FStr "Retry "; FNum (inject_Z (Z.of_nat (i + 1))); FStr "/";
                        FNum (inject_Z (Z.of_nat maxRetries)); FStr " after ";
                        FNum delay; FStr "ms"] ;;
           sleep delay) ;;
        retry_from fn maxRetries initialDelay remaining' (S i) error)
  end.

Definition retryWithBackoff {T} (fn : M T) (maxRetries : nat) (initialDelay : Q) : M T :=
  retry_from fn maxRetries initialDelay maxRetries 0 NotAnError.

(** The defaults [maxRetries = 3], [initialDelay = 1000]. *)
Definition retryDefault {T} (fn : M T) : M T := retryWithBackoff fn 3 1000.

(** ** The ledger store *)

(** [from('user_central_wallets').select('balance').eq('user_id', uid).single()]:
    no row is an error of the client. *)
Definition select_balance (uid : string) : M (PgResult Q) :=
  fun w =>
    let w' := count_db w in
    match db_fault env (db_count w) with
    | Some e => (Val (mkPgResult None (Some e)), w')
    | None =>
        match user_central_wallets w !! uid with
        | Some b => (Val (mkPgResult (Some b) None), w')
        | None => (Val (mkPgResult None (Some "PGRST116")), w')
        end
    end.

(** [from('user_central_wallets').update({ balance }).eq('user_id', uid)]:
    an update that matches no row changes nothing and is no error. *)
Definition update_balance (uid : string) (balance : Q) : M (PgResult unit) :=
  fun w =>
    let w' := count_db w in
    match db_fault env (db_count w) with
    | Some e => (Val (mkPgResult None (Some e)), w')
    | None =>
        match user_central_wallets w !! uid with
        | Some _ =>
            (Val (mkPgResult None None),
             set_wallets (<[uid := balance]> (user_central_wallets w)) w')
        | None => (Val (mkPgResult None None), w')
        end
    end.

(** [from('wallet_transactions').insert(rows)] *)
Definition insert_transactions (rows : list TransactionRecord) : M (PgResult unit) :=
  fun w =>
    let w' := count_db w in
    match db_fault env (db_count w) with
    | Some e => (Val (mkPgResult None (Some e)), w')
    | None =>
        (Val (mkPgResult None None),
         set_transactions (wallet_transactions w ++ rows) w')
    end.

End Handlers.

(** ** The withdrawal handler *)

Record DestinationDetails : Type := mkDestinationDetails {
  account_number : option string;
  bank_name : option string;
  account_name : option string;
  phone_number : option string
}.

(** The request body [{ amount, paymentMethod, destinationDetails }];
    [amount = None] when the member is missing or not a number. *)
Record WithdrawBody : Type := mkWithdrawBody {
  amount : option Q;
  paymentMethod : string;
  destinationDetails : option DestinationDetails
}.

(** An incoming request; [req_json] is [inl e] when [req.json()]
    throws [e]. *)
Record Request (B : Type) : Type := mkRequest {
  req_method : string;
  req_json : Thrown + B
}.

Arguments mkRequest {B} req_method req_json.
Arguments req_method {B} r.
Arguments req_json {B} r.

(** What [createRecipientWithPhone] returns: [{ ok, data, message, code }]. *)
Record RecipientResp : Type := mkRecipientResp {
  rr_ok : bool;
  rr_data : option Json;
  rr_message : option string;
  rr_code : option string
}.

(** Reading a member of [undefined], or calling what is not a
    function; the message text depends on the engine. *)
Definition type_error : Thrown := ErrorObj "TypeError".

(** [balanceData.data[0]?.balance || 0] *)
Definition first_balance (d : Data) : Q :=
  match d with
  | DBalances (Some b :: _) => b
  | _ => 0
  end.

Definition data_truthy (d : Data) : bool :=
  match d with
  | DAbsent => false
  | _ => true
  end.

(** [data.recipient_code], [undefined] on an object without that member. *)
Definition recipient_code_of (d : Data) : option string :=
  match d with
  | DRecipient c => c
  | _ => None
  end.

(** [transferData.data?.reference] *)
Definition reference_of (d : Data) : option string :=
  match d with
  | DTransfer r => r
  | _ => None
  end.

(** The predicate handed to [banksData.data.find]. *)
Definition matchesProvider (paymentMethod : string) (bank : Bank) : bool :=
  let name := JS.toLowerCase (JS.or_else (name bank) "") in
  let slug := JS.toLowerCase (JS.or_else (slug bank) "") in
  let code := JS.toUpperCase (JS.or_else (code bank) "") in
  if String.eqb paymentMethod "mpesa" then
    String.eqb code "MPESA" || JS.includes name "m-pesa" || JS.includes name "mpesa"
    || JS.includes slug "m-pesa" || JS.includes slug "mpesa"
  else if String.eqb paymentMethod "airtel" then
    String.eqb code "ATL_KE" || JS.includes name "airtel" || JS.includes slug "airtel"
  else false.

(** The two phone forms prepared before recipient creation
    (lines 342-353). *)
Definition phoneNoSpaces (phone_number : option string) : string :=
  JS.stripSeparators (JS.or_else phone_number "").

Definition intlPhone (phone_number : option string) : string :=
  let p := JS.stripLeadingPlus (phoneNoSpaces phone_number) in
  if JS.startsWith p "0" then "254" ++ JS.slice 1 p
  else if negb (JS.startsWith p "254") then "254" ++ p
  else p.

Definition localPhone (phone_number : option string) : string :=
  let i := intlPhone phone_number in
  if JS.startsWith i "254" then "0" ++ JS.slice 3 i else phoneNoSpaces phone_number.

(** The condition under which the local form is tried after the
    international one. *)
Definition wantsLocalFallback (r : RecipientResp) : bool :=
  negb (rr_ok r) &&
  match rr_message r with
  | Some m => JS.includes (JS.toLowerCase m) "account number is invalid"
  | None => false
  end.

Definition str (s : string) : JVal := JStr s.

Definition destinationJson (d : DestinationDetails) : JVal :=
  JObj (opt_field "account_number" (JStr <$> account_number d)
        ++ opt_field "bank_name" (JStr <$> bank_name d)
        ++ opt_field "account_name" (JStr <$> account_name d)
        ++ opt_field "phone_number" (JStr <$> phone_number d)).

Definition paystack (path : string) : string := "https://api.paystack.co" ++ path.

(** The outbound requests of the withdrawal. *)
Definition balanceRequest (paystackSecretKey : string) : HttpRequest :=
  {| url := paystack "/balance"; http_method := "GET";
     bearer := paystackSecretKey; payload := PNone |}.

Definition banksRequest (paystackSecretKey : string) : HttpRequest :=
  {| url := paystack "/bank?currency=KES&type=mobile_money"; http_method := "GET";
     bearer := paystackSecretKey; payload := PNone |}.

Definition mobileRecipientRequest (paystackSecretKey : string) (user : User)
  (paymentMethod : string) (provider : Bank) (phone : string) : HttpRequest :=
  {| url := paystack "/transferrecipient"; http_method := "POST";
     bearer := paystackSecretKey;
     payload := PRecipient "mobile_money" (JS.or_else (email user) "User")
                  (Some phone) (code provider) "KES" (Some paymentMethod) |}.

Definition bankRecipientRequest (paystackSecretKey : string) (d : DestinationDetails)
  : HttpRequest :=
  {| url := paystack "/transferrecipient"; http_method := "POST";
     bearer := paystackSecretKey;
     payload := PRecipient "nuban" (JS.or_else (account_name d) "")
                  (account_number d) (bank_name d) "KES" None |}.

(** The rejection of an amount that the fee would consume. *)
Definition amountTooLow (fee : Q) : Response :=
  json_response 400
    [("error", JText [FStr "Withdrawal amount too low. Minimum amount after fees: KES ";
                      FNum (fee + 1)]);
     ("success", JBool false); ("code", str "amount_too_low"); ("fee", JNum fee)].

Section Withdrawal.

Variable env : Env.


(** [const { data: { user }, error: userError } = await supabaseClient.auth.getUser()] *)
Definition authenticate : M User :=
  match auth_user env with
  | Some user => ret user
  | None => respond (json_response 401 [("error", str "Unauthorized")])
  end.

Definition parse_body {B} (req : Request B) : M B :=
  match req_json req with
  | inr b => ret b
  | inl e => throw e
  end.

(** [await response.json()] *)
Definition json (r : HttpResponse) : M Json :=
  match resp_json r with
  | Some j => ret j
  | None => throw (ErrorObj "Unexpected end of JSON input")
  end.

(** Input validation (lines 86-120): the amount, then the destination
    fields. *)
Definition validateInput (b : WithdrawBody) : M (Q * DestinationDetails) :=
  match amount b with
  | Some a =>
      if JS.Qleb a 0 then
        respond (json_response 400
          [("error", str "Please enter a valid withdrawal amount");
           ("success", JBool false); ("code", str "invalid_amount")])
      else
        match destinationDetails b with
        | None => respond (json_response 400 [("error", str "Destination details required")])
        | Some d =>
            if String.eqb (paymentMethod b) "bank" then
              if negb (JS.truthy (account_number d)) || negb (JS.truthy (bank_name d))
                 || negb (JS.truthy (account_name d))
              then respond (json_response 400 [("error", str "Bank account details incomplete")])
              else ret (a, d)
            else
              if negb (JS.truthy (phone_number d))
              then respond (json_response 400
                     [("error", str "Phone number required for mobile money withdrawal")])
              else ret (a, d)
        end
  | None =>
      respond (json_response 400
        [("error", str "Please enter a valid withdrawal amount");
         ("success", JBool false); ("code", str "invalid_amount")])
  end.

(** The caller's central wallet and the local balance check
    (lines 122-142). *)
Definition loadWallet (user : User) (amount : Q) : M Q :=
  wallet <- select_balance env (id user) ;;
  match error wallet, data wallet with
  | None, Some balance =>
      if JS.Qltb balance amount
      then respond (json_response 400
             [("error", str "Insufficient balance"); ("success", JBool false)])
      else ret balance
  | _, _ =>
      console Error [FStr "Wallet error:"] ;;
      respond (json_response 404 [("error", str "Wallet not found"); ("success", JBool false)])
  end.

(** The provider key of the configuration (lines 144-152). *)
Definition requireSecretKey : M string :=
  match PAYSTACK_SECRET_KEY env with
  | Some k =>
      if String.eqb k "" then
        console Error [FStr "PAYSTACK_SECRET_KEY not configured"] ;;
        respond (json_response 500
          [("error", str "Payment service not configured"); ("success", JBool false)])
      else ret k
  | None =>
      console Error [FStr "PAYSTACK_SECRET_KEY not configured"] ;;
      respond (json_response 500
        [("error", str "Payment service not configured"); ("success", JBool false)])
  end.

(** The fee, the net amount, and the check that the net amount is
    positive (lines 177-199). Yields [(fee, netAmount)]. *)
Definition checkNetAmount (amount : Q) (paymentMethod : string) : M (Q * Q) :=
  let fee := calculateFee amount paymentMethod in
  let netAmount := amount - fee in
  if JS.Qleb netAmount 0 then respond (amountTooLow fee)
  else
    console Log [FStr "Starting Paystack transfer:"] ;;
    ret (fee, netAmount).

(** The provider-side balance check that precedes the transfer
    (lines 201-256). *)
Definition checkPaystackBalance (paystackSecretKey : string) (netAmount : Q) : M unit :=
  console Log [FStr "Checking Paystack balance..."] ;;
  try_catch
    (balanceResponse <- retryDefault
       (fetchWithTimeout env (balanceRequest paystackSecretKey)) ;;
     if resp_ok balanceResponse then
       balanceData <- json balanceResponse ;;
       if j_status balanceData && data_truthy (j_data balanceData) then
         let paystackBalance := first_balance (j_data balanceData) in
         let paystackBalanceKES := paystackBalance / 100 in
         let requiredAmount := netAmount in
         console Log [FStr "Paystack balance check:"] ;;
         if JS.Qltb paystackBalanceKES requiredAmount then
           respond (json_response 503
             [("error", str "Insufficient funds in withdrawal service. Our team has been notified. Please try again later or contact support.");
              ("success", JBool false); ("code", str "insufficient_balance")])
         else ret tt
       else ret tt
     else
       console Warn [FStr "Could not check Paystack balance, proceeding with transfer"])
    (fun balanceError =>
       console Error [FStr "Balance check error:"] ;;
       let errorMsg := message_or balanceError "unknown" in
       if String.eqb errorMsg "network_timeout" then
         respond (json_response 503
           [("error", str "Network timeout. Please check your connection and try again.");
            ("success", JBool false); ("code", str "network_error")])
       else ret tt).

(** The mobile-money catalogue of the provider (lines 262-313). *)
Definition fetchBanks (paystackSecretKey : string) : M Json :=
  try_catch
    (banksResponse <- retryDefault
       (fetchWithTimeout env (banksRequest paystackSecretKey)) ;;
     banksData <- try_catch (json banksResponse)
       (fun parseError =>
          console Error [FStr "Failed to parse banks response:"] ;;
          respond (json_response 503
            [("error", str "Payment service error. Please try again.");
             ("success", JBool false); ("code", str "service_error")])) ;;
     if negb (resp_ok banksResponse) || negb (j_status banksData) then
       console Error [FStr "Failed to fetch banks:"] ;;
       respond (json_response (if (500 <=? resp_status banksResponse)%Z then 503 else 400)
         [("error", str (JS.or_else (j_message banksData) "Payment service temporarily unavailable"));
          ("success", JBool false);
          ("code", str (if (500 <=? resp_status banksResponse)%Z
                        then "service_unavailable" else "payment_error"))])
     else ret banksData)
    (fun fetchError =>
       console Error [FStr "Banks fetch error:"] ;;
       let errorMsg := message_or fetchError "unknown" in
       respond (json_response 503
         [("error", str (if String.eqb errorMsg "network_timeout"
                         then "Network timeout. Please try again."
                         else "Payment service temporarily unavailable."));
          ("success", JBool false);
          ("code", str (if String.eqb errorMsg "network_timeout"
                        then "network_error" else "service_unavailable"))])).

(** [banksData.data.find(...)] and the check that a provider was found
    (lines 315-340). An array of anything but catalogue entries has no
    match; [find] on what is not an array throws. *)
Definition findProvider (paymentMethod : string) (banksData : Json) : M Bank :=
  match j_data banksData with
  | DBanks l =>
      match List.find (matchesProvider paymentMethod) l with
      | Some provider => console Log [FStr "Using provider:"] ;; ret provider
      | None =>
          console Error [FStr "Provider not found:"] ;;
          respond (json_response 400
            [("error", str (JS.toUpperCase paymentMethod ++ " provider not available"));
             ("success", JBool false)])
      end
  | DBalances _ =>
      console Error [FStr "Provider not found:"] ;;
      respond (json_response 400
        [("error", str (JS.toUpperCase paymentMethod ++ " provider not available"));
         ("success", JBool false)])
  | _ => throw type_error
  end.

(** [createRecipientWithPhone] (lines 355-403). *)
Definition createRecipientWithPhone (paystackSecretKey : string) (user : User)
  (paymentMethod : string) (provider : Bank) (phone : string) : M RecipientResp :=
  console Log [FStr "Creating recipient with phone:"; FStr phone] ;;
  try_catch
    (resp <- retryDefault
       (fetchWithTimeout env
          (mobileRecipientRequest paystackSecretKey user paymentMethod provider phone)) ;;
     match resp_json resp with
     | None =>
         console Error [FStr "Failed to parse recipient response:"] ;;
         ret {| rr_ok := false; rr_data := None;
                rr_message := Some "Payment service error"; rr_code := Some "service_error" |}
     | Some data =>
         console Log [FStr "Recipient creation response:"] ;;
         ret {| rr_ok := resp_ok resp && j_status data; rr_data := Some data;
                rr_message := j_message data; rr_code := j_code data |}
     end)
    (fun error =>
       console Error [FStr "Recipient creation error:"] ;;
       let errorMsg := message_or error "Network error" in
       ret {| rr_ok := false; rr_data := None;
              rr_message := Some (if String.eqb errorMsg "network_timeout"
                                  then "Network timeout. Please try again."
                                  else "Payment service error");
              rr_code := Some (if String.eqb errorMsg "network_timeout"
                               then "network_error" else "service_error") |}).

(** Recipient creation for a mobile number (lines 342-424): the
    international form first, then the local form if the provider says
    the account number is invalid. Yields [recipientCode]. *)
Definition createMobileRecipient (paystackSecretKey : string) (user : User)
  (paymentMethod : string) (provider : Bank) (d : DestinationDetails) : M (option string) :=
  let intl := intlPhone (phone_number d) in
  let loc := localPhone (phone_number d) in
  console Log [FStr "Prepared phones:"; FStr intl; FStr loc] ;;
  first <- createRecipientWithPhone paystackSecretKey user paymentMethod provider intl ;;
  recipientResp <-
    (if wantsLocalFallback first then
       console Warn [FStr "Intl format rejected, retrying with local format"] ;;
       createRecipientWithPhone paystackSecretKey user paymentMethod provider loc
     else ret first) ;;
  if negb (rr_ok recipientResp) then
    console Error [FStr "Recipient creation failed:"] ;;
    respond (json_response
      (if match rr_code recipientResp with
          | Some c => String.eqb c "network_error"
          | None => false
          end then 503 else 400)
      [("error", str (JS.or_else (rr_message recipientResp) "Failed to create recipient"));
       ("success", JBool false);
       ("code", str (JS.or_else (rr_code recipientResp) "recipient_error"))])
  else
    match rr_data recipientResp with
    | Some j =>
        match j_data j with
        | DAbsent => throw type_error
        | dd => ret (recipient_code_of dd)
        end
    | None => throw type_error
    end.

Definition resolveMobileRecipient (paystackSecretKey : string) (user : User)
  (paymentMethod : string) (d : DestinationDetails) : M (option string) :=
  banksData <- fetchBanks paystackSecretKey ;;
  provider <- findProvider paymentMethod banksData ;;
  createMobileRecipient paystackSecretKey user paymentMethod provider d.

(** The bank recipient (lines 426-471); every exception of the block,
    the failing member access included, ends in its own [catch]. *)
Definition resolveBankRecipient (paystackSecretKey : string) (d : DestinationDetails)
  : M (option string) :=
  try_catch
    (recipientResponse <- retryDefault
       (fetchWithTimeout env (bankRecipientRequest paystackSecretKey d)) ;;
     recipientData <- json recipientResponse ;;
     if negb (resp_ok recipientResponse) || negb (j_status recipientData) then
       console Error [FStr "Recipient creation failed:"] ;;
       respond (json_response (if (500 <=? resp_status recipientResponse)%Z then 503 else 400)
         [("error", str (JS.or_else (j_message recipientData) "Failed to create bank recipient"));
          ("success", JBool false);
          ("code", str (if (500 <=? resp_status recipientResponse)%Z
                        then "service_unavailable" else "recipient_error"))])
     else
       match j_data recipientData with
       | DAbsent => throw type_error
       | dd => ret (recipient_code_of dd)
       end)
    (fun fetchError =>
       console Error [FStr "Bank recipient creation error:"] ;;
       let errorMsg := message_or fetchError "unknown" in
       respond (json_response 503
         [("error", str (if String.eqb errorMsg "network_timeout"
                         then "Network timeout. Please try again."
                         else "Payment service temporarily unavailable"));
          ("success", JBool false);
          ("code", str (if String.eqb errorMsg "network_timeout"
                        then "network_error" else "service_unavailable"))])).

Definition resolveRecipient (paystackSecretKey : string) (user : User)
  (paymentMethod : string) (d : DestinationDetails) : M (option string) :=
  if String.eqb paymentMethod "mpesa" || String.eqb paymentMethod "airtel"
  then resolveMobileRecipient paystackSecretKey user paymentMethod d
  else resolveBankRecipient paystackSecretKey d.

(** The transfer request of one attempt; the reference reads the clock
    when the attempt is made. *)
Definition transferRequest (paystackSecretKey : string) (user : User)
  (paymentMethod : string) (netAmount : Q) (recipientCode : option string) (now : Z)
  : HttpRequest :=
  {| url := paystack "/transfer"; http_method := "POST"; bearer := paystackSecretKey;
     payload := PTransfer "balance" (JS.round (netAmount * 100)) recipientCode
                  ("Wallet withdrawal via " ++ paymentMethod)
                  [FStr "WD"; FNum (inject_Z now); FStr (JS.take 8 (id user))] |}.

(** The transfer of the net amount (lines 474-571). Yields
    [transferData]. *)
Definition initiateTransfer (paystackSecretKey : string) (user : User)
  (paymentMethod : string) (netAmount : Q) (recipientCode : option string) : M Json :=
  console Log [FStr "Initiating Paystack transfer:"] ;;
  try_catch
    (transferResponse <- retryDefault
       (fun w => fetchWithTimeout env
          (transferRequest paystackSecretKey user paymentMethod netAmount recipientCode
             (date_now env (fetch_count w))) w) ;;
     transferData <- try_catch (json transferResponse)
       (fun parseError =>
          console Error [FStr "Failed to parse transfer response:"] ;;
          respond (json_response 503
            [("error", str "Payment service error. Please try again.");
             ("success", JBool false); ("code", str "service_error")])) ;;
     console Log [FStr "Transfer response:"] ;;
     if negb (resp_ok transferResponse) || negb (j_status transferData) then
       console Error [FStr "Transfer failed:"] ;;
       let errorMessage := JS.or_else (j_message transferData) "Transfer failed" in
       let errorCode := j_code transferData in
       if match j_code transferData with
          | Some c => String.eqb c "insufficient_balance"
          | None => false
          end || JS.includes (JS.toLowerCase errorMessage) "balance is not enough"
       then
         respond (json_response 503
           [("error", str "Insufficient funds in withdrawal service. Our team has been notified. Please try again later or contact support.");
            ("success", JBool false); ("code", str "insufficient_balance")])
       else if (500 <=? resp_status transferResponse)%Z then
         respond (json_response 503
           [("error", str "Payment service temporarily unavailable. Please try again later.");
            ("success", JBool false); ("code", str "service_unavailable")])
       else
         respond (json_response 400
           ([("error", str errorMessage); ("success", JBool false)]
            ++ opt_field "code" (JStr <$> errorCode))%list)
     else ret transferData)
    (fun fetchError =>
       console Error [FStr "Transfer error:"] ;;
       let errorMsg := message_or fetchError "unknown" in
       respond (json_response 503
         [("error", str (if String.eqb errorMsg "network_timeout"
                         then "Network timeout. Please check your connection and try again."
                         else "Payment service temporarily unavailable. Please try again."));
          ("success", JBool false);
          ("code", str (if String.eqb errorMsg "network_timeout"
                        then "network_error" else "service_unavailable"))])).

(** The debit of the gross amount after the transfer went through
    (lines 573-588). *)
Definition deductFromWallet (user : User) (balance amount : Q) : M unit :=
  r <- update_balance env (id user) (balance - amount) ;;
  match error r with
  | Some updateError =>
      console Error [FStr "Wallet update error:"] ;;
      respond (json_response 500
        [("error", str "Failed to update wallet"); ("success", JBool false)])
  | None => ret tt
  end.

Definition destinationOf (paymentMethod : string) (d : DestinationDetails) : string :=
  if String.eqb paymentMethod "bank"
  then JS.or_else (bank_name d) "" ++ " - " ++ JS.or_else (account_number d) ""
  else JS.or_else (phone_number d) "".

Definition withdrawalRecord (user : User) (paymentMethod : string) (d : DestinationDetails)
  (amount fee : Q) (transferData : Json) (now : Z) : TransactionRecord :=
  {| tx_user_id := id user;
     tx_type := "withdrawal";
     tx_amount := - amount;
     tx_description := [FStr ("Withdrawal to " ++ destinationOf paymentMethod d ++ " (Fee: KES ");
                        FNum fee; FStr ")"];
     tx_status := "completed";
     tx_reference_id :=
       Some (if JS.truthy (reference_of (j_data transferData))
             then [FStr (JS.or_else (reference_of (j_data transferData)) "")]
             else [FStr "WD"; FNum (inject_Z now)]);
     tx_metadata := [("payment_method", str paymentMethod);
                     ("destination_details", destinationJson d);
                     ("fee", JNum fee);
                     ("net_amount", JNum (amount - fee))] |}.

(** The transaction record, whose insertion is not checked, and the
    success response (lines 590-633). *)
Definition recordAndRespond (user : User) (paymentMethod : string) (d : DestinationDetails)
  (balance amount fee : Q) (transferData : Json) : M Response :=
  (fun w => bind (insert_transactions env
                    [withdrawalRecord user paymentMethod d amount fee transferData
                       (date_now env (fetch_count w))])
                 (fun _ => ret tt) w) ;;
  console Log [FStr "Withdrawal successful:"] ;;
  ret (json_response 200
    ([("success", JBool true); ("message", str "Withdrawal successful");
      ("amount", JNum amount); ("fee", JNum fee); ("netAmount", JNum (amount - fee));
      ("destination", str (destinationOf paymentMethod d));
      ("paymentMethod", str paymentMethod)]
     ++ opt_field "reference" (JStr <$> reference_of (j_data transferData))
     ++ [("newBalance", JNum (balance - amount))])%list).

(** The local variables of the handler once a request has passed the
    local checks. *)
Record Checked : Type := mkChecked {
  c_user : User;
  c_paymentMethod : string;
  c_destination : DestinationDetails;
  c_amount : Q;
  c_balance : Q;
  c_key : string;
  c_fee : Q;
  c_netAmount : Q
}.

(** The checks that involve no provider: caller, input, local
    balance, configuration, net amount. *)
Definition preflight (req : Request WithdrawBody) : M Checked :=
  user <- authenticate ;;
  b <- parse_body req ;;
  console Log [FStr "Withdrawal request:"] ;;
  valid <- validateInput b ;;
  let amount := fst valid in
  let d := snd valid in
  balance <- loadWallet user amount ;;
  paystackSecretKey <- requireSecretKey ;;
  net <- checkNetAmount amount (paymentMethod b) ;;
  ret {| c_user := user; c_paymentMethod := paymentMethod b; c_destination := d;
         c_amount := amount; c_balance := balance; c_key := paystackSecretKey;
         c_fee := fst net; c_netAmount := snd net |}.

(** The provider side: balance check, then recipient and transfer. *)
Definition payoutAfterCheck (c : Checked) : M Json :=
  recipientCode <- resolveRecipient (c_key c) (c_user c) (c_paymentMethod c) (c_destination c) ;;
  initiateTransfer (c_key c) (c_user c) (c_paymentMethod c) (c_netAmount c) recipientCode.

Definition payout (c : Checked) : M Json :=
  checkPaystackBalance (c_key c) (c_netAmount c) ;;
  payoutAfterCheck c.

(** The ledger side: debit, record, success response. *)
Definition settle (c : Checked) (transferData : Json) : M Response :=
  deductFromWallet (c_user c) (c_balance c) (c_amount c) ;;
  recordAndRespond (c_user c) (c_paymentMethod c) (c_destination c)
    (c_balance c) (c_amount c) (c_fee c) transferData.

(** The body of the [try] of the withdrawal handler. *)
Definition withdraw (req : Request WithdrawBody) : M Response :=
  c <- preflight req ;;
  transferData <- payout c ;;
  settle c transferData.

(** The [catch] of the handler (lines 635-648). *)
Definition withdrawFailed (error : Thrown) : M Response :=
  console Error [FStr "Withdrawal error:"] ;;
  let errorMessage := message_or error "Unknown error" in
  ret (json_response 500
    [("error", str "Withdrawal request failed. Please try again.");
     ("success", JBool false); ("code", str "internal_error");
     ("details", str errorMessage)]).

(** [serve(async (req) => { ... })] of the withdrawal function. *)
Definition serve_withdraw (req : Request WithdrawBody) (w : World) : Response * World :=
  if String.eqb (req_method req) "OPTIONS" then ({| status := 200; body := None |}, w)
  else run_handler (withdraw req) withdrawFailed w.

End Withdrawal.

(** ** The wallet-to-wallet transfer handler *)

Module WalletTransfer.

(** The request body [{ recipientEmail, amount, description }]; the
    amount is a number or missing. *)
Record TransferBody : Type := mkTransferBody {
  recipientEmail : option string;
  amount : option Q;
  description : option string
}.

Section Transfer.

Variable env : Env.

(** Input validation (lines 691-696). *)
Definition validateInput (b : TransferBody) : M (string * Q) :=
  match recipientEmail b, amount b with
  | Some e, Some a =>
      if String.eqb e "" || JS.Qleb a 0
      then respond (json_response 400 [("error", str "Invalid input parameters")])
      else ret (e, a)
  | _, _ => respond (json_response 400 [("error", str "Invalid input parameters")])
  end.

(** [u => u.email?.toLowerCase() === recipientEmail.toLowerCase()] *)
Definition emailMatches (recipientEmail : string) (u : User) : bool :=
  match email u with
  | Some e => String.eqb (JS.toLowerCase e) (JS.toLowerCase recipientEmail)
  | None => false
  end.

(** The recipient by e-mail, and the refusal of a transfer to oneself
    (lines 702-727). *)
Definition findRecipient (user : User) (recipientEmail : string) : M User :=
  match list_users env with
  | None =>
      console Error [FStr "Error listing users:"] ;;
      respond (json_response 500 [("error", str "Failed to find recipient")])
  | Some users =>
      match List.find (emailMatches recipientEmail) users with
      | None => respond (json_response 404 [("error", str "Recipient not found")])
      | Some matchingUser =>
          if String.eqb (id user) (id matchingUser)
          then respond (json_response 400 [("error", str "Cannot send money to yourself")])
          else ret matchingUser
      end
  end.

(** The sender's wallet and the check against amount plus fee
    (lines 729-753). *)
Definition loadSenderWallet (user : User) (totalAmount : Q) : M Q :=
  senderWallet <- select_balance env (id user) ;;
  match error senderWallet, data senderWallet with
  | None, Some balance =>
      if JS.Qltb balance totalAmount
      then respond (json_response 400
             [("success", JBool false); ("error", str "Insufficient balance");
              ("balance", JNum balance)])
      else ret balance
  | _, _ => respond (json_response 404 [("error", str "Sender wallet not found")])
  end.

(** The debit of the sender (lines 755-767). *)
Definition deductFromSender (user : User) (balance totalAmount : Q) : M unit :=
  r <- update_balance env (id user) (balance - totalAmount) ;;
  match error r with
  | Some deductError =>
      console Error [FStr "Deduct error:"] ;;
      respond (json_response 500
        [("error", str "Failed to deduct from sender"); ("details", str deductError)])
  | None => ret tt
  end.

(** The credit of the recipient (lines 769-795); when it fails the
    sender's balance read before the debit is written back, and the
    result of that write is not looked at. A recipient without a
    wallet row counts as balance 0, and the update then matches no
    row. *)
Definition addToRecipient (user matchingUser : User) (senderBalance amount : Q) : M unit :=
  recipientWallet <- select_balance env (id matchingUser) ;;
  let recipientNewBalance :=
    match data recipientWallet with
    | Some b => b
    | None => 0
    end + amount in
  r <- update_balance env (id matchingUser) recipientNewBalance ;;
  match error r with
  | Some addError =>
      console Error [FStr "Add to recipient error:"] ;;
      update_balance env (id user) senderBalance ;;
      respond (json_response 500
        [("error", str "Failed to credit recipient"); ("details", str addError)])
  | None => ret tt
  end.

Definition transferRecords (user matchingUser : User) (recipientEmail : string)
  (amount transactionFee : Q) : list TransactionRecord :=
  [ {| tx_user_id := id user;
       tx_type := "transfer";
       tx_amount := - (amount + transactionFee);
       tx_description := [FStr ("Transfer to " ++ recipientEmail ++ " (Fee: KES ");
                          FFixed2 transactionFee; FStr ")"];
       tx_status := "completed";
       tx_reference_id := None;
       tx_metadata := [] |};
    {| tx_user_id := id matchingUser;
       tx_type := "transfer";
       tx_amount := amount;
       tx_description := [FStr ("Transfer from " ++ JS.or_else (email user) "user")];
       tx_status := "completed";
       tx_reference_id := None;
       tx_metadata := [] |} ].

(** The two transaction records (lines 797-818); a failed insertion is
    only logged. *)
Definition recordTransactions (user matchingUser : User) (recipientEmail : string)
  (amount transactionFee : Q) : M unit :=
  r <- insert_transactions env (transferRecords user matchingUser recipientEmail amount transactionFee) ;;
  match error r with
  | Some txError => console Error [FStr "Transaction record error:"]
  | None => ret tt
  end.

(** The body of the [try] of the transfer handler. *)
Definition transfer (req : Request TransferBody) : M Response :=
  user <- authenticate env ;;
  b <- parse_body req ;;
  console Log [FStr "Wallet transfer request:"] ;;
  valid <- validateInput b ;;
  let recipientEmail := fst valid in
  let amount := snd valid in
  let transactionFee := transactionFee amount in
  matchingUser <- findRecipient user recipientEmail ;;
  let totalAmount := amount + transactionFee in
  balance <- loadSenderWallet user totalAmount ;;
  deductFromSender user balance totalAmount ;;
  addToRecipient user matchingUser balance amount ;;
  recordTransactions user matchingUser recipientEmail amount transactionFee ;;
  let remainingBalance := balance - totalAmount in
  ret (json_response 200
    [("success", JBool true); ("message", str "Transfer successful");
     ("remaining_balance", JNum remainingBalance); ("amount_sent", JNum amount);
     ("fee", JNum transactionFee); ("recipient", str recipientEmail)]).

(** The [catch] of the handler (lines 834-840). *)
Definition transferFailed (error : Thrown) : M Response :=
  console Error [FStr "Wallet transfer error:"] ;;
  ret (json_response 500
    ([("error", str "Internal server error")]
     ++ opt_field "details" (match error with
                             | ErrorObj m => Some (JStr m)
                             | NotAnError => None
                             end))%list).

(** [serve(async (req) => { ... })] of the transfer function. *)
Definition serve (req : Request TransferBody) (w : World) : Response * World :=
  if String.eqb (req_method req) "OPTIONS" then ({| status := 200; body := None |}, w)
  else run_handler (transfer req) transferFailed w.

End Transfer.

End WalletTransfer.
(** ** Vocabulary of the statements *)

(** What [fetchWithTimeout] throws when a request ends as [o];
    [None] when it returns the reply. *)
Definition thrown_by (o : FetchOutcome) : option Thrown :=
  match o with
  | Responded _ => None
  | Aborted => Some (ErrorObj "network_timeout")
  | Rejected e => Some e
  end.

(** The pauses [initialDelay * 2^i] for [i = from, ..., from + n - 1]. *)
Definition backoff (initialDelay : Q) (from n : nat) : list Q :=
  map (fun i => initialDelay * JS.pow2 i) (seq from n).

(** The world after the pause that follows failed attempt [i] of
    [retryWithBackoff]. *)
Definition paused (maxRetries : nat) (initialDelay : Q) (i : nat) (w : World) : World :=
  emit (ESleep (initialDelay * JS.pow2 i))
    (emit (EConsole Log [FStr "Retry "; FNum (inject_Z (Z.of_nat (i + 1))); FStr "/";
                         FNum (inject_Z (Z.of_nat maxRetries)); FStr " after ";
                         FNum (initialDelay * JS.pow2 i); FStr "ms"]) w).

(** Every run of [m] relates the world it starts from to the world it
    ends in by [R]. *)
Definition Keeps (R : World -> World -> Prop) {A} (m : M A) : Prop :=
  forall w, R w (snd (m w)).

(** Every response with which [m] leaves the handler satisfies [P]. *)
Definition Rets (P : Response -> Prop) {A} (m : M A) : Prop :=
  forall w r w', m w = (Ret r, w') -> P r.

(** The ledger is untouched. *)
Definition same_store (w w' : World) : Prop :=
  user_central_wallets w' = user_central_wallets w /\
  wallet_transactions w' = wallet_transactions w.

(** The trace has only grown, and every request issued meanwhile
    satisfies [P]. *)
Definition extends_with (P : HttpRequest -> Prop) (w w' : World) : Prop :=
  exists t, trace w' = (trace w ++ t)%list /\ Forall P (fetches t).

(** The amount of a request to the transfer endpoint. *)
Definition transfer_amount (r : HttpRequest) : option Q :=
  match payload r with
  | PTransfer _ a _ _ _ => Some a
  | _ => None
  end.

(** A response that reports success to the caller. *)
Definition succeeded (r : Response) : Prop :=
  match body r with
  | Some o => field "success" o = Some (JBool true)
  | None => False
  end.





(** The phone forms with which [createRecipientWithPhone] was entered,
    read off the console line it starts with. *)
Fixpoint recipientAttempts (t : list Event) : list string :=
  match t with
  | [] => []
  | EConsole Log [FStr line; FStr phone] :: t' =>
      if String.eqb line "Creating recipient with phone:"
      then phone :: recipientAttempts t'
      else recipientAttempts t'
  | _ :: t' => recipientAttempts t'
  end.

(** Two e-mail addresses that differ at most in letter case. *)
Definition sameEmail (a b : string) : Prop := JS.toLowerCase a = JS.toLowerCase b.

(** [recipientEmail] resolves to [u]: [u] is the first listed user
    whose address matches. *)
Definition resolvesTo (users : list User) (recipientEmail : string) (u : User) : Prop :=
  exists before after e,
    users = (before ++ u :: after)%list /\
    email u = Some e /\ sameEmail e recipientEmail /\
    forall v e', In v before -> email v = Some e' -> ~ sameEmail e' recipientEmail.

(** The destination fields that the declared channel requires are
    present: account number, bank and account name for a bank, the
    phone number otherwise. *)
Definition destinationComplete (method : string) (d : DestinationDetails) : bool :=
  if String.eqb method "bank"
  then JS.truthy (account_number d) && JS.truthy (bank_name d) && JS.truthy (account_name d)
  else JS.truthy (phone_number d).

(** The event predicate that goes with [extends_with]. *)
Definition fetches_satisfy (P : HttpRequest -> Prop) (e : Event) : Prop :=
  match e with
  | EFetch r => P r
  | _ => True
  end.

(** ** Scenarios *)

Module Scenario.

Definition reply (st : Z) (status : bool) (message code : option string) (d : Data)
  : FetchOutcome :=
  Responded {| resp_status := st;
               resp_json := Some {| j_status := status; j_message := message;
                                    j_code := code; j_data := d |} |}.

Definition fine (d : Data) : FetchOutcome := reply 200 true None None d.

Definition alice : User := {| id := "5f0c1d2e-aaaa"; email := Some "alice@example.com" |}.
Definition bob : User := {| id := "9b8a7c6d-bbbb"; email := Some "Bob@Example.com" |}.

Definition mpesa : Bank :=
  {| name := Some "M-PESA"; slug := Some "m-pesa"; code := Some "MPESA" |}.

(** The replies of a provider to which everything is acceptable, in
    the order a mobile withdrawal asks. *)
Definition smooth : list FetchOutcome :=
  [fine (DBalances [Some 50000000]); fine (DBanks [mpesa]);
   fine (DRecipient (Some "RCP_1")); fine (DTransfer (Some "TRF_1"))].

Definition environment (outcomes : list FetchOutcome) (otherwise : FetchOutcome)
  (faults : list (option string)) : Env :=
  {| fetch_outcome := fun k => nth k outcomes otherwise;
     db_fault := fun k => nth k faults None;
     auth_user := Some alice;
     list_users := Some [bob; alice];
     PAYSTACK_SECRET_KEY := Some "sk_test";
     date_now := fun _ => 1700000000000%Z |}.

Definition start (wallets : list (string * Q)) : World :=
  {| user_central_wallets := list_to_map wallets;
     wallet_transactions := [];
     fetch_count := 0;
     db_count := 0;
     trace := [] |}.

Definition toPhone (phone : string) : DestinationDetails :=
  {| account_number := None; bank_name := None; account_name := None;
     phone_number := Some phone |}.

Definition toBank : DestinationDetails :=
  {| account_number := Some "0123456789"; bank_name := Some "KCB";
     account_name := Some "Alice A"; phone_number := None |}.

Definition withdrawal (a : Q) (method : string) (d : DestinationDetails)
  : Request WithdrawBody :=
  {| req_method := "POST";
     req_json := inr {| amount := Some a; paymentMethod := method;
                        destinationDetails := Some d |} |}.

Definition sending (a : Q) (to : string) : Request WalletTransfer.TransferBody :=
  {| req_method := "POST";
     req_json := inr {| WalletTransfer.recipientEmail := Some to;
                        WalletTransfer.amount := Some a;
                        WalletTransfer.description := None |} |}.

End Scenario.

(** ** Further vocabulary *)

(** Every character of [s] satisfies [p]. *)
Fixpoint allChars (p : ascii -> bool) (s : string) : bool :=
  match s with
  | EmptyString => true
  | String c t => p c && allChars p t
  end.

(** Neither white space nor a dash. *)
Definition notSeparator (c : ascii) : bool :=
  negb (JS.isSpace c) && negb (Ascii.eqb c "-").

(** The sum of a list of pauses. *)
Definition total (l : list Q) : Q := fold_right Qplus 0 l.


(** No wallet is overdrawn. *)
Definition solvent (w : World) : Prop :=
  map_Forall (fun _ balance => 0 <= balance) (user_central_wallets w).

(** Nothing was sent to the provider between [w] and [w']. *)
Definition silent (w w' : World) : Prop :=
  fetches (trace w') = fetches (trace w).

(** The number of requests of the kind [p] sent so far. *)
Definition requests (p : HttpRequest -> bool) (w : World) : nat :=
  length (List.filter p (fetches (trace w))).

(** A run of [m] sends at most [n] requests of the kind [p]. *)
Definition Sends (p : HttpRequest -> bool) (n : nat) {A} (m : M A) : Prop :=
  forall w, (requests p (snd (m w)) <= requests p w + n)%nat.

Definition isTransfer (r : HttpRequest) : bool :=
  match transfer_amount r with
  | Some _ => true
  | None => false
  end.

Definition anyRequest (r : HttpRequest) : bool := true.

(** The status codes with which the handlers refuse or fail. *)
Definition refusal (r : Response) : Prop :=
  In (status r) [400; 401; 404; 500; 503]%Z.

(** ** The transfer handler from the sender's wallet on *)





(** ** The transfer approval webhook

    The third function of [supabase/functions/withdraw-funds/index.ts]
    (lines 842-974) answers the provider's webhook deliveries and
    approves transfers that wait for approval. It makes at most one
    request, with plain [fetch]: no timeout and no retry. *)

Module Webhook.

(** A JSON value; an object or an array is kept by its text. *)
Inductive Value : Type :=
| VNull
| VBool (b : bool)
| VNum (q : Q)
| VStr (s : string)
| VCompound (text : string).

(** [!!v]; [None] is [undefined]. *)
Definition truthy (v : option Value) : bool :=
  match v with
  | None => false
  | Some VNull => false
  | Some (VBool b) => b
  | Some (VNum q) => negb (Qeq_bool q 0)
  | Some (VStr s) => negb (String.eqb s "")
  | Some (VCompound _) => true
  end.

(** What the handler reads of a payload that is not [null]:
    [payload.event] and [payload.data?.id]. *)
Record Payload : Type := mkPayload {
  event : option Value;
  data_id : option Value
}.

(** The request to [https://api.paystack.co/transfer/approve]. *)
Record Approval : Type := mkApproval {
  bearer : string;
  transfer_id : Value
}.

(** A reply of the provider: [approvalResponse.ok] and what
    [approvalResponse.json()] gives. *)
Record ApprovalResponse : Type := mkApprovalResponse {
  ok : bool;
  json : Thrown + Value
}.

Record Env : Type := mkEnv {
  PAYSTACK_SECRET_KEY : option string;
  fetch : Approval -> Thrown + ApprovalResponse
}.

Inductive Event : Type :=
| Console (l : Level) (line : string)
| Fetch (a : Approval).

Record Reply : Type := mkReply {
  status : Z;
  body : option (list (string * Value))
}.

Inductive Outcome : Type :=
| Returned (r : Reply)
| Threw (e : Thrown).

Definition reply (st : Z) (o : list (string * Value)) : Reply :=
  {| status := st; body := Some o |}.

(** [JSON.stringify] leaves out a member whose value is [undefined]. *)
Definition member (k : string) (v : option Value) : list (string * Value) :=
  match v with
  | Some x => [(k, x)]
  | None => []
  end.

Definition isPendingApproval (event : option Value) : bool :=
  match event with
  | Some (VStr s) => String.eqb s "transfer.pending_approval"
  | _ => false
  end.

(** The approval of the transfer [transferId] (lines 883-944). *)
Definition approve (env : Env) (transferId : Value) : Outcome * list Event :=
  match PAYSTACK_SECRET_KEY env with
  | Some paystackSecretKey =>
      if String.eqb paystackSecretKey "" then
        (Returned (reply 500 [("success", VBool false);
                              ("error", VStr "Paystack secret key not configured")]),
         [Console Log "Transfer ID to approve:";
          Console Error "PAYSTACK_SECRET_KEY not configured"])
      else
        let request := {| bearer := paystackSecretKey; transfer_id := transferId |} in
        let sent := [Console Log "Transfer ID to approve:";
                     Console Log "Attempting to approve transfer...";
                     Fetch request] in
        match fetch env request with
        | inl e => (Threw e, sent)
        | inr approvalResponse =>
            match json approvalResponse with
            | inl e => (Threw e, sent)
            | inr approvalData =>
                if negb (ok approvalResponse) then
                  (Returned (reply 500 [("success", VBool false);
                                        ("error", VStr "Failed to approve transfer");
                                        ("details", approvalData)]),
                   sent ++ [Console Log "Approval response:";
                            Console Error "Failed to approve transfer:"])%list
                else
                  (Returned (reply 200 [("success", VBool true);
                                        ("message", VStr "Transfer approved successfully");
                                        ("transfer_id", transferId);
                                        ("approval_data", approvalData)]),
                   sent ++ [Console Log "Approval response:";
                            Console Log "Transfer approved successfully!"])%list
            end
        end
  | None =>
      (Returned (reply 500 [("success", VBool false);
                            ("error", VStr "Paystack secret key not configured")]),
       [Console Log "Transfer ID to approve:";
        Console Error "PAYSTACK_SECRET_KEY not configured"])
  end.

Definition noTransferId : Outcome * list Event :=
  (Returned (reply 200 [("success", VBool false); ("error", VStr "No transfer ID found")]),
   [Console Error "No transfer ID found in payload"]).

(** The body of the [try] (lines 855-958). Reading [payload.event] of
    [null] throws. *)
Definition handle (env : Env) (req : Request (option Payload)) : Outcome * list Event :=
  let start := [Console Log "=== Paystack Transfer Approval Webhook Received ==="] in
  match req_json req with
  | inl e => (Threw e, start)
  | inr None => (Threw type_error, start ++ [Console Log "Received payload:"])%list
  | inr (Some payload) =>
      let seen := (start ++ [Console Log "Received payload:"; Console Log "Event type:"])%list in
      if isPendingApproval (event payload) then
        match data_id payload with
        | Some transferId =>
            if truthy (Some transferId) then
              (fst (approve env transferId), seen ++ snd (approve env transferId))%list
            else (fst noTransferId, seen ++ snd noTransferId)%list
        | None => (fst noTransferId, seen ++ snd noTransferId)%list
        end
      else
        (Returned (reply 200 ([("success", VBool true); ("message", VStr "Event received")]
                              ++ member "event_type" (event payload))%list),
         seen ++ [Console Log "Event acknowledged (not a pending approval)"])%list
  end.

(** [serve(async (req) => { ... })] of the webhook, with its [catch]
    (lines 960-973). *)
Definition serve (env : Env) (req : Request (option Payload)) : Reply * list Event :=
  if String.eqb (req_method req) "OPTIONS" then ({| status := 200; body := None |}, [])
  else
    match handle env req with
    | (Returned r, t) => (r, t)
    | (Threw e, t) =>
        (reply 500 [("success", VBool false);
                    ("error", VStr (message_or e "Unknown error"))],
         t ++ [Console Error "Error processing webhook:"])%list
    end.

(** The approval requests of a trace. *)
Fixpoint approvals (t : list Event) : list Approval :=
  match t with
  | [] => []
  | Fetch a :: t' => a :: approvals t'
  | _ :: t' => approvals t'
  end.

End Webhook.

(** ** The phone sign-in form

    [src/components/PhoneAuth.tsx]: the handlers of the two forms and
    the input of the verification code. *)

Module PhoneAuth.

(** A character that [\D] does not match. *)
Definition isDigit (c : ascii) : bool :=
  let n := nat_of_ascii c in (48 <=? n)%nat && (n <=? 57)%nat.

(** [onChange] of the code input (line 83):
    [e.target.value.replace(/\D/g, '').slice(0, 6)]. *)
Definition onOtpChange (value : string) : string :=
  JS.take 6 (JS.filterChars isDigit value).

(** [!s.trim()]: the string is empty or white space only. *)
Definition blank (s : string) : bool := allChars JS.isSpace s.

(** [disabled] of the submit button of the code form (line 91). *)
Definition verifyDisabled (isLoading : bool) (otp : string) : bool :=
  isLoading || negb (String.length otp =? 6)%nat.

Inductive Action : Type :=
| Toast (title description : string)
| SignInWithPhone (phone : string)
| VerifyOTP (phone otp : string).

(** [handleSendOTP] (lines 18-39) and [handleVerifyOTP] (lines 41-61),
    up to the call they make. *)
Definition handleSendOTP (phone : string) : Action :=
  if blank phone then Toast "Phone Required" "Please enter your phone number"
  else SignInWithPhone phone.

Definition handleVerifyOTP (phone otp : string) : Action :=
  if blank otp then Toast "OTP Required" "Please enter the verification code"
  else VerifyOTP phone otp.

End PhoneAuth.

(** * Properties *)

(** ** The definitions on concrete inputs *)

Example mpesa_fee_rows :
  map (fun a => calculateFee a "mpesa")
      [50; 100; 101; 1000; 2500; 2501; 3500; 5000; 7500; 10000; 10001; 20000]
  = [0; 0; 15; 15; 15; 25; 25; 30; 45; 50; 50; 100].
Proof. vm_compute. reflexivity. Qed.

Example airtel_fee_rows :
  map (fun a => calculateFee a "airtel") [100; 2500; 5000; 5001; 30000]
  = [0; 15; 30; 50; 150].
Proof. vm_compute. reflexivity. Qed.

Example bank_fee_rows :
  map (fun a => calculateFee a "bank") [1; 20; 25; 26; 25000; 30000]
  = [25; 25; 25; 25; 25; 30].
Proof. vm_compute. reflexivity. Qed.

Example unknown_channel_has_no_fee : calculateFee 1000 "card" = 0.
Proof. reflexivity. Qed.

Example transfer_fee_rows :
  transactionFee 100 == 10 /\ transactionFee 1000 == 10 /\
  transactionFee 5000 == 50 /\ transactionFee 10000 == 100 /\
  transactionFee 20000 == 100.
Proof. vm_compute. repeat split. Qed.

Example phone_forms :
  map (fun p => (intlPhone (Some p), localPhone (Some p)))
      ["0712 345-678"; "+254 712 345 678"; "254712345678"; "712345678"]
  = [("254712345678", "0712345678"); ("254712345678", "0712345678");
     ("254712345678", "0712345678"); ("254712345678", "0712345678")].
Proof. vm_compute. reflexivity. Qed.

Example provider_is_matched_by_name_slug_or_code :
  map (matchesProvider "mpesa")
      [ {| name := Some "M-Pesa"; slug := None; code := None |};
        {| name := None; slug := Some "safaricom-mpesa"; code := None |};
        {| name := None; slug := None; code := Some "mpesa" |};
        {| name := Some "Airtel Money"; slug := Some "airtel-ke"; code := Some "ATL_KE" |} ]
  = [true; true; true; false].
Proof. vm_compute. reflexivity. Qed.

Example smooth_withdrawal :
  let run := serve_withdraw (Scenario.environment Scenario.smooth Aborted [])
               (Scenario.withdrawal 1000 "mpesa" (Scenario.toPhone "0712 345-678"))
               (Scenario.start [("5f0c1d2e-aaaa", 5000)]) in
  status (fst run) = 200%Z /\
  user_central_wallets (snd run) !! "5f0c1d2e-aaaa" = Some 4000 /\
  map url (fetches (trace (snd run)))
  = ["https://api.paystack.co/balance";
     "https://api.paystack.co/bank?currency=KES&type=mobile_money";
     "https://api.paystack.co/transferrecipient";
     "https://api.paystack.co/transfer"].
Proof. vm_compute. repeat split. Qed.

Example transfer_between_wallets :
  let run := WalletTransfer.serve (Scenario.environment [] Aborted [])
               (Scenario.sending 200 "bob@example.com")
               (Scenario.start [("5f0c1d2e-aaaa", 1000); ("9b8a7c6d-bbbb", 50)]) in
  status (fst run) = 200%Z /\
  user_central_wallets (snd run) !! "5f0c1d2e-aaaa" = Some 790 /\
  user_central_wallets (snd run) !! "9b8a7c6d-bbbb" = Some 250 /\
  map tx_amount (wallet_transactions (snd run)) = [-210; 200].
Proof. vm_compute. repeat split. Qed.

(** ** Comparisons and rounding *)

Lemma Qleb_true (x y : Q) : JS.Qleb x y = true <-> x <= y.
Proof. apply Qle_bool_iff. Qed.

Lemma Qleb_false (x y : Q) : JS.Qleb x y = false <-> y < x.
Proof.
  unfold JS.Qleb. split; intros H.
  - apply Qnot_le_lt. intros Hle. apply Qle_bool_iff in Hle. congruence.
  - destruct (Qle_bool x y) eqn:E; [|reflexivity].
    apply Qle_bool_iff in E. lra.
Qed.

Lemma Qltb_true (x y : Q) : JS.Qltb x y = true <-> x < y.
Proof.
  unfold JS.Qltb. rewrite negb_true_iff. apply (Qleb_false y x).
Qed.

Lemma Qltb_false (x y : Q) : JS.Qltb x y = false <-> y <= x.
Proof.
  unfold JS.Qltb. rewrite negb_false_iff. apply (Qleb_true y x).
Qed.

Lemma floor_monotone (x y : Q) : x <= y -> JS.floor x <= JS.floor y.
Proof.
  intros H. unfold JS.floor. rewrite <- Zle_Qle. now apply Qfloor_resp_le.
Qed.

Lemma max_lower_bound (c x : Q) : c <= JS.max c x.
Proof. apply Q.le_max_l. Qed.

Lemma max_monotone (c x y : Q) : x <= y -> JS.max c x <= JS.max c y.
Proof. intros H. unfold JS.max. apply Q.max_le_compat_l. exact H. Qed.

(** Turn every comparison of the goal and the context into an
    inequality. *)
Ltac compare_all :=
  repeat match goal with
  | H : JS.Qleb _ _ = true |- _ => apply Qleb_true in H
  | H : JS.Qleb _ _ = false |- _ => apply Qleb_false in H
  | H : JS.Qltb _ _ = true |- _ => apply Qltb_true in H
  | H : JS.Qltb _ _ = false |- _ => apply Qltb_false in H
  end.

Ltac split_tiers :=
  repeat match goal with
  | |- context [JS.Qleb ?x ?y] => destruct (JS.Qleb x y) eqn:?
  end.

Lemma percent_fee_monotone (c r a b : Q) :
  0 <= r -> a <= b -> JS.max c (JS.floor (a * r)) <= JS.max c (JS.floor (b * r)).
Proof.
  intros Hr Hab. apply max_monotone, floor_monotone. nra.
Qed.

Lemma calculateFee_nonneg (a : Q) (method : string) : 0 <= calculateFee a method.
Proof.
  unfold calculateFee.
  repeat match goal with
  | |- context [if ?c then _ else _] => destruct c
  end; try lra;
  match goal with
  | |- _ <= JS.max ?c _ => apply Qle_trans with c; [lra | apply max_lower_bound]
  end.
Qed.

Lemma calculateFee_monotone (a b : Q) (method : string) :
  a <= b -> calculateFee a method <= calculateFee b method.
Proof.
  intros Hab. unfold calculateFee.
  destruct (String.eqb method "mpesa"); [|destruct (String.eqb method "airtel");
    [|destruct (String.eqb method "bank")]].
  - split_tiers; compare_all; try lra;
    first [ apply percent_fee_monotone; lra
          | match goal with
            | |- _ <= JS.max ?c _ => apply Qle_trans with c; [lra | apply max_lower_bound]
            end ].
  - split_tiers; compare_all; try lra;
    first [ apply percent_fee_monotone; lra
          | match goal with
            | |- _ <= JS.max ?c _ => apply Qle_trans with c; [lra | apply max_lower_bound]
            end ].
  - apply percent_fee_monotone; lra.
  - lra.
Qed.

(** ** Fees *)

(** C8. For every amount [a > 0] and each of the channels mpesa, airtel
    and bank, the withdrawal fee is non-negative, and within a tier of
    the channel's schedule the fee is non-decreasing: an amount [b >= a]
    of the same tier has a fee at least that of [a]. *)
Theorem calculateFee_nonneg_monotone_within_tier (a : Q) (method : string) :
  0 < a ->
  method = "mpesa" \/ method = "airtel" \/ method = "bank" ->
  0 <= calculateFee a method /\
  (forall b : Q, a <= b -> feeTier a method = feeTier b method ->
   calculateFee a method <= calculateFee b method).
Proof.
  intros _ _. split.
  - apply calculateFee_nonneg.
  - intros b Hab _. now apply calculateFee_monotone.
Qed.

Lemma calculateFee_nonneg_monotone_within_tier_witness :
  0 < 12000 /\ 12000 <= 30000 /\
  feeTier 12000 "mpesa" = feeTier 30000 "mpesa" /\
  0 <= calculateFee 12000 "mpesa" /\
  calculateFee 12000 "mpesa" <= calculateFee 30000 "mpesa".
Proof.
  assert (Hpos : 0 < 12000) by reflexivity.
  assert (Hle : 12000 <= 30000) by (vm_compute; discriminate).
  assert (Htier : feeTier 12000 "mpesa" = feeTier 30000 "mpesa") by reflexivity.
  destruct (calculateFee_nonneg_monotone_within_tier 12000 "mpesa" Hpos
              (or_introl eq_refl)) as [Hnonneg Hmono].
  exact (conj Hpos (conj Hle (conj Htier (conj Hnonneg (Hmono 30000 Hle Htier))))).
Defined.

(** ** Traces *)

Lemma fetches_app (s t : list Event) : fetches (s ++ t) = (fetches s ++ fetches t)%list.
Proof.
  induction s as [|e s IH]; [reflexivity|].
  destruct e; simpl; now rewrite IH.
Qed.

Lemma sleeps_app (s t : list Event) : sleeps (s ++ t) = (sleeps s ++ sleeps t)%list.
Proof.
  induction s as [|e s IH]; [reflexivity|].
  destruct e; simpl; now rewrite IH.
Qed.

Lemma recipientAttempts_app (s t : list Event) :
  recipientAttempts (s ++ t) = (recipientAttempts s ++ recipientAttempts t)%list.
Proof.
  induction s as [|e s IH]; [reflexivity|].
  destruct e as [r|d|l line]; simpl; try exact IH.
  destruct l; try exact IH.
  destruct line as [|[x|q|q] [|[y|q'|q'] [|f line]]]; try exact IH.
  destruct (String.eqb x "Creating recipient with phone:"); simpl; now rewrite IH.
Qed.

(** ** The retry executor *)

Section Retry.

Variable env : Env.
Variable req : HttpRequest.
Variable maxRetries : nat.
Variable initialDelay : Q.

Local Abbreviation fn := (fetchWithTimeout env req).

Lemma fetch_responded (w : World) (r : HttpResponse) :
  fetch_outcome env (fetch_count w) = Responded r ->
  fn w = (Val r, count_fetch (emit (EFetch req) w)).
Proof. intros H. unfold fn, fetchWithTimeout. now rewrite H. Qed.

Lemma fetch_thrown (w : World) (e : Thrown) :
  thrown_by (fetch_outcome env (fetch_count w)) = Some e ->
  fn w = (Throw e, count_fetch (emit (EFetch req) w)).
Proof.
  intros H. unfold fn, fetchWithTimeout.
  destruct (fetch_outcome env (fetch_count w)); simpl in H; congruence.
Qed.

(** One turn of the loop. *)
Lemma retry_from_step (remaining i : nat) (lastError : Thrown) (w : World) :
  retry_from fn maxRetries initialDelay (S remaining) i lastError w =
  match fn w with
  | (Throw e, w') =>
      retry_from fn maxRetries initialDelay remaining (S i) e
        (if (i <? maxRetries - 1)%nat then paused maxRetries initialDelay i w' else w')
  | r => r
  end.
Proof.
  simpl. unfold try_catch. destruct (fn w) as [[a|r|e] w']; try reflexivity.
  unfold bind, when. destruct (i <? maxRetries - 1)%nat; reflexivity.
Qed.

(** From iteration [i], a reply at the [j]-th further attempt after
    [j] failures. *)
Lemma retry_from_success (j : nat) :
  forall (remaining i : nat) (lastError : Thrown) (w : World) (r : HttpResponse),
  (i + remaining = maxRetries)%nat -> (j < remaining)%nat ->
  (forall k, (k < j)%nat -> thrown_by (fetch_outcome env (fetch_count w + k)) <> None) ->
  fetch_outcome env (fetch_count w + j) = Responded r ->
  exists w',
    retry_from fn maxRetries initialDelay remaining i lastError w = (Val r, w') /\
    fetch_count w' = (fetch_count w + S j)%nat /\
    fetches (trace w') = (fetches (trace w) ++ repeat req (S j))%list /\
    sleeps (trace w') = (sleeps (trace w) ++ backoff initialDelay i j)%list /\
    recipientAttempts (trace w') = recipientAttempts (trace w).
Proof.
  induction j as [|j IH]; intros remaining i lastError w r Hsum Hlt Hfail Hok;
    (destruct remaining as [|remaining]; [lia|]); rewrite retry_from_step.
  - rewrite Nat.add_0_r in Hok. rewrite (fetch_responded _ _ Hok).
    eexists. repeat split; simpl.
    + lia.
    + now rewrite fetches_app.
    + now rewrite sleeps_app, !app_nil_r.
    + rewrite recipientAttempts_app. apply app_nil_r.
  - destruct (thrown_by (fetch_outcome env (fetch_count w))) as [e|] eqn:He.
    2:{ exfalso. apply (Hfail 0%nat); [lia|]. now rewrite Nat.add_0_r. }
    rewrite (fetch_thrown _ _ He).
    replace (i <? maxRetries - 1)%nat with true by (symmetry; apply Nat.ltb_lt; lia).
    set (w1 := paused maxRetries initialDelay i (count_fetch (emit (EFetch req) w))).
    destruct (IH remaining (S i) e w1 r)
      as (w' & Hrun & Hcount & Hfetches & Hsleeps & Hattempts).
    + lia.
    + lia.
    + intros k Hk. replace (fetch_count w1 + k)%nat with (fetch_count w + S k)%nat
        by (simpl; lia). apply Hfail. lia.
    + replace (fetch_count w1 + j)%nat with (fetch_count w + S j)%nat by (simpl; lia).
      exact Hok.
    + exists w'. split; [exact Hrun|]. split; [rewrite Hcount; simpl; lia|].
      split; [|split].
      * rewrite Hfetches. simpl. rewrite !fetches_app. simpl.
        rewrite !app_nil_r, <- app_assoc. reflexivity.
      * rewrite Hsleeps. simpl. rewrite !sleeps_app. simpl.
        rewrite !app_nil_r, <- app_assoc. reflexivity.
      * rewrite Hattempts. simpl. rewrite !recipientAttempts_app. simpl.
        now rewrite !app_nil_r.
Qed.

(** From iteration [i], [remaining] attempts that all fail. *)
Lemma retry_from_exhausted (remaining : nat) :
  forall (i : nat) (lastError : Thrown) (w : World) (e : Thrown),
  (i + remaining = maxRetries)%nat -> (0 < remaining)%nat ->
  (forall k, (k < remaining)%nat ->
             thrown_by (fetch_outcome env (fetch_count w + k)) <> None) ->
  thrown_by (fetch_outcome env (fetch_count w + (remaining - 1))) = Some e ->
  exists w',
    retry_from fn maxRetries initialDelay remaining i lastError w = (Throw e, w') /\
    fetch_count w' = (fetch_count w + remaining)%nat /\
    fetches (trace w') = (fetches (trace w) ++ repeat req remaining)%list /\
    sleeps (trace w') = (sleeps (trace w) ++ backoff initialDelay i (remaining - 1))%list /\
    recipientAttempts (trace w') = recipientAttempts (trace w).
Proof.
  induction remaining as [|remaining IH]; intros i lastError w e Hsum Hpos Hfail Hlast; [lia|].
  rewrite retry_from_step.
  destruct (thrown_by (fetch_outcome env (fetch_count w))) as [e0|] eqn:He0.
  2:{ exfalso. apply (Hfail 0%nat); [lia|]. now rewrite Nat.add_0_r. }
  rewrite (fetch_thrown _ _ He0).
  destruct remaining as [|remaining].
  - simpl in Hlast. rewrite Nat.add_0_r in Hlast.
    assert (e0 = e) by congruence. subst e0.
    replace (i <? maxRetries - 1)%nat with false by (symmetry; apply Nat.ltb_ge; lia).
    eexists. split; [reflexivity|]. repeat split; simpl.
    + lia.
    + now rewrite fetches_app.
    + now rewrite sleeps_app, !app_nil_r.
    + rewrite recipientAttempts_app. apply app_nil_r.
  - replace (i <? maxRetries - 1)%nat with true by (symmetry; apply Nat.ltb_lt; lia).
    set (w1 := paused maxRetries initialDelay i (count_fetch (emit (EFetch req) w))).
    destruct (IH (S i) e0 w1 e) as (w' & Hrun & Hcount & Hfetches & Hsleeps & Hattempts).
    + lia.
    + lia.
    + intros k Hk. replace (fetch_count w1 + k)%nat with (fetch_count w + S k)%nat
        by (simpl; lia). apply Hfail. lia.
    + replace (fetch_count w1 + (S remaining - 1))%nat
        with (fetch_count w + (S (S remaining) - 1))%nat by (simpl; lia).
      exact Hlast.
    + exists w'. split; [exact Hrun|]. split; [rewrite Hcount; simpl; lia|].
      split; [|split].
      * rewrite Hfetches. simpl. rewrite !fetches_app. simpl.
        rewrite !app_nil_r, <- app_assoc. reflexivity.
      * rewrite Hsleeps. simpl. rewrite !sleeps_app. simpl.
        rewrite !app_nil_r, <- app_assoc.
        replace (remaining - 0)%nat with remaining by lia. reflexivity.
      * rewrite Hattempts. simpl. rewrite !recipientAttempts_app. simpl.
        now rewrite !app_nil_r.
Qed.

(** C6, as the code has it. With [maxRetries] attempts allowed:
    a reply at attempt [j < maxRetries] after [j] failed attempts is
    returned, after exactly [j + 1] attempts and the pauses
    [initialDelay * 2^i] following each failed attempt [i < j]; and
    when all [maxRetries >= 1] attempts fail, the error of the last one
    is thrown after exactly [maxRetries] attempts, with a pause
    [initialDelay * 2^i] after each failed attempt but the last. The
    pause [initialDelay * 2^i] thus comes before attempt [i + 1]; no
    pause comes before attempt [0]. *)
Theorem retryWithBackoff_attempts_and_pauses (w : World) :
  (forall (j : nat) (r : HttpResponse),
     (j < maxRetries)%nat ->
     (forall k, (k < j)%nat -> thrown_by (fetch_outcome env (fetch_count w + k)) <> None) ->
     fetch_outcome env (fetch_count w + j) = Responded r ->
     exists w',
       retryWithBackoff fn maxRetries initialDelay w = (Val r, w') /\
       fetches (trace w') = (fetches (trace w) ++ repeat req (S j))%list /\
       sleeps (trace w') = (sleeps (trace w) ++ backoff initialDelay 0 j)%list) /\
  (forall e : Thrown,
     (0 < maxRetries)%nat ->
     (forall k, (k < maxRetries)%nat ->
                thrown_by (fetch_outcome env (fetch_count w + k)) <> None) ->
     thrown_by (fetch_outcome env (fetch_count w + (maxRetries - 1))) = Some e ->
     exists w',
       retryWithBackoff fn maxRetries initialDelay w = (Throw e, w') /\
       fetches (trace w') = (fetches (trace w) ++ repeat req maxRetries)%list /\
       sleeps (trace w') = (sleeps (trace w) ++ backoff initialDelay 0 (maxRetries - 1))%list).
Proof.
  split.
  - intros j r Hj Hfail Hok.
    destruct (retry_from_success j maxRetries 0 NotAnError w r)
      as (w' & H1 & _ & H2 & H3 & _); try assumption; try lia.
    exists w'. auto.
  - intros e Hpos Hfail Hlast.
    destruct (retry_from_exhausted maxRetries 0 NotAnError w e)
      as (w' & H1 & _ & H2 & H3 & _); try assumption; try lia.
    exists w'. auto.
Qed.

End Retry.

Lemma retryWithBackoff_attempts_and_pauses_witness :
  exists w',
    retryWithBackoff
      (fetchWithTimeout (Scenario.environment [Aborted; Aborted] (Scenario.fine DAbsent) [])
         (balanceRequest "sk_test")) 3 1000 (Scenario.start [])
    = (Val {| resp_status := 200;
              resp_json := Some {| j_status := true; j_message := None;
                                   j_code := None; j_data := DAbsent |} |}, w') /\
    fetches (trace w') = repeat (balanceRequest "sk_test") 3 /\
    sleeps (trace w') = backoff 1000 0 2.
Proof.
  destruct (retryWithBackoff_attempts_and_pauses
              (Scenario.environment [Aborted; Aborted] (Scenario.fine DAbsent) [])
              (balanceRequest "sk_test") 3 1000 (Scenario.start [])) as [Hreply _].
  apply (Hreply 2%nat).
  - lia.
  - intros k Hk. destruct k as [|[|k]]; [discriminate | discriminate | lia].
  - reflexivity.
Defined.

(** C6 as worded fails: with one timeout before a reply, the only
    pause is the one before attempt 1 and it lasts [initialDelay]
    (1000 ms), not [initialDelay * 2^1]; nothing precedes attempt 0.
    And with no attempt allowed there is no last error: what is thrown
    is not an error. *)
Lemma retry_pause_follows_failed_attempt :
  trace (snd (retryWithBackoff
                (fetchWithTimeout (Scenario.environment [Aborted] (Scenario.fine DAbsent) [])
                   (balanceRequest "sk_test")) 3 1000 (Scenario.start [])))
  = [EFetch (balanceRequest "sk_test");
     EConsole Log [FStr "Retry "; FNum 1; FStr "/"; FNum 3; FStr " after "; FNum 1000;
                   FStr "ms"];
     ESleep 1000;
     EFetch (balanceRequest "sk_test")] /\
  ~ 1000 == 1000 * JS.pow2 1 /\
  retryWithBackoff
    (fetchWithTimeout (Scenario.environment [Aborted] (Scenario.fine DAbsent) [])
       (balanceRequest "sk_test")) 0 1000 (Scenario.start [])
  = (Throw NotAnError, Scenario.start []).
Proof.
  split; [vm_compute; reflexivity|]. split; [vm_compute; discriminate | reflexivity].
Qed.

(** ** Running a handler step by step *)

Lemma bind_val {A B} (m : M A) (f : A -> M B) (w w' : World) (a : A) :
  m w = (Val a, w') -> bind m f w = f a w'.
Proof. intros H. unfold bind. now rewrite H. Qed.

Lemma bind_ret {A B} (m : M A) (f : A -> M B) (w w' : World) (r : Response) :
  m w = (Ret r, w') -> bind m f w = (Ret r, w').
Proof. intros H. unfold bind. now rewrite H. Qed.

Lemma bind_throw {A B} (m : M A) (f : A -> M B) (w w' : World) (e : Thrown) :
  m w = (Throw e, w') -> bind m f w = (Throw e, w').
Proof. intros H. unfold bind. now rewrite H. Qed.




Lemma bind_val_inv {A B} (m : M A) (f : A -> M B) (w w' : World) (b : B) :
  bind m f w = (Val b, w') ->
  exists a w1, m w = (Val a, w1) /\ f a w1 = (Val b, w').
Proof.
  unfold bind. destruct (m w) as [[a|r|e] w1]; intros H; try discriminate H.
  exists a, w1. split; [reflexivity | exact H].
Qed.

Lemma try_catch_val_inv {A} (m : M A) (h : Thrown -> M A) (w w' : World) (a : A) :
  try_catch m h w = (Val a, w') ->
  m w = (Val a, w') \/ exists e w1, m w = (Throw e, w1) /\ h e w1 = (Val a, w').
Proof.
  unfold try_catch. destruct (m w) as [[a0|r|e] w1]; intros H; try discriminate H.
  - left. exact H.
  - right. exists e, w1. split; [reflexivity | exact H].
Qed.

(** A value returned by the retry is the value of one attempt. *)
Lemma retry_from_val_inv {T} (fn : M T) (maxRetries : nat) (initialDelay : Q)
  (remaining : nat) :
  forall (i : nat) (lastError : Thrown) (w w' : World) (r : T),
  retry_from fn maxRetries initialDelay remaining i lastError w = (Val r, w') ->
  exists w0, fn w0 = (Val r, w').
Proof.
  induction remaining as [|remaining IH]; intros i lastError w w' r H; simpl in H.
  - discriminate H.
  - apply try_catch_val_inv in H as [H | (e & w1 & _ & H)].
    + exists w. exact H.
    + apply bind_val_inv in H as (_ & w2 & _ & H). eapply IH. exact H.
Qed.

(** ** Invariants of the handlers *)

Section Invariants.

Variable R : World -> World -> Prop.
Variable ok : Event -> Prop.

Hypothesis R_refl : forall w, R w w.
Hypothesis R_trans : forall w1 w2 w3, R w1 w2 -> R w2 w3 -> R w1 w3.
Hypothesis R_emit : forall w e, ok e -> R w (emit e w).
Hypothesis R_count_fetch : forall w, R w (count_fetch w).
Hypothesis R_count_db : forall w, R w (count_db w).
Hypothesis ok_console : forall l t, ok (EConsole l t).
Hypothesis ok_sleep : forall d, ok (ESleep d).

Lemma keeps_ret {A} (a : A) : Keeps R (ret a).
Proof. intros w. apply R_refl. Qed.

Lemma keeps_respond {A} (r : Response) : Keeps R (@respond A r).
Proof. intros w. apply R_refl. Qed.

Lemma keeps_throw {A} (e : Thrown) : Keeps R (@throw A e).
Proof. intros w. apply R_refl. Qed.

Lemma keeps_bind {A B} (m : M A) (f : A -> M B) :
  Keeps R m -> (forall a, Keeps R (f a)) -> Keeps R (bind m f).
Proof.
  intros Hm Hf w. unfold bind. specialize (Hm w).
  destruct (m w) as [[a|r|e] w1]; simpl in *; try assumption.
  eapply R_trans; [exact Hm | apply Hf].
Qed.

Lemma keeps_try_catch {A} (m : M A) (h : Thrown -> M A) :
  Keeps R m -> (forall e, Keeps R (h e)) -> Keeps R (try_catch m h).
Proof.
  intros Hm Hh w. unfold try_catch. specialize (Hm w).
  destruct (m w) as [[a|r|e] w1]; simpl in *; try assumption.
  eapply R_trans; [exact Hm | apply Hh].
Qed.

Lemma keeps_when (b : bool) (m : M unit) : Keeps R m -> Keeps R (when b m).
Proof. intros Hm. destruct b; [exact Hm | apply keeps_ret]. Qed.

Lemma keeps_console (l : Level) (t : Text) : Keeps R (console l t).
Proof. intros w. apply R_emit, ok_console. Qed.

Lemma keeps_sleep (d : Q) : Keeps R (sleep d).
Proof. intros w. apply R_emit, ok_sleep. Qed.

(** A request that may depend on the world it is issued in. *)
Lemma keeps_fetch (env : Env) (mk : World -> HttpRequest) :
  (forall w, ok (EFetch (mk w))) ->
  Keeps R (fun w => fetchWithTimeout env (mk w) w).
Proof.
  intros Hok w. unfold fetchWithTimeout.
  assert (H : R w (count_fetch (emit (EFetch (mk w)) w))).
  { eapply R_trans; [apply R_emit, Hok | apply R_count_fetch]. }
  destruct (fetch_outcome env (fetch_count w)); exact H.
Qed.

Lemma keeps_fetchWithTimeout (env : Env) (req : HttpRequest) :
  ok (EFetch req) -> Keeps R (fetchWithTimeout env req).
Proof. intros Hok. apply (keeps_fetch env (fun _ => req)). intros _. exact Hok. Qed.

Lemma keeps_retry_from {T} (fn : M T) (maxRetries : nat) (initialDelay : Q) :
  Keeps R fn ->
  forall remaining i lastError,
    Keeps R (retry_from fn maxRetries initialDelay remaining i lastError).
Proof.
  intros Hfn. induction remaining as [|remaining IH]; intros i lastError; simpl.
  - apply keeps_throw.
  - apply keeps_try_catch; [exact Hfn|]. intros e.
    apply keeps_bind; [|intros _; apply IH].
    apply keeps_when, keeps_bind; [apply keeps_console | intros _; apply keeps_sleep].
Qed.

Lemma keeps_retryDefault {T} (fn : M T) : Keeps R fn -> Keeps R (retryDefault fn).
Proof. intros Hfn. apply keeps_retry_from. exact Hfn. Qed.

Lemma keeps_select_balance (env : Env) (uid : string) : Keeps R (select_balance env uid).
Proof.
  intros w. unfold select_balance.
  destruct (db_fault env (db_count w)); [apply R_count_db|].
  destruct (user_central_wallets w !! uid); apply R_count_db.
Qed.

Lemma keeps_json (r : HttpResponse) : Keeps R (json r).
Proof. unfold json. destruct (resp_json r); [apply keeps_ret | apply keeps_throw]. Qed.

(** The world after a step is related to the world after the steps
    that follow it. *)
Lemma after_bind {A B} (m : M A) (f : A -> M B) (w : World) :
  (forall a, Keeps R (f a)) -> R (snd (m w)) (snd (bind m f w)).
Proof.
  intros Hf. unfold bind. destruct (m w) as [[a|r|e] w1]; simpl; try apply R_refl.
  apply Hf.
Qed.

Lemma after_try {A} (m : M A) (h : Thrown -> M A) (w : World) :
  (forall e, Keeps R (h e)) -> R (snd (m w)) (snd (try_catch m h w)).
Proof.
  intros Hh. unfold try_catch. destruct (m w) as [[a|r|e] w1]; simpl; try apply R_refl.
  apply Hh.
Qed.

Lemma after_first_attempt {T} (fn : M T) (w : World) :
  Keeps R fn -> R (snd (fn w)) (snd (retryDefault fn w)).
Proof.
  intros Hfn. unfold retryDefault, retryWithBackoff. simpl. unfold try_catch.
  destruct (fn w) as [[a|r|e] w1]; simpl; try apply R_refl.
  apply (keeps_bind _ (fun _ => retry_from fn 3 1000 2 1 e)).
  - apply keeps_bind; [apply keeps_console | intros _; apply keeps_sleep].
  - intros _. apply keeps_retry_from. exact Hfn.
Qed.

(** *** The steps of the withdrawal *)

Hypothesis ok_other : forall r, transfer_amount r = None -> ok (EFetch r).

Ltac keeps_step :=
  first
    [ apply keeps_ret | apply keeps_respond | apply keeps_throw
    | apply keeps_console | apply keeps_sleep | apply keeps_json
    | apply keeps_select_balance
    | apply keeps_retryDefault
    | apply keeps_fetchWithTimeout; apply ok_other; reflexivity
    | apply keeps_bind | apply keeps_try_catch | apply keeps_when
    | match goal with
      | |- forall _, _ => intro
      | |- Keeps _ (let _ := _ in _) => cbv zeta
      | |- Keeps _ (match ?x with _ => _ end) => destruct x
      end ].

Ltac keeps := repeat keeps_step.

Variable env : Env.

Lemma keeps_authenticate : Keeps R (authenticate env).
Proof. unfold authenticate. keeps. Qed.

Lemma keeps_parse_body {B} (req : Request B) : Keeps R (parse_body req).
Proof. unfold parse_body. keeps. Qed.

Lemma keeps_validateInput (b : WithdrawBody) : Keeps R (validateInput b).
Proof. unfold validateInput. keeps. Qed.

Lemma keeps_loadWallet (user : User) (a : Q) : Keeps R (loadWallet env user a).
Proof. unfold loadWallet. keeps. Qed.

Lemma keeps_requireSecretKey : Keeps R (requireSecretKey env).
Proof. unfold requireSecretKey. keeps. Qed.

Lemma keeps_checkNetAmount (a : Q) (pm : string) : Keeps R (checkNetAmount a pm).
Proof. unfold checkNetAmount. keeps. Qed.

Lemma keeps_preflight (req : Request WithdrawBody) : Keeps R (preflight env req).
Proof.
  unfold preflight.
  repeat first
    [ apply keeps_authenticate | apply keeps_parse_body | apply keeps_validateInput
    | apply keeps_loadWallet | apply keeps_requireSecretKey | apply keeps_checkNetAmount
    | keeps_step ].
Qed.

Lemma keeps_checkPaystackBalance (key : string) (net : Q) :
  Keeps R (checkPaystackBalance env key net).
Proof. unfold checkPaystackBalance. keeps. Qed.

Lemma keeps_fetchBanks (key : string) : Keeps R (fetchBanks env key).
Proof. unfold fetchBanks. keeps. Qed.

Lemma keeps_findProvider (pm : string) (j : Json) : Keeps R (findProvider pm j).
Proof. unfold findProvider. keeps. Qed.

Lemma keeps_createRecipientWithPhone (key : string) (user : User) (pm : string)
  (provider : Bank) (phone : string) :
  Keeps R (createRecipientWithPhone env key user pm provider phone).
Proof. unfold createRecipientWithPhone. keeps. Qed.

Lemma keeps_createMobileRecipient (key : string) (user : User) (pm : string)
  (provider : Bank) (d : DestinationDetails) :
  Keeps R (createMobileRecipient env key user pm provider d).
Proof.
  unfold createMobileRecipient.
  repeat first [ apply keeps_createRecipientWithPhone | keeps_step ].
Qed.

Lemma keeps_resolveBankRecipient (key : string) (d : DestinationDetails) :
  Keeps R (resolveBankRecipient env key d).
Proof. unfold resolveBankRecipient. keeps. Qed.

Lemma keeps_resolveRecipient (key : string) (user : User) (pm : string)
  (d : DestinationDetails) :
  Keeps R (resolveRecipient env key user pm d).
Proof.
  unfold resolveRecipient, resolveMobileRecipient.
  repeat first
    [ apply keeps_fetchBanks | apply keeps_findProvider | apply keeps_createMobileRecipient
    | apply keeps_resolveBankRecipient | keeps_step ].
Qed.

Lemma keeps_initiateTransfer (key : string) (user : User) (pm : string) (net : Q)
  (rc : option string) :
  (forall now, ok (EFetch (transferRequest key user pm net rc now))) ->
  Keeps R (initiateTransfer env key user pm net rc).
Proof.
  intros Hok. unfold initiateTransfer.
  repeat first
    [ apply (keeps_fetch env (fun w => transferRequest key user pm net rc
                                         (date_now env (fetch_count w))));
      intros w; apply Hok
    | keeps_step ].
Qed.

Lemma keeps_payoutAfterCheck (c : Checked) :
  (forall rc now,
     ok (EFetch (transferRequest (c_key c) (c_user c) (c_paymentMethod c)
                   (c_netAmount c) rc now))) ->
  Keeps R (payoutAfterCheck env c).
Proof.
  intros Hok. unfold payoutAfterCheck.
  repeat first
    [ apply keeps_resolveRecipient
    | apply keeps_initiateTransfer; intros now; apply Hok | keeps_step ].
Qed.

Lemma keeps_payout (c : Checked) :
  (forall rc now,
     ok (EFetch (transferRequest (c_key c) (c_user c) (c_paymentMethod c)
                   (c_netAmount c) rc now))) ->
  Keeps R (payout env c).
Proof.
  intros Hok. unfold payout.
  repeat first
    [ apply keeps_checkPaystackBalance
    | apply keeps_payoutAfterCheck; exact Hok | keeps_step ].
Qed.

(** The balance check starts with its request; what follows only
    adds to it. *)
Lemma check_after_first_fetch (key : string) (net : Q) (w : World) :
  R (count_fetch (emit (EFetch (balanceRequest key))
                    (emit (EConsole Log [FStr "Checking Paystack balance..."]) w)))
    (snd (checkPaystackBalance env key net w)).
Proof.
  set (w0 := emit (EConsole Log [FStr "Checking Paystack balance..."]) w).
  assert (Hfn : Keeps R (fetchWithTimeout env (balanceRequest key))).
  { apply keeps_fetchWithTimeout, ok_other. reflexivity. }
  assert (Hfirst : snd (fetchWithTimeout env (balanceRequest key) w0)
                   = count_fetch (emit (EFetch (balanceRequest key)) w0)).
  { unfold fetchWithTimeout. destruct (fetch_outcome env (fetch_count w0)); reflexivity. }
  rewrite <- Hfirst.
  eapply R_trans; [apply (after_first_attempt _ w0 Hfn)|].
  unfold checkPaystackBalance.
  change (bind (console Log [FStr "Checking Paystack balance..."]) ?k w) with (k tt w0).
  cbv beta.
  eapply R_trans; [|apply after_try; keeps].
  apply after_bind. keeps.
Qed.

(** A transfer that returned was answered at some attempt; the rest
    only adds to the world that attempt left. *)
Lemma initiateTransfer_val_after (key : string) (user : User) (pm : string) (net : Q)
  (rc : option string) (w w' : World) (transferData : Json) :
  initiateTransfer env key user pm net rc w = (Val transferData, w') ->
  exists wa,
    R (count_fetch (emit (EFetch (transferRequest key user pm net rc
                                    (date_now env (fetch_count wa)))) wa)) w'.
Proof.
  intros H. unfold initiateTransfer in H.
  apply bind_val_inv in H as ([] & w1 & _ & H).
  apply try_catch_val_inv in H as [H | (e & w2 & _ & H)].
  2:{ apply bind_val_inv in H as ([] & w3 & _ & H). discriminate H. }
  match type of H with
  | bind _ ?k _ = _ => assert (Hk : forall a, Keeps R (k a)) by keeps
  end.
  apply bind_val_inv in H as (resp & w2 & Hretry & H).
  apply retry_from_val_inv in Hretry as (wa & Hfetch).
  exists wa.
  assert (Hw2 : w2 = count_fetch (emit (EFetch (transferRequest key user pm net rc
                                                  (date_now env (fetch_count wa)))) wa)).
  { unfold fetchWithTimeout in Hfetch.
    destruct (fetch_outcome env (fetch_count wa)); try discriminate Hfetch.
    now injection Hfetch as _ <-. }
  rewrite <- Hw2. change w' with (snd (Val transferData, w')).
  rewrite <- H. apply (Hk resp w2).
Qed.

(** *** The ledger steps *)

Hypothesis R_set_wallets : forall w m, R w (set_wallets m w).
Hypothesis R_set_transactions : forall w l, R w (set_transactions l w).

Lemma keeps_update_balance (uid : string) (balance : Q) :
  Keeps R (update_balance env uid balance).
Proof.
  intros w. unfold update_balance.
  destruct (db_fault env (db_count w)); [apply R_count_db|].
  destruct (user_central_wallets w !! uid); simpl; [|apply R_count_db].
  eapply R_trans; [apply R_count_db | apply R_set_wallets].
Qed.

Lemma keeps_insert_transactions (rows : list TransactionRecord) :
  Keeps R (insert_transactions env rows).
Proof.
  intros w. unfold insert_transactions.
  destruct (db_fault env (db_count w)); simpl; [apply R_count_db|].
  eapply R_trans; [apply R_count_db | apply R_set_transactions].
Qed.

Lemma keeps_settle (c : Checked) (transferData : Json) :
  Keeps R (settle env c transferData).
Proof.
  unfold settle, deductFromWallet, recordAndRespond.
  repeat first
    [ apply keeps_update_balance
    | match goal with
      | |- Keeps _ (fun w => bind (insert_transactions _ _) _ w) =>
          intros w; apply (keeps_bind (insert_transactions env _) (fun _ => ret tt));
          [apply keeps_insert_transactions | intros _; apply keeps_ret]
      end
    | keeps_step ].
Qed.

Lemma keeps_withdrawFailed (e : Thrown) : Keeps R (withdrawFailed e).
Proof. unfold withdrawFailed. keeps. Qed.

(** What a handler leaves behind, whichever way it ends. *)
Lemma after_run_handler (m : M Response) (h : Thrown -> M Response) (w : World) :
  (forall e, Keeps R (h e)) -> R (snd (m w)) (snd (run_handler m h w)).
Proof.
  intros Hh. unfold run_handler. destruct (m w) as [[r|r|e] w1]; simpl; try apply R_refl.
  specialize (Hh e w1). destruct (h e w1) as [[r|r|e'] w2]; exact Hh.
Qed.

End Invariants.

(** ** The default retry around one request *)



(** ** The provider-side balance check *)

Section BalanceCheck.

Variable env : Env.
Variable c : Checked.
Variable w : World.

Local Abbreviation b := (balanceRequest (c_key c)).
Local Abbreviation check := (checkPaystackBalance env (c_key c) (c_netAmount c)).

Lemma fetches_console (l : Level) (t : Text) (w0 : World) :
  fetches (trace (emit (EConsole l t) w0)) = fetches (trace w0).
Proof. simpl. rewrite fetches_app. simpl. apply app_nil_r. Qed.




End BalanceCheck.



(** ** The ledger is not touched before the debit *)

Lemma same_store_refl (w : World) : same_store w w.
Proof. split; reflexivity. Qed.

Lemma same_store_trans (w1 w2 w3 : World) :
  same_store w1 w2 -> same_store w2 w3 -> same_store w1 w3.
Proof. intros [H1 H2] [H3 H4]. split; congruence. Qed.

Lemma same_store_emit (w : World) (e : Event) : True -> same_store w (emit e w).
Proof. intros _. split; reflexivity. Qed.

Lemma same_store_count_fetch (w : World) : same_store w (count_fetch w).
Proof. split; reflexivity. Qed.

Lemma same_store_count_db (w : World) : same_store w (count_db w).
Proof. split; reflexivity. Qed.

Create HintDb store.

#[local] Hint Resolve same_store_refl same_store_trans same_store_emit
  same_store_count_fetch same_store_count_db : store.

Lemma preflight_same_store (env : Env) (req : Request WithdrawBody) :
  Keeps same_store (preflight env req).
Proof. apply keeps_preflight with (ok := fun _ => True); eauto with store. Qed.

Lemma payout_same_store (env : Env) (c : Checked) : Keeps same_store (payout env c).
Proof. apply keeps_payout with (ok := fun _ => True); eauto with store. Qed.

(** ** The debit after the transfer *)

Lemma serve_withdraw_runs (env : Env) (req : Request WithdrawBody) (w : World) :
  req_method req <> "OPTIONS" ->
  serve_withdraw env req w = run_handler (withdraw env req) (withdrawFailed) w.
Proof.
  intros H. unfold serve_withdraw. apply String.eqb_neq in H. now rewrite H.
Qed.

Lemma withdraw_settles (env : Env) (req : Request WithdrawBody) (w w0 w1 : World)
  (c : Checked) (transferData : Json) :
  preflight env req w = (Val c, w0) ->
  payout env c w0 = (Val transferData, w1) ->
  withdraw env req w = settle env c transferData w1.
Proof.
  intros Hpre Hpay. unfold withdraw.
  rewrite (bind_val _ _ _ _ _ Hpre). now rewrite (bind_val _ _ _ _ _ Hpay).
Qed.

(** C2, as the code has it. When the provider transfer has gone
    through and the debit of the wallet then fails, the caller gets
    status 500 with the error "Failed to update wallet" and no error
    code; the ledger is as it was before the request (no debit, no
    transaction record), and no further request goes to the provider:
    the transfer is not retried. *)
Theorem debit_failure_after_transfer (env : Env) (req : Request WithdrawBody)
  (w w0 w1 : World) (c : Checked) (transferData : Json) (e : string) :
  req_method req <> "OPTIONS" ->
  preflight env req w = (Val c, w0) ->
  payout env c w0 = (Val transferData, w1) ->
  db_fault env (db_count w1) = Some e ->
  exists w',
    serve_withdraw env req w =
      (json_response 500 [("error", str "Failed to update wallet"); ("success", JBool false)],
       w') /\
    user_central_wallets w' = user_central_wallets w /\
    wallet_transactions w' = wallet_transactions w /\
    fetches (trace w') = fetches (trace w1).
Proof.
  intros Hmethod Hpre Hpay Hfault.
  rewrite (serve_withdraw_runs _ _ _ Hmethod).
  unfold run_handler. rewrite (withdraw_settles _ _ _ _ _ _ _ Hpre Hpay).
  unfold settle, deductFromWallet, bind, update_balance. rewrite Hfault. simpl.
  eexists. split; [reflexivity|]. simpl.
  destruct (preflight_same_store env req w) as [Hw0 Ht0].
  destruct (payout_same_store env c w0) as [Hw1 Ht1].
  rewrite Hpre in Hw0, Ht0. rewrite Hpay in Hw1, Ht1. simpl in *.
  repeat split.
  - congruence.
  - congruence.
  - rewrite fetches_app. simpl. apply app_nil_r.
Qed.

Lemma debit_failure_after_transfer_witness :
  exists w',
    serve_withdraw (Scenario.environment Scenario.smooth Aborted [None; Some "connection lost"])
      (Scenario.withdrawal 1000 "mpesa" (Scenario.toPhone "0712345678"))
      (Scenario.start [("5f0c1d2e-aaaa", 5000)])
    = (json_response 500 [("error", str "Failed to update wallet"); ("success", JBool false)],
       w') /\
    user_central_wallets w' = list_to_map [("5f0c1d2e-aaaa", 5000)] /\
    wallet_transactions w' = [].
Proof.
  edestruct (debit_failure_after_transfer
               (Scenario.environment Scenario.smooth Aborted [None; Some "connection lost"])
               (Scenario.withdrawal 1000 "mpesa" (Scenario.toPhone "0712345678"))
               (Scenario.start [("5f0c1d2e-aaaa", 5000)]))
    as (w' & Hresp & Hwallets & Htx & _).
  - discriminate.
  - vm_compute. reflexivity.
  - vm_compute. reflexivity.
  - reflexivity.
  - exists w'. split; [exact Hresp|]. split; [exact Hwallets | exact Htx].
Defined.

(** C2 as worded fails: the transfer of 985 went through, the debit
    failed, and the caller is told "Failed to update wallet" with
    status 500 and no code, so nothing classifies the failure as
    [ledger_inconsistency]; the wallet still holds 5000. *)
Lemma debit_failure_is_reported_as_plain_failure :
  let run := serve_withdraw
               (Scenario.environment Scenario.smooth Aborted [None; Some "connection lost"])
               (Scenario.withdrawal 1000 "mpesa" (Scenario.toPhone "0712345678"))
               (Scenario.start [("5f0c1d2e-aaaa", 5000)]) in
  fst run = json_response 500
              [("error", str "Failed to update wallet"); ("success", JBool false)] /\
  (forall o, body (fst run) = Some o -> field "code" o = None) /\
  map transfer_amount (fetches (trace (snd run))) = [None; None; None; Some 98500] /\
  user_central_wallets (snd run) !! "5f0c1d2e-aaaa" = Some 5000.
Proof.
  vm_compute. repeat split; try reflexivity.
  intros o Ho. injection Ho as <-. reflexivity.
Qed.

(** ** The trace only grows *)

Section Extends.

Variable P : HttpRequest -> Prop.

Lemma extends_refl (w : World) : extends_with P w w.
Proof. exists []. split; [now rewrite app_nil_r | constructor]. Qed.

Lemma extends_trans (w1 w2 w3 : World) :
  extends_with P w1 w2 -> extends_with P w2 w3 -> extends_with P w1 w3.
Proof.
  intros (t1 & H1 & F1) (t2 & H2 & F2). exists (t1 ++ t2)%list. split.
  - rewrite H2, H1. now rewrite app_assoc.
  - rewrite fetches_app. apply Forall_app. now split.
Qed.

Lemma extends_emit (w : World) (e : Event) :
  fetches_satisfy P e -> extends_with P w (emit e w).
Proof.
  intros H. exists [e]. split; [reflexivity|].
  destruct e; simpl; constructor; [exact H | constructor].
Qed.

Lemma extends_same_trace (w w' : World) : trace w' = trace w -> extends_with P w w'.
Proof. intros H. exists []. split; [now rewrite app_nil_r | constructor]. Qed.

Lemma extends_count_fetch (w : World) : extends_with P w (count_fetch w).
Proof. now apply extends_same_trace. Qed.

Lemma extends_count_db (w : World) : extends_with P w (count_db w).
Proof. now apply extends_same_trace. Qed.

Lemma extends_set_wallets (w : World) (m : gmap string Q) :
  extends_with P w (set_wallets m w).
Proof. now apply extends_same_trace. Qed.

Lemma extends_set_transactions (w : World) (l : list TransactionRecord) :
  extends_with P w (set_transactions l w).
Proof. now apply extends_same_trace. Qed.

Lemma fetches_satisfy_console (l : Level) (t : Text) : fetches_satisfy P (EConsole l t).
Proof. exact I. Qed.

Lemma fetches_satisfy_sleep (d : Q) : fetches_satisfy P (ESleep d).
Proof. exact I. Qed.

End Extends.

Create HintDb grows.

#[local] Hint Resolve extends_refl extends_trans extends_emit extends_count_fetch
  extends_count_db extends_set_wallets extends_set_transactions
  fetches_satisfy_console fetches_satisfy_sleep : grows.

(** ** The local checks *)

Lemma preflight_reaches_fee_check (env : Env) (req : Request WithdrawBody) (w : World)
  (user : User) (b : WithdrawBody) (a : Q) (d : DestinationDetails) (bal : Q)
  (key : string) :
  auth_user env = Some user ->
  req_json req = inr b ->
  amount b = Some a -> 0 < a ->
  destinationDetails b = Some d ->
  destinationComplete (paymentMethod b) d = true ->
  db_fault env (db_count w) = None ->
  user_central_wallets w !! id user = Some bal -> a <= bal ->
  PAYSTACK_SECRET_KEY env = Some key -> key <> "" ->
  preflight env req w =
    bind (checkNetAmount a (paymentMethod b))
      (fun net => ret {| c_user := user; c_paymentMethod := paymentMethod b;
                         c_destination := d; c_amount := a; c_balance := bal;
                         c_key := key; c_fee := fst net; c_netAmount := snd net |})
      (count_db (emit (EConsole Log [FStr "Withdrawal request:"]) w)).
Proof.
  intros Hauth Hjson Ha Hpos Hd Hcomplete Hdb Hwallet Hbal Hkey Hkey'.
  unfold preflight, authenticate, parse_body. rewrite Hauth, Hjson.
  set (w1 := emit (EConsole Log [FStr "Withdrawal request:"]) w).
  change (bind (ret user) ?k w) with (k user w). cbv beta.
  change (bind (ret b) ?k w) with (k b w). cbv beta.
  change (bind (console Log [FStr "Withdrawal request:"]) ?k w) with (k tt w1). cbv beta.
  assert (Hvalid : validateInput b w1 = (Val (a, d), w1)).
  { unfold validateInput. rewrite Ha, Hd.
    replace (JS.Qleb a 0) with false by (symmetry; apply Qleb_false; exact Hpos).
    unfold destinationComplete in Hcomplete.
    destruct (String.eqb (paymentMethod b) "bank").
    - apply andb_true_iff in Hcomplete as [Hc Hc3].
      apply andb_true_iff in Hc as [Hc1 Hc2].
      rewrite Hc1, Hc2, Hc3. reflexivity.
    - rewrite Hcomplete. reflexivity. }
  rewrite (bind_val _ _ _ _ _ Hvalid). cbv zeta. simpl fst. simpl snd.
  assert (Hload : loadWallet env user a w1 = (Val bal, count_db w1)).
  { unfold loadWallet, bind, select_balance. simpl db_count. rewrite Hdb.
    simpl user_central_wallets. rewrite Hwallet. simpl.
    replace (JS.Qltb bal a) with false by (symmetry; apply Qltb_false; exact Hbal).
    reflexivity. }
  rewrite (bind_val _ _ _ _ _ Hload).
  assert (Hsecret : requireSecretKey env (count_db w1) = (Val key, count_db w1)).
  { unfold requireSecretKey. rewrite Hkey. apply String.eqb_neq in Hkey'.
    rewrite Hkey'. reflexivity. }
  rewrite (bind_val _ _ _ _ _ Hsecret). reflexivity.
Qed.

(** ** The fee check comes before every provider request *)

Section FeeCheck.

Variable env : Env.

Local Abbreviation grows := (extends_with (fun _ => True)).
Local Abbreviation any := (fetches_satisfy (fun _ => True)).

Lemma any_fetch (r : HttpRequest) : any (EFetch r).
Proof. exact I. Qed.

Lemma grows_after_balance_request (c : Checked) (w : World) :
  grows (count_fetch (emit (EFetch (balanceRequest (c_key c)))
                        (emit (EConsole Log [FStr "Checking Paystack balance..."]) w)))
        (snd (run_handler (bind (payout env c) (settle env c)) withdrawFailed w)).
Proof.
  eapply extends_trans.
  { apply check_after_first_fetch
      with (R := grows) (ok := any) (env := env) (key := c_key c) (net := c_netAmount c) (w := w);
      eauto using any_fetch with grows. }
  eapply extends_trans.
  { apply (after_bind grows (extends_refl _) (checkPaystackBalance env (c_key c) (c_netAmount c))
             (fun _ => payoutAfterCheck env c) w).
    intros _. apply keeps_payoutAfterCheck with (R := grows) (ok := any);
      eauto using any_fetch with grows. }
  eapply extends_trans.
  { apply (after_bind grows (extends_refl _) (payout env c) (settle env c) w).
    intros td. apply keeps_settle with (R := grows) (ok := any);
      eauto using any_fetch with grows. }
  apply after_run_handler; [apply extends_refl|].
  intros e. apply keeps_withdrawFailed with (R := grows) (ok := any); eauto with grows.
Qed.

(** C5, as the code has it. For a request with amount [a > 0] whose
    destination is complete, whose wallet is found with a balance of
    at least [a], and with the provider key configured: the request is
    rejected with [amount_too_low] and status 400 before any provider
    request exactly when [fee(a) >= a]; the rejection names the fee
    and [fee + 1] as the minimum, and leaves the ledger as it was;
    otherwise the request goes on to the provider, starting with the
    balance request. *)
Theorem amount_too_low_iff_fee_consumes_amount (req : Request WithdrawBody) (w : World)
  (user : User) (b : WithdrawBody) (a : Q) (d : DestinationDetails) (bal : Q)
  (key : string) :
  req_method req <> "OPTIONS" ->
  auth_user env = Some user ->
  req_json req = inr b ->
  amount b = Some a -> 0 < a ->
  destinationDetails b = Some d ->
  destinationComplete (paymentMethod b) d = true ->
  db_fault env (db_count w) = None ->
  user_central_wallets w !! id user = Some bal -> a <= bal ->
  PAYSTACK_SECRET_KEY env = Some key -> key <> "" ->
  let fee := calculateFee a (paymentMethod b) in
  let run := serve_withdraw env req w in
  (a <= fee <->
   fst run = amountTooLow fee /\ fetches (trace (snd run)) = fetches (trace w)) /\
  (a <= fee -> same_store w (snd run)) /\
  (fee < a ->
   exists rest, fetches (trace (snd run)) = (fetches (trace w) ++ balanceRequest key :: rest)%list).
Proof.
  intros Hmethod Hauth Hjson Ha Hpos Hd Hcomplete Hdb Hwallet Hbal Hkey Hkey' fee run.
  pose proof (preflight_reaches_fee_check env req w user b a d bal key
                Hauth Hjson Ha Hpos Hd Hcomplete Hdb Hwallet Hbal Hkey Hkey') as Hpre.
  set (w1 := count_db (emit (EConsole Log [FStr "Withdrawal request:"]) w)) in Hpre.
  assert (Hlow : a <= fee ->
                 run = (amountTooLow fee, w1)).
  { intros Hle. unfold run. rewrite (serve_withdraw_runs _ _ _ Hmethod).
    unfold run_handler, withdraw.
    assert (Hret : preflight env req w = (Ret (amountTooLow fee), w1)).
    { rewrite Hpre. unfold checkNetAmount, bind. fold fee.
      replace (JS.Qleb (a - fee) 0) with true by (symmetry; apply Qleb_true; lra).
      reflexivity. }
    now rewrite (bind_ret _ _ _ _ _ Hret). }
  assert (Hhigh : fee < a ->
                  exists rest, fetches (trace (snd run))
                               = (fetches (trace w) ++ balanceRequest key :: rest)%list).
  { intros Hlt. unfold run. rewrite (serve_withdraw_runs _ _ _ Hmethod).
    set (c := {| c_user := user; c_paymentMethod := paymentMethod b; c_destination := d;
                 c_amount := a; c_balance := bal; c_key := key;
                 c_fee := fee; c_netAmount := a - fee |}).
    set (w0 := emit (EConsole Log [FStr "Starting Paystack transfer:"]) w1).
    assert (Hval : preflight env req w = (Val c, w0)).
    { rewrite Hpre. unfold checkNetAmount, bind. fold fee.
      replace (JS.Qleb (a - fee) 0) with false by (symmetry; apply Qleb_false; lra).
      reflexivity. }
    unfold withdraw.
    assert (Hrun : forall h, run_handler (bind (preflight env req)
                               (fun c => bind (payout env c) (settle env c))) h w
                             = run_handler (bind (payout env c) (settle env c)) h w0).
    { intros h. unfold run_handler. now rewrite (bind_val _ _ _ _ _ Hval). }
    rewrite Hrun.
    destruct (grows_after_balance_request c w0) as (t & Ht & _).
    exists (fetches t). rewrite Ht. simpl. rewrite !fetches_app. simpl.
    rewrite !app_nil_r, <- !app_assoc. reflexivity. }
  split; [split|split].
  - intros Hle. rewrite (Hlow Hle). split; [reflexivity|].
    simpl. rewrite fetches_app. apply app_nil_r.
  - intros [_ Hsame]. destruct (Qlt_le_dec fee a) as [Hlt|Hle]; [|exact Hle].
    destruct (Hhigh Hlt) as (rest & Hrest). rewrite Hrest in Hsame.
    apply (f_equal (@length _)) in Hsame. rewrite length_app in Hsame. simpl in Hsame. lia.
  - intros Hle. rewrite (Hlow Hle). split; reflexivity.
  - exact Hhigh.
Qed.

End FeeCheck.

Lemma amount_too_low_iff_fee_consumes_amount_witness :
  20 <= calculateFee 20 "bank" /\
  fst (serve_withdraw (Scenario.environment [] Aborted [])
         (Scenario.withdrawal 20 "bank" Scenario.toBank)
         (Scenario.start [("5f0c1d2e-aaaa", 100)]))
  = amountTooLow (calculateFee 20 "bank") /\
  fetches (trace (snd (serve_withdraw (Scenario.environment [] Aborted [])
                         (Scenario.withdrawal 20 "bank" Scenario.toBank)
                         (Scenario.start [("5f0c1d2e-aaaa", 100)])))) = [].
Proof.
  assert (Hfee : 20 <= calculateFee 20 "bank") by (vm_compute; discriminate).
  split; [exact Hfee|].
  refine (proj1 (proj1 (amount_too_low_iff_fee_consumes_amount
            (Scenario.environment [] Aborted [])
            (Scenario.withdrawal 20 "bank" Scenario.toBank)
            (Scenario.start [("5f0c1d2e-aaaa", 100)])
            Scenario.alice
            {| amount := Some 20; paymentMethod := "bank";
               destinationDetails := Some Scenario.toBank |}
            20 Scenario.toBank 100 "sk_test"
            _ eq_refl eq_refl eq_refl eq_refl eq_refl eq_refl eq_refl eq_refl _ eq_refl _))
          Hfee).
  - discriminate.
  - vm_compute. discriminate.
  - discriminate.
Defined.

(** C5 as worded fails: a bank withdrawal of 20 has fee 25, yet with
    a wallet of 10 the request is rejected for insufficient balance,
    without the code [amount_too_low]: the local balance check comes
    first. So do the other local checks: with a wallet of 100 the same
    request is answered "Wallet not found" when the wallet cannot be
    read, "Payment service not configured" when the provider key is
    missing, and "Bank account details incomplete" when the account
    name is missing. *)
Lemma low_amount_meets_balance_check_first :
  0 < 20 /\ 20 <= calculateFee 20 "bank" /\
  fst (serve_withdraw (Scenario.environment [] Aborted [])
         (Scenario.withdrawal 20 "bank" Scenario.toBank)
         (Scenario.start [("5f0c1d2e-aaaa", 10)]))
  = json_response 400 [("error", str "Insufficient balance"); ("success", JBool false)] /\
  fst (serve_withdraw (Scenario.environment [] Aborted [Some "connection lost"])
         (Scenario.withdrawal 20 "bank" Scenario.toBank)
         (Scenario.start [("5f0c1d2e-aaaa", 100)]))
  = json_response 404 [("error", str "Wallet not found"); ("success", JBool false)] /\
  fst (serve_withdraw
         {| fetch_outcome := fun _ => Aborted; db_fault := fun _ => None;
            auth_user := Some Scenario.alice; list_users := None;
            PAYSTACK_SECRET_KEY := None; date_now := fun _ => 0%Z |}
         (Scenario.withdrawal 20 "bank" Scenario.toBank)
         (Scenario.start [("5f0c1d2e-aaaa", 100)]))
  = json_response 500 [("error", str "Payment service not configured");
                       ("success", JBool false)] /\
  fst (serve_withdraw (Scenario.environment [] Aborted [])
         (Scenario.withdrawal 20 "bank"
            {| account_number := Some "0123456789"; bank_name := Some "KCB";
               account_name := None; phone_number := None |})
         (Scenario.start [("5f0c1d2e-aaaa", 100)]))
  = json_response 400 [("error", str "Bank account details incomplete")].
Proof.
  split; [reflexivity|]. split; [vm_compute; discriminate|].
  repeat split; vm_compute; reflexivity.
Qed.

(** ** No early return reports success *)

Section EarlyReturns.

Local Abbreviation failing := (Rets (fun r => ~ succeeded r)).

Lemma rets_ret {A} (a : A) : failing (ret a).
Proof. intros w r w' H. discriminate H. Qed.

Lemma rets_throw {A} (e : Thrown) : failing (@throw A e).
Proof. intros w r w' H. discriminate H. Qed.

Lemma rets_respond {A} (r : Response) : ~ succeeded r -> failing (@respond A r).
Proof. intros Hr w r' w' H. injection H as <- _. exact Hr. Qed.

Lemma rets_bind {A B} (m : M A) (f : A -> M B) :
  failing m -> (forall a, failing (f a)) -> failing (bind m f).
Proof.
  intros Hm Hf w r w' H. unfold bind in H.
  destruct (m w) as [[a|r0|e] w1] eqn:Hmw.
  - exact (Hf a w1 r w' H).
  - injection H as <- <-. exact (Hm w r0 w1 Hmw).
  - discriminate H.
Qed.

Lemma rets_try_catch {A} (m : M A) (h : Thrown -> M A) :
  failing m -> (forall e, failing (h e)) -> failing (try_catch m h).
Proof.
  intros Hm Hh w r w' H. unfold try_catch in H.
  destruct (m w) as [[a|r0|e] w1] eqn:Hmw.
  - discriminate H.
  - injection H as <- <-. exact (Hm w r0 w1 Hmw).
  - exact (Hh e w1 r w' H).
Qed.

Lemma rets_when (b : bool) (m : M unit) : failing m -> failing (when b m).
Proof. intros Hm. destruct b; [exact Hm | apply rets_ret]. Qed.

Lemma rets_console (l : Level) (t : Text) : failing (console l t).
Proof. intros w r w' H. discriminate H. Qed.

Lemma rets_sleep (d : Q) : failing (sleep d).
Proof. intros w r w' H. discriminate H. Qed.

Lemma rets_json (r : HttpResponse) : failing (json r).
Proof. unfold json. destruct (resp_json r); [apply rets_ret | apply rets_throw]. Qed.

Lemma rets_fetch (env : Env) (mk : World -> HttpRequest) :
  failing (fun w => fetchWithTimeout env (mk w) w).
Proof.
  intros w r w' H. unfold fetchWithTimeout in H.
  destruct (fetch_outcome env (fetch_count w)); discriminate H.
Qed.

Lemma rets_fetchWithTimeout (env : Env) (req : HttpRequest) :
  failing (fetchWithTimeout env req).
Proof. apply (rets_fetch env (fun _ => req)). Qed.

Lemma rets_retry_from {T} (fn : M T) (maxRetries : nat) (initialDelay : Q) :
  failing fn ->
  forall remaining i lastError,
    failing (retry_from fn maxRetries initialDelay remaining i lastError).
Proof.
  intros Hfn. induction remaining as [|remaining IH]; intros i lastError; simpl.
  - apply rets_throw.
  - apply rets_try_catch; [exact Hfn|]. intros e.
    apply rets_bind; [|intros _; apply IH].
    apply rets_when, rets_bind; [apply rets_console | intros _; apply rets_sleep].
Qed.

Lemma rets_retryDefault {T} (fn : M T) : failing fn -> failing (retryDefault fn).
Proof. intros Hfn. apply rets_retry_from. exact Hfn. Qed.

Lemma rets_select_balance (env : Env) (uid : string) : failing (select_balance env uid).
Proof.
  intros w r w' H. unfold select_balance in H.
  destruct (db_fault env (db_count w)); [discriminate H|].
  destruct (user_central_wallets w !! uid); discriminate H.
Qed.

Lemma rets_update_balance (env : Env) (uid : string) (balance : Q) :
  failing (update_balance env uid balance).
Proof.
  intros w r w' H. unfold update_balance in H.
  destruct (db_fault env (db_count w)); [discriminate H|].
  destruct (user_central_wallets w !! uid); discriminate H.
Qed.

Ltac not_succeeded := unfold succeeded; simpl; intro; discriminate.

Ltac rets_step :=
  first
    [ apply rets_ret | apply rets_throw
    | apply rets_respond; not_succeeded
    | apply rets_console | apply rets_sleep | apply rets_json
    | apply rets_select_balance | apply rets_update_balance
    | apply rets_retryDefault
    | apply rets_fetchWithTimeout
    | apply rets_bind | apply rets_try_catch | apply rets_when
    | match goal with
      | |- forall _, _ => intro
      | |- Rets _ (let _ := _ in _) => cbv zeta
      | |- Rets _ (match ?x with _ => _ end) => destruct x
      end ].

Ltac rets := repeat rets_step.

Variable env : Env.

Lemma rets_preflight (req : Request WithdrawBody) : failing (preflight env req).
Proof.
  unfold preflight, authenticate, parse_body, validateInput, loadWallet, requireSecretKey,
    checkNetAmount, amountTooLow.
  rets.
Qed.

Lemma rets_checkPaystackBalance (key : string) (net : Q) :
  failing (checkPaystackBalance env key net).
Proof. unfold checkPaystackBalance. rets. Qed.

Lemma rets_createRecipientWithPhone (key : string) (user : User) (pm : string)
  (provider : Bank) (phone : string) :
  failing (createRecipientWithPhone env key user pm provider phone).
Proof. unfold createRecipientWithPhone. rets. Qed.

Lemma rets_resolveRecipient (key : string) (user : User) (pm : string)
  (d : DestinationDetails) :
  failing (resolveRecipient env key user pm d).
Proof.
  unfold resolveRecipient, resolveMobileRecipient, resolveBankRecipient, fetchBanks,
    findProvider, createMobileRecipient.
  repeat first [ apply rets_createRecipientWithPhone | rets_step ].
Qed.

Lemma rets_initiateTransfer (key : string) (user : User) (pm : string) (net : Q)
  (rc : option string) :
  failing (initiateTransfer env key user pm net rc).
Proof.
  unfold initiateTransfer.
  repeat first
    [ apply (rets_fetch env (fun w => transferRequest key user pm net rc
                                        (date_now env (fetch_count w))))
    | rets_step ].
Qed.

Lemma rets_payout (c : Checked) : failing (payout env c).
Proof.
  unfold payout, payoutAfterCheck.
  repeat first
    [ apply rets_checkPaystackBalance | apply rets_resolveRecipient
    | apply rets_initiateTransfer | rets_step ].
Qed.

Lemma rets_deductFromWallet (user : User) (balance a : Q) :
  failing (deductFromWallet env user balance a).
Proof. unfold deductFromWallet. rets. Qed.

End EarlyReturns.

(** ** Reading a run backwards *)

(** What a request that passed the local checks was. *)
Lemma preflight_val_inv (env : Env) (req : Request WithdrawBody) (w w0 : World)
  (c : Checked) (b : WithdrawBody) (a : Q) :
  req_json req = inr b -> amount b = Some a ->
  preflight env req w = (Val c, w0) ->
  auth_user env = Some (c_user c) /\
  user_central_wallets w !! id (c_user c) = Some (c_balance c) /\
  c_amount c = a /\
  c_paymentMethod c = paymentMethod b /\
  c_fee c = calculateFee a (paymentMethod b) /\
  c_netAmount c = a - calculateFee a (paymentMethod b) /\
  same_store w w0 /\
  db_count w0 = S (db_count w) /\
  exists t, trace w0 = (trace w ++ t)%list /\ fetches t = [].
Proof.
  intros Hjson Ha H. unfold preflight in H.
  apply bind_val_inv in H as (user & w1 & Hauth & H).
  unfold authenticate in Hauth. destruct (auth_user env) as [u|] eqn:Hu; [|discriminate Hauth].
  injection Hauth as -> <-.
  apply bind_val_inv in H as (b' & w1 & Hb & H).
  unfold parse_body in Hb. rewrite Hjson in Hb. injection Hb as <- <-.
  apply bind_val_inv in H as ([] & w1 & Hlog & H). injection Hlog as <-.
  apply bind_val_inv in H as (valid & w2 & Hvalid & H). cbv zeta in H.
  assert (Hv : fst valid = a /\ w2 = emit (EConsole Log [FStr "Withdrawal request:"]) w).
  { unfold validateInput in Hvalid. rewrite Ha in Hvalid.
    repeat match type of Hvalid with
           | (match ?x with _ => _ end) _ = _ => destruct x
           | (if ?x then _ else _) _ = _ => destruct x
           end; try discriminate Hvalid; injection Hvalid as <- <-; split; reflexivity. }
  destruct Hv as [Hfst ->]. rewrite Hfst in H.
  apply bind_val_inv in H as (bal & w3 & Hload & H).
  unfold loadWallet, bind, select_balance in Hload. simpl in Hload.
  destruct (db_fault env (db_count w)); [discriminate Hload|].
  destruct (user_central_wallets w !! id user) as [bal0|] eqn:Hw; [|discriminate Hload].
  simpl in Hload. destruct (JS.Qltb bal0 a); [discriminate Hload|].
  injection Hload as <- <-.
  apply bind_val_inv in H as (key & w4 & Hkey & H).
  assert (Hk : w4 = count_db (emit (EConsole Log [FStr "Withdrawal request:"]) w)).
  { unfold requireSecretKey in Hkey. destruct (PAYSTACK_SECRET_KEY env) as [k|].
    - destruct (String.eqb k ""); [discriminate Hkey|]. now injection Hkey as _ <-.
    - discriminate Hkey. }
  subst w4.
  apply bind_val_inv in H as (net & w5 & Hnet & H).
  unfold checkNetAmount in Hnet.
  destruct (JS.Qleb (a - calculateFee a (paymentMethod b)) 0); [discriminate Hnet|].
  injection Hnet as <- <-. injection H as <- <-. simpl.
  repeat split; try assumption; try reflexivity.
  eexists. split.
  - rewrite <- app_assoc. reflexivity.
  - reflexivity.
Qed.

(** ** The provider side of a successful withdrawal *)

Lemma payout_keeps_db_count (env : Env) (c : Checked) :
  Keeps (fun w w' => db_count w' = db_count w) (payout env c).
Proof.
  apply keeps_payout with (ok := fun _ => True); try (intros; reflexivity); auto.
  intros w1 w2 w3 H1 H2. congruence.
Qed.

(** Every request to the transfer endpoint carries the net amount in
    the minor unit. *)
Lemma payout_transfers_net_amount (env : Env) (c : Checked) :
  Keeps (extends_with (fun r => forall x, transfer_amount r = Some x ->
                                          x = JS.round (c_netAmount c * 100)))
        (payout env c).
Proof.
  apply keeps_payout
    with (ok := fetches_satisfy (fun r => forall x, transfer_amount r = Some x ->
                                                    x = JS.round (c_netAmount c * 100)));
    eauto with grows.
  - intros r Hr x Hx. congruence.
  - intros rc now x Hx. injection Hx as <-. reflexivity.
Qed.

Lemma initiateTransfer_issues_transfer (env : Env) (key : string) (user : User)
  (pm : string) (net : Q) (rc : option string) (w w' : World) (transferData : Json) :
  initiateTransfer env key user pm net rc w = (Val transferData, w') ->
  exists now, In (transferRequest key user pm net rc now) (fetches (trace w')).
Proof.
  intros H.
  destruct (initiateTransfer_val_after (extends_with (fun _ => True))
              (fetches_satisfy (fun _ => True)) (extends_refl _) (extends_trans _)
              (extends_emit _) (fetches_satisfy_console _)
              env key user pm net rc w w' transferData H) as (wa & t & Ht & _).
  exists (date_now env (fetch_count wa)).
  rewrite Ht. simpl. rewrite !fetches_app. simpl.
  apply in_or_app. left. apply in_or_app. right. left. reflexivity.
Qed.

Lemma payout_issues_transfer (env : Env) (c : Checked) (w w' : World) (transferData : Json) :
  payout env c w = (Val transferData, w') ->
  exists rc now,
    In (transferRequest (c_key c) (c_user c) (c_paymentMethod c) (c_netAmount c) rc now)
       (fetches (trace w')).
Proof.
  intros H. unfold payout in H.
  apply bind_val_inv in H as ([] & w1 & _ & H). unfold payoutAfterCheck in H.
  apply bind_val_inv in H as (rc & w2 & _ & H).
  exists rc. eapply initiateTransfer_issues_transfer. exact H.
Qed.

(** ** The ledger side of a successful withdrawal *)

Lemma settle_val_inv (env : Env) (c : Checked) (transferData : Json) (w w' : World)
  (r : Response) (x : Q) :
  user_central_wallets w !! id (c_user c) = Some x ->
  db_fault env (S (db_count w)) = None ->
  settle env c transferData w = (Val r, w') ->
  r = json_response 200
        ([("success", JBool true); ("message", str "Withdrawal successful");
          ("amount", JNum (c_amount c)); ("fee", JNum (c_fee c));
          ("netAmount", JNum (c_amount c - c_fee c));
          ("destination", str (destinationOf (c_paymentMethod c) (c_destination c)));
          ("paymentMethod", str (c_paymentMethod c))]
         ++ opt_field "reference" (JStr <$> reference_of (j_data transferData))
         ++ [("newBalance", JNum (c_balance c - c_amount c))])%list /\
  user_central_wallets w' = <[id (c_user c) := c_balance c - c_amount c]> (user_central_wallets w) /\
  wallet_transactions w' =
    (wallet_transactions w ++
     [withdrawalRecord (c_user c) (c_paymentMethod c) (c_destination c) (c_amount c)
        (c_fee c) transferData (date_now env (fetch_count w))])%list /\
  trace w' = (trace w ++ [EConsole Log [FStr "Withdrawal successful:"]])%list.
Proof.
  intros Hrow Hinsert H. unfold settle in H.
  apply bind_val_inv in H as ([] & w1 & Hdeduct & H).
  unfold deductFromWallet, bind, update_balance in Hdeduct.
  destruct (db_fault env (db_count w)); [discriminate Hdeduct|].
  rewrite Hrow in Hdeduct. simpl in Hdeduct. injection Hdeduct as <-.
  unfold recordAndRespond, bind, insert_transactions in H. simpl in H.
  rewrite Hinsert in H. simpl in H. injection H as <- <-.
  repeat split.
Qed.

(** ** A withdrawal that reports success *)

Lemma recordAndRespond_never_returns_early (env : Env) (user : User) (pm : string)
  (d : DestinationDetails) (bal a fee : Q) (transferData : Json) :
  Rets (fun r => ~ succeeded r) (recordAndRespond env user pm d bal a fee transferData).
Proof.
  intros w r w' H. unfold recordAndRespond, bind, insert_transactions in H. simpl in H.
  destruct (db_fault env (db_count w)); discriminate H.
Qed.

Lemma withdraw_success_inv (env : Env) (req : Request WithdrawBody) (w w' : World)
  (resp : Response) :
  run_handler (withdraw env req) withdrawFailed w = (resp, w') ->
  succeeded resp ->
  exists c w0 transferData w1,
    preflight env req w = (Val c, w0) /\
    payout env c w0 = (Val transferData, w1) /\
    settle env c transferData w1 = (Val resp, w').
Proof.
  intros Hrun Hok. unfold run_handler in Hrun.
  destruct (withdraw env req w) as [[r|r|e] w2] eqn:Hw.
  - injection Hrun as -> ->. unfold withdraw in Hw.
    apply bind_val_inv in Hw as (c & w0 & Hpre & Hw).
    apply bind_val_inv in Hw as (td & w1 & Hpay & Hw).
    exists c, w0, td, w1. auto.
  - injection Hrun as -> ->. exfalso. revert Hok.
    assert (Hfail : Rets (fun r => ~ succeeded r) (withdraw env req)).
    { unfold withdraw. apply rets_bind; [apply rets_preflight|]. intros c.
      apply rets_bind; [apply rets_payout|]. intros td. unfold settle.
      apply rets_bind; [apply rets_deductFromWallet|]. intros _.
      apply recordAndRespond_never_returns_early. }
    exact (Hfail w resp w' Hw).
  - unfold withdrawFailed, bind in Hrun. simpl in Hrun. injection Hrun as <- _.
    exfalso. unfold succeeded in Hok. simpl in Hok. discriminate Hok.
Qed.

(** C3, as the code has it. A withdrawal of 1000 by mpesa has fee 15
    and net amount 985. When it reports success, with the store
    accepting the transaction record: the response names fee 15 and
    net amount 985; a transfer of the net amount was requested, and
    every transfer request of the run carries 98500 minor units; the
    caller's wallet is lower by exactly 1000; and one transaction
    record was appended, with amount -1000, fee 15 and net amount 985
    in its metadata. *)
Theorem withdrawal_of_1000_by_mpesa (env : Env) (req : Request WithdrawBody)
  (b : WithdrawBody) (w w' : World) (resp : Response) :
  req_method req <> "OPTIONS" ->
  req_json req = inr b -> amount b = Some 1000 -> paymentMethod b = "mpesa" ->
  db_fault env (db_count w + 2) = None ->
  serve_withdraw env req w = (resp, w') ->
  succeeded resp ->
  calculateFee 1000 "mpesa" = 15 /\
  (exists o, body resp = Some o /\
             field "fee" o = Some (JNum 15) /\ field "netAmount" o = Some (JNum 985)) /\
  exists user bal key,
    auth_user env = Some user /\
    user_central_wallets w !! id user = Some bal /\
    (exists rc now,
       In (transferRequest key user "mpesa" 985 rc now) (fetches (trace w'))) /\
    (exists t, trace w' = (trace w ++ t)%list /\
               Forall (fun r => forall x, transfer_amount r = Some x -> x = 98500)
                      (fetches t)) /\
    user_central_wallets w' = <[id user := bal - 1000]> (user_central_wallets w) /\
    exists r,
      wallet_transactions w' = (wallet_transactions w ++ [r])%list /\
      tx_user_id r = id user /\ tx_amount r = -1000 /\
      field "fee" (tx_metadata r) = Some (JNum 15) /\
      field "net_amount" (tx_metadata r) = Some (JNum 985).
Proof.
  intros Hmethod Hjson Ha Hpm Hinsert Hrun Hok.
  rewrite (serve_withdraw_runs _ _ _ Hmethod) in Hrun.
  destruct (withdraw_success_inv _ _ _ _ _ Hrun Hok) as (c & w0 & td & w1 & Hpre & Hpay & Hset).
  destruct (preflight_val_inv _ _ _ _ _ _ _ Hjson Ha Hpre)
    as (Hauth & Hrow & Hamount & Hpmc & Hfee & Hnet & [Hw0 Ht0] & Hdb0 & (t0 & Htrace0 & Hf0)).
  rewrite Hpm in Hpmc, Hfee, Hnet.
  destruct (payout_same_store env c w0) as [Hw1 Ht1]. rewrite Hpay in Hw1, Ht1. simpl in Hw1, Ht1.
  pose proof (payout_keeps_db_count env c w0) as Hdb1. rewrite Hpay in Hdb1. simpl in Hdb1.
  destruct (payout_transfers_net_amount env c w0) as (t1 & Htrace1 & Hf1).
  rewrite Hpay in Htrace1. simpl in Htrace1.
  destruct (payout_issues_transfer _ _ _ _ _ Hpay) as (rc & now & Hin).
  assert (Hrow1 : user_central_wallets w1 !! id (c_user c) = Some (c_balance c)) by congruence.
  assert (Hinsert1 : db_fault env (S (db_count w1)) = None).
  { rewrite Hdb1, Hdb0. replace (S (S (db_count w))) with (db_count w + 2)%nat by lia.
    exact Hinsert. }
  destruct (settle_val_inv _ _ _ _ _ _ _ Hrow1 Hinsert1 Hset) as (Hresp & Hwal & Htx & Htrace2).
  split; [reflexivity|]. split.
  - eexists. rewrite Hresp. split; [reflexivity|].
    simpl. rewrite Hfee, Hamount. split; reflexivity.
  - exists (c_user c), (c_balance c), (c_key c).
    split; [exact Hauth|]. split; [exact Hrow|]. split; [|split; [|split]].
    + exists rc, now. rewrite Htrace2, fetches_app. apply in_or_app. left.
      rewrite Hpmc, Hnet in Hin. exact Hin.
    + exists (t0 ++ t1 ++ [EConsole Log [FStr "Withdrawal successful:"]])%list. split.
      * rewrite Htrace2, Htrace1, Htrace0. now rewrite <- !app_assoc.
      * rewrite !fetches_app, Hf0. simpl. rewrite app_nil_r.
        rewrite Hnet in Hf1. exact Hf1.
    + rewrite Hwal, Hw1, Hw0, Hamount. reflexivity.
    + eexists. split; [rewrite Htx, Ht1, Ht0; reflexivity|].
      simpl. rewrite Hamount, Hfee. repeat split.
Qed.

Lemma withdrawal_of_1000_by_mpesa_witness :
  let run := serve_withdraw (Scenario.environment Scenario.smooth Aborted [])
               (Scenario.withdrawal 1000 "mpesa" (Scenario.toPhone "+254 712-345 678"))
               (Scenario.start [("5f0c1d2e-aaaa", 5000)]) in
  succeeded (fst run) /\
  user_central_wallets (snd run) !! "5f0c1d2e-aaaa" = Some (5000 - 1000) /\
  exists r, wallet_transactions (snd run) = [r] /\ tx_amount r = -1000 /\
            field "fee" (tx_metadata r) = Some (JNum 15) /\
            field "net_amount" (tx_metadata r) = Some (JNum 985).
Proof.
  intros run.
  assert (Hok : succeeded (fst run)) by (vm_compute; reflexivity).
  split; [exact Hok|].
  destruct (withdrawal_of_1000_by_mpesa
              (Scenario.environment Scenario.smooth Aborted [])
              (Scenario.withdrawal 1000 "mpesa" (Scenario.toPhone "+254 712-345 678"))
              {| amount := Some 1000; paymentMethod := "mpesa";
                 destinationDetails := Some (Scenario.toPhone "+254 712-345 678") |}
              (Scenario.start [("5f0c1d2e-aaaa", 5000)]) (snd run) (fst run))
    as (_ & _ & user & bal & key & Hauth & Hrow & _ & _ & Hwallet & r & Htx & _ & Hrest).
  - discriminate.
  - reflexivity.
  - reflexivity.
  - reflexivity.
  - reflexivity.
  - apply surjective_pairing.
  - exact Hok.
  - injection Hauth as <-. injection Hrow as <-. split.
    + rewrite Hwallet. apply lookup_insert_eq.
    + exists r. split; [exact Htx | exact Hrest].
Defined.

(** C3 as worded fails: the fee of a withdrawal of 1000 by mpesa is
    15, not 30, and the net amount is 985, not 970; a smooth run
    requests a transfer of 98500 minor units and reports fee 15. And
    when the store refuses the transaction record, the same run still
    reports success, with the wallet debited and no record written. *)
Lemma fee_of_1000_by_mpesa_is_15 :
  calculateFee 1000 "mpesa" = 15 /\
  ~ calculateFee 1000 "mpesa" == 30 /\
  ~ 1000 - calculateFee 1000 "mpesa" == 970 /\
  (let run := serve_withdraw (Scenario.environment Scenario.smooth Aborted [])
                (Scenario.withdrawal 1000 "mpesa" (Scenario.toPhone "+254 712-345 678"))
                (Scenario.start [("5f0c1d2e-aaaa", 5000)]) in
   (exists o, body (fst run) = Some o /\ field "fee" o = Some (JNum 15) /\
              field "netAmount" o = Some (JNum 985)) /\
   map transfer_amount (fetches (trace (snd run))) = [None; None; None; Some 98500]) /\
  (let run := serve_withdraw
                (Scenario.environment Scenario.smooth Aborted [None; None; Some "disk full"])
                (Scenario.withdrawal 1000 "mpesa" (Scenario.toPhone "+254 712-345 678"))
                (Scenario.start [("5f0c1d2e-aaaa", 5000)]) in
   succeeded (fst run) /\
   user_central_wallets (snd run) !! "5f0c1d2e-aaaa" = Some 4000 /\
   wallet_transactions (snd run) = []).
Proof.
  split; [reflexivity|]. split; [vm_compute; discriminate|].
  split; [vm_compute; discriminate|].
  split.
  - split; [eexists; split; [vm_compute; reflexivity | split; reflexivity]
           | vm_compute; reflexivity].
  - vm_compute. repeat split.
Qed.

(** ** Database steps *)

Lemma select_balance_found (env : Env) (uid : string) (w : World) (b : Q) :
  db_fault env (db_count w) = None ->
  user_central_wallets w !! uid = Some b ->
  select_balance env uid w = (Val (mkPgResult (Some b) None), count_db w).
Proof. intros Hdb Hrow. unfold select_balance. now rewrite Hdb, Hrow. Qed.


Lemma update_balance_applied (env : Env) (uid : string) (w : World) (b x : Q) :
  db_fault env (db_count w) = None ->
  user_central_wallets w !! uid = Some x ->
  update_balance env uid b w =
    (Val (mkPgResult None None),
     set_wallets (<[uid := b]> (user_central_wallets w)) (count_db w)).
Proof. intros Hdb Hrow. unfold update_balance. now rewrite Hdb, Hrow. Qed.


Lemma insert_transactions_applied (env : Env) (rows : list TransactionRecord) (w : World) :
  db_fault env (db_count w) = None ->
  insert_transactions env rows w =
    (Val (mkPgResult None None),
     set_transactions (wallet_transactions w ++ rows) (count_db w)).
Proof. intros Hdb. unfold insert_transactions. now rewrite Hdb. Qed.

(** ** The wallet-to-wallet transfer *)

Section PeerTransfer.

Import WalletTransfer.

Variable env : Env.

Lemma emailMatches_sameEmail (recipientEmail : string) (u : User) :
  emailMatches recipientEmail u = true <->
  exists e, email u = Some e /\ sameEmail e recipientEmail.
Proof.
  unfold emailMatches, sameEmail. destruct (email u) as [e|].
  - rewrite String.eqb_eq. split.
    + intros H. exists e. auto.
    + intros (e' & He & H). now injection He as ->.
  - split; [discriminate|]. intros (e' & He & _). discriminate He.
Qed.

Lemma find_resolvesTo (users : list User) (recipientEmail : string) (u : User) :
  resolvesTo users recipientEmail u ->
  List.find (emailMatches recipientEmail) users = Some u.
Proof.
  intros (before & after & e & -> & He & Hsame & Hfirst).
  induction before as [|v before IH]; simpl.
  - replace (emailMatches recipientEmail u) with true; [reflexivity|].
    symmetry. apply emailMatches_sameEmail. eauto.
  - destruct (emailMatches recipientEmail v) eqn:Hv.
    + apply emailMatches_sameEmail in Hv as (e' & He' & Hsame').
      exfalso. apply (Hfirst v e'); [left; reflexivity | assumption | assumption].
    + apply IH. intros v' e' Hin. apply Hfirst. right. exact Hin.
Qed.

Lemma serve_runs (req : Request TransferBody) (w : World) :
  req_method req <> "OPTIONS" ->
  serve env req w = run_handler (transfer env req) transferFailed w.
Proof.
  intros H. unfold serve. apply String.eqb_neq in H. now rewrite H.
Qed.

(** The steps up to the lookup of the recipient. *)
Lemma transfer_reaches_lookup (req : Request TransferBody) (w : World) (user : User)
  (b : TransferBody) (e : string) (a : Q) :
  auth_user env = Some user ->
  req_json req = inr b ->
  recipientEmail b = Some e -> e <> "" ->
  amount b = Some a -> 0 < a ->
  transfer env req w =
    bind (findRecipient env user e)
      (fun matchingUser =>
         bind (loadSenderWallet env user (a + transactionFee a))
           (fun balance =>
              bind (deductFromSender env user balance (a + transactionFee a))
                (fun _ =>
                   bind (addToRecipient env user matchingUser balance a)
                     (fun _ =>
                        bind (recordTransactions env user matchingUser e a (transactionFee a))
                          (fun _ =>
                             ret (json_response 200
                                    [("success", JBool true);
                                     ("message", str "Transfer successful");
                                     ("remaining_balance",
                                      JNum (balance - (a + transactionFee a)));
                                     ("amount_sent", JNum a);
                                     ("fee", JNum (transactionFee a));
                                     ("recipient", str e)]))))))
      (emit (EConsole Log [FStr "Wallet transfer request:"]) w).
Proof.
  intros Hauth Hjson He Hne Ha Hpos.
  unfold transfer, authenticate, parse_body. rewrite Hauth, Hjson.
  change (bind (ret user) ?k w) with (k user w). cbv beta.
  change (bind (ret b) ?k w) with (k b w). cbv beta.
  set (w1 := emit (EConsole Log [FStr "Wallet transfer request:"]) w).
  change (bind (console Log [FStr "Wallet transfer request:"]) ?k w) with (k tt w1).
  cbv beta.
  assert (Hvalid : validateInput b w1 = (Val (e, a), w1)).
  { unfold validateInput. rewrite He, Ha. apply String.eqb_neq in Hne. rewrite Hne.
    replace (JS.Qleb a 0) with false by (symmetry; apply Qleb_false; exact Hpos).
    reflexivity. }
  rewrite (bind_val _ _ _ _ _ Hvalid). reflexivity.
Qed.

(** C10. A transfer whose recipient address resolves, letter case
    aside, to the caller's own account is rejected with status 400 and
    "Cannot send money to yourself"; nothing has been read from or
    written to the ledger: no database call is made, no wallet changes
    and no transaction record is written. *)
Theorem transfer_to_oneself_is_rejected (req : Request TransferBody) (w : World)
  (user : User) (b : TransferBody) (e : string) (a : Q) (users : list User)
  (matchingUser : User) :
  req_method req <> "OPTIONS" ->
  auth_user env = Some user ->
  req_json req = inr b ->
  recipientEmail b = Some e -> e <> "" ->
  amount b = Some a -> 0 < a ->
  list_users env = Some users ->
  resolvesTo users e matchingUser ->
  id matchingUser = id user ->
  exists w',
    serve env req w = (json_response 400 [("error", str "Cannot send money to yourself")], w') /\
    db_count w' = db_count w /\
    user_central_wallets w' = user_central_wallets w /\
    wallet_transactions w' = wallet_transactions w /\
    fetches (trace w') = fetches (trace w).
Proof.
  intros Hmethod Hauth Hjson He Hne Ha Hpos Husers Hresolves Hself.
  rewrite (serve_runs _ _ Hmethod). unfold run_handler.
  rewrite (transfer_reaches_lookup req w user b e a Hauth Hjson He Hne Ha Hpos).
  assert (Hfind : forall w1,
            findRecipient env user e w1
            = (Ret (json_response 400 [("error", str "Cannot send money to yourself")]), w1)).
  { intros w1. unfold findRecipient. rewrite Husers, (find_resolvesTo _ _ _ Hresolves).
    rewrite Hself, String.eqb_refl. reflexivity. }
  rewrite (bind_ret _ _ _ _ _ (Hfind _)).
  eexists. split; [reflexivity|]. repeat split.
  apply fetches_console.
Qed.

Lemma findRecipient_found (user : User) (e : string) (users : list User)
  (matchingUser : User) (w : World) :
  list_users env = Some users ->
  resolvesTo users e matchingUser ->
  id matchingUser <> id user ->
  findRecipient env user e w = (Val matchingUser, w).
Proof.
  intros Husers Hresolves Hother. unfold findRecipient.
  rewrite Husers, (find_resolvesTo _ _ _ Hresolves).
  replace (String.eqb (id user) (id matchingUser)) with false; [reflexivity|].
  symmetry. apply String.eqb_neq. congruence.
Qed.

Lemma loadSenderWallet_enough (user : User) (total bal : Q) (w : World) :
  db_fault env (db_count w) = None ->
  user_central_wallets w !! id user = Some bal ->
  total <= bal ->
  loadSenderWallet env user total w = (Val bal, count_db w).
Proof.
  intros Hdb Hrow Hle. unfold loadSenderWallet.
  rewrite (bind_val _ _ _ _ _ (select_balance_found env _ _ _ Hdb Hrow)). simpl.
  replace (JS.Qltb bal total) with false by (symmetry; apply Qltb_false; exact Hle).
  reflexivity.
Qed.

Lemma deductFromSender_applied (user : User) (bal total x : Q) (w : World) :
  db_fault env (db_count w) = None ->
  user_central_wallets w !! id user = Some x ->
  deductFromSender env user bal total w =
    (Val tt, set_wallets (<[id user := bal - total]> (user_central_wallets w)) (count_db w)).
Proof.
  intros Hdb Hrow. unfold deductFromSender.
  now rewrite (bind_val _ _ _ _ _ (update_balance_applied env _ _ _ _ Hdb Hrow)).
Qed.



End PeerTransfer.

Lemma bob_is_resolved :
  resolvesTo [Scenario.bob; Scenario.alice] "bob@example.com" Scenario.bob.
Proof.
  exists [], [Scenario.alice], "Bob@Example.com".
  split; [reflexivity|]. split; [reflexivity|]. split; [reflexivity|].
  intros v e' [].
Qed.

Lemma alice_is_resolved :
  resolvesTo [Scenario.bob; Scenario.alice] "ALICE@example.com" Scenario.alice.
Proof.
  exists [Scenario.bob], [], "alice@example.com".
  split; [reflexivity|]. split; [reflexivity|]. split; [reflexivity|].
  intros v e' [<- | []] He'. injection He' as <-. discriminate.
Qed.



Lemma transfer_to_oneself_is_rejected_witness :
  exists w',
    WalletTransfer.serve (Scenario.environment [] Aborted [])
      (Scenario.sending 100 "ALICE@example.com")
      (Scenario.start [("5f0c1d2e-aaaa", 1000)])
    = (json_response 400 [("error", str "Cannot send money to yourself")], w') /\
    db_count w' = 0%nat /\
    user_central_wallets w' = list_to_map [("5f0c1d2e-aaaa", 1000)] /\
    wallet_transactions w' = [].
Proof.
  destruct (transfer_to_oneself_is_rejected
              (Scenario.environment [] Aborted [])
              (Scenario.sending 100 "ALICE@example.com")
              (Scenario.start [("5f0c1d2e-aaaa", 1000)])
              Scenario.alice
              {| WalletTransfer.recipientEmail := Some "ALICE@example.com";
                 WalletTransfer.amount := Some 100;
                 WalletTransfer.description := None |}
              "ALICE@example.com" 100 [Scenario.bob; Scenario.alice] Scenario.alice)
    as (w' & Hrun & Hdb & Hwallets & Htx & _).
  - discriminate.
  - reflexivity.
  - reflexivity.
  - reflexivity.
  - discriminate.
  - reflexivity.
  - reflexivity.
  - reflexivity.
  - exact alice_is_resolved.
  - reflexivity.
  - exists w'. split; [exact Hrun|]. split; [exact Hdb|]. split; [exact Hwallets | exact Htx].
Defined.

(** ** The fee and the success path of a transfer *)

Lemma transactionFee_is_clamp (a : Q) : transactionFee a == transactionFee_spec a.
Proof.
  unfold transactionFee, transactionFee_spec, feePercentage, JS.min, JS.max.
  change 0.01 with (1 # 100).
  destruct (Q.max_spec (a * (1 # 100)) 10) as [[H1 E1] | [H1 E1]];
  destruct (Q.min_spec (Qmax (a * (1 # 100)) 10) 100) as [[H2 E2] | [H2 E2]];
  destruct (Q.min_spec (a * (1 # 100)) 100) as [[H3 E3] | [H3 E3]];
  destruct (Q.max_spec (Qmin (a * (1 # 100)) 100) 10) as [[H4 E4] | [H4 E4]];
  rewrite ?E2, ?E4; rewrite ?E1, ?E3; rewrite ?E1 in H2; rewrite ?E3 in H4; lra.
Qed.

Section PeerTransferSuccess.

Import WalletTransfer.

Variable env : Env.

Lemma addToRecipient_applied (user matchingUser : User) (bal a r : Q) (w : World) :
  db_fault env (db_count w) = None ->
  db_fault env (S (db_count w)) = None ->
  user_central_wallets w !! id matchingUser = Some r ->
  addToRecipient env user matchingUser bal a w =
    (Val tt, set_wallets (<[id matchingUser := r + a]> (user_central_wallets w))
               (count_db (count_db w))).
Proof.
  intros Hread Hcredit Hrow. unfold addToRecipient.
  rewrite (bind_val _ _ _ _ _ (select_balance_found env _ _ _ Hread Hrow)). cbv zeta.
  assert (Hrow1 : user_central_wallets (count_db w) !! id matchingUser = Some r) by exact Hrow.
  now rewrite (bind_val _ _ _ _ _ (update_balance_applied env _ (count_db w) _ _ Hcredit Hrow1)).
Qed.

Lemma recordTransactions_applied (user matchingUser : User) (e : string) (a fee : Q)
  (w : World) :
  db_fault env (db_count w) = None ->
  recordTransactions env user matchingUser e a fee w =
    (Val tt, set_transactions
               (wallet_transactions w ++ transferRecords user matchingUser e a fee)
               (count_db w)).
Proof.
  intros Hdb. unfold recordTransactions.
  now rewrite (bind_val _ _ _ _ _ (insert_transactions_applied env _ _ Hdb)).
Qed.

(** C9. The transfer fee is [max(min(a * 1%, 100), 10)]. With a sender
    balance of 500 and an amount of 100 the fee is 10; the sender's
    wallet goes down by 110 to 390, the recipient's wallet goes up by
    exactly 100, and two transaction records are written: a debit of
    110 for the sender and a credit of 100 for the recipient. *)
Theorem transfer_fee_and_example :
  (forall a : Q, 0 < a -> transactionFee a == transactionFee_spec a) /\
  (forall (req : Request TransferBody) (w : World) (user : User) (b : TransferBody)
          (e : string) (users : list User) (matchingUser : User) (r : Q),
     req_method req <> "OPTIONS" ->
     auth_user env = Some user ->
     req_json req = inr b ->
     recipientEmail b = Some e -> e <> "" ->
     amount b = Some 100 ->
     list_users env = Some users ->
     resolvesTo users e matchingUser ->
     id matchingUser <> id user ->
     user_central_wallets w !! id user = Some 500 ->
     user_central_wallets w !! id matchingUser = Some r ->
     (forall k, (k < 5)%nat -> db_fault env (db_count w + k) = None) ->
     exists w' debit credit,
       serve env req w =
         (json_response 200
            [("success", JBool true); ("message", str "Transfer successful");
             ("remaining_balance", JNum 390); ("amount_sent", JNum 100);
             ("fee", JNum 10); ("recipient", str e)], w') /\
       user_central_wallets w' !! id user = Some (500 - 110) /\
       user_central_wallets w' !! id matchingUser = Some (r + 100) /\
       wallet_transactions w' = (wallet_transactions w ++ [debit; credit])%list /\
       tx_user_id debit = id user /\ tx_amount debit = -110 /\
       tx_user_id credit = id matchingUser /\ tx_amount credit = 100).
Proof.
  split.
  - intros a _. apply transactionFee_is_clamp.
  - intros req w user b e users matchingUser r Hmethod Hauth Hjson He Hne Ha Husers
      Hresolves Hother Hsender Hrecipient Hdb.
    assert (Hpos : 0 < 100) by reflexivity.
    assert (Hle : 100 + transactionFee 100 <= 500) by (vm_compute; discriminate).
    rewrite (serve_runs _ _ _ Hmethod). unfold run_handler.
    rewrite (transfer_reaches_lookup env req w user b e 100 Hauth Hjson He Hne Ha Hpos).
    set (w1 := emit (EConsole Log [FStr "Wallet transfer request:"]) w).
    rewrite (bind_val _ _ _ _ _ (findRecipient_found env user e users matchingUser w1
                                   Husers Hresolves Hother)).
    assert (H0 : db_fault env (db_count w1) = None).
    { specialize (Hdb 0%nat). rewrite Nat.add_0_r in Hdb. apply Hdb. lia. }
    rewrite (bind_val _ _ _ _ _ (loadSenderWallet_enough env user _ 500 w1 H0 Hsender Hle)).
    assert (H1 : db_fault env (db_count (count_db w1)) = None).
    { simpl. rewrite <- Nat.add_1_r. apply Hdb. lia. }
    rewrite (bind_val _ _ _ _ _ (deductFromSender_applied env user 500 _ 500 (count_db w1)
                                   H1 Hsender)).
    set (w2 := set_wallets _ _).
    assert (H2 : db_fault env (db_count w2) = None).
    { simpl. replace (S (S (db_count w))) with (db_count w + 2)%nat by lia. apply Hdb. lia. }
    assert (H3 : db_fault env (S (db_count w2)) = None).
    { simpl. replace (S (S (S (db_count w)))) with (db_count w + 3)%nat by lia.
      apply Hdb. lia. }
    assert (Hrow2 : user_central_wallets w2 !! id matchingUser = Some r).
    { simpl. rewrite lookup_insert_ne; [exact Hrecipient | congruence]. }
    rewrite (bind_val _ _ _ _ _ (addToRecipient_applied user matchingUser 500 100 r w2
                                   H2 H3 Hrow2)).
    set (w3 := set_wallets _ _).
    assert (H4 : db_fault env (db_count w3) = None).
    { simpl. replace (S (S (S (S (db_count w))))) with (db_count w + 4)%nat by lia.
      apply Hdb. lia. }
    rewrite (bind_val _ _ _ _ _ (recordTransactions_applied user matchingUser e 100
                                   (transactionFee 100) w3 H4)).
    eexists. eexists. eexists. split; [reflexivity|]. simpl.
    split; [|split; [|split; [reflexivity|repeat split]]].
    + rewrite lookup_insert_ne by congruence. rewrite lookup_insert_eq. reflexivity.
    + rewrite lookup_insert_eq. reflexivity.
Qed.

End PeerTransferSuccess.

Lemma transfer_fee_and_example_witness :
  0 < 100 /\ transactionFee 100 == transactionFee_spec 100 /\
  exists w',
    fst (WalletTransfer.serve (Scenario.environment [] Aborted [])
           (Scenario.sending 100 "bob@example.com")
           (Scenario.start [("5f0c1d2e-aaaa", 500); ("9b8a7c6d-bbbb", 50)]))
    = json_response 200
        [("success", JBool true); ("message", str "Transfer successful");
         ("remaining_balance", JNum 390); ("amount_sent", JNum 100);
         ("fee", JNum 10); ("recipient", str "bob@example.com")] /\
    w' = snd (WalletTransfer.serve (Scenario.environment [] Aborted [])
                (Scenario.sending 100 "bob@example.com")
                (Scenario.start [("5f0c1d2e-aaaa", 500); ("9b8a7c6d-bbbb", 50)])) /\
    user_central_wallets w' !! "5f0c1d2e-aaaa" = Some (500 - 110) /\
    user_central_wallets w' !! "9b8a7c6d-bbbb" = Some (50 + 100) /\
    map tx_amount (wallet_transactions w') = [-110; 100].
Proof.
  destruct (transfer_fee_and_example (Scenario.environment [] Aborted [])) as [Hfee Hexample].
  assert (Hpos : 0 < 100) by reflexivity.
  split; [exact Hpos|]. split; [exact (Hfee 100 Hpos)|].
  destruct (Hexample
              (Scenario.sending 100 "bob@example.com")
              (Scenario.start [("5f0c1d2e-aaaa", 500); ("9b8a7c6d-bbbb", 50)])
              Scenario.alice
              {| WalletTransfer.recipientEmail := Some "bob@example.com";
                 WalletTransfer.amount := Some 100;
                 WalletTransfer.description := None |}
              "bob@example.com" [Scenario.bob; Scenario.alice] Scenario.bob 50)
    as (w' & debit & credit & Hrun & Hsender & Hrecipient & Htx & _ & Hd & _ & Hc).
  - discriminate.
  - reflexivity.
  - reflexivity.
  - reflexivity.
  - discriminate.
  - reflexivity.
  - reflexivity.
  - exact bob_is_resolved.
  - discriminate.
  - reflexivity.
  - reflexivity.
  - intros k _. simpl. destruct k; reflexivity.
  - exists w'. rewrite Hrun. split; [reflexivity|]. split; [reflexivity|].
    split; [exact Hsender|]. split; [exact Hrecipient|].
    rewrite Htx. simpl. now rewrite Hd, Hc.
Defined.

(** ** Recipient creation for a mobile number *)

Section MobileRecipient.

Variable env : Env.





End MobileRecipient.


(** * Further properties of the code *)

(** ** The withdrawal fee schedule *)

Lemma floor_below (x : Q) : JS.floor x <= x.
Proof. apply Qfloor_le. Qed.

Lemma max_below (c x a : Q) : c < a -> x < a -> JS.max c x < a.
Proof. intros Hc Hx. unfold JS.max. apply Q.max_lub_lt; assumption. Qed.

Lemma percent_fee_below (c r a : Q) :
  0 < a -> c < a -> 0 <= r -> r < 1 -> JS.max c (JS.floor (a * r)) < a.
Proof.
  intros Ha Hc Hr0 Hr1. apply max_below; [exact Hc|].
  apply Qle_lt_trans with (a * r); [apply floor_below | nra].
Qed.

(** X1. Only a bank withdrawal of at most 25 is consumed by its fee:
    for every amount [a > 0] and every payment method, the fee reaches
    the amount exactly when the method is bank and [a <= 25]. On the
    mobile channels, and for an unknown method, the net amount is
    always positive. *)
Theorem fee_reaches_amount_only_for_small_bank (a : Q) (method : string) :
  0 < a ->
  (a <= calculateFee a method <-> method = "bank" /\ a <= 25).
Proof.
  intros Ha. unfold calculateFee.
  destruct (String.eqb_spec method "mpesa") as [-> | Hm].
  { split; [|intros [H _]; discriminate H]. intros H. exfalso. revert H.
    split_tiers; compare_all; intros H; try lra.
    apply (Qlt_irrefl a). eapply Qle_lt_trans; [exact H|].
    apply percent_fee_below; lra. }
  destruct (String.eqb_spec method "airtel") as [-> | Hl].
  { split; [|intros [H _]; discriminate H]. intros H. exfalso. revert H.
    split_tiers; compare_all; intros H; try lra.
    apply (Qlt_irrefl a). eapply Qle_lt_trans; [exact H|].
    apply percent_fee_below; lra. }
  destruct (String.eqb_spec method "bank") as [-> | Hb].
  - split.
    + intros H. split; [reflexivity|].
      destruct (Qlt_le_dec 25 a) as [Hbig | Hsmall]; [|exact Hsmall].
      exfalso. apply (Qlt_irrefl a). eapply Qle_lt_trans; [exact H|].
      apply percent_fee_below; lra.
    + intros [_ H]. apply Qle_trans with 25; [exact H | apply max_lower_bound].
  - split; [intros H; lra | intros [H _]; contradiction].
Qed.

Lemma fee_reaches_amount_only_for_small_bank_witness :
  0 < 20 /\ ("bank" = "bank" /\ 20 <= 25) /\ 20 <= calculateFee 20 "bank".
Proof.
  assert (Hpos : 0 < 20) by reflexivity.
  assert (Hsmall : "bank" = "bank" /\ 20 <= 25) by (split; [reflexivity | vm_compute; discriminate]).
  exact (conj Hpos (conj Hsmall
           (proj2 (fee_reaches_amount_only_for_small_bank 20 "bank" Hpos) Hsmall))).
Defined.

(** X2. A withdrawal by mpesa never costs more than the same
    withdrawal by airtel. *)
Theorem mpesa_fee_at_most_airtel_fee (a : Q) :
  calculateFee a "mpesa" <= calculateFee a "airtel".
Proof.
  unfold calculateFee. simpl String.eqb. cbv iota.
  split_tiers; compare_all; try lra;
  first [ apply Qle_refl
        | match goal with
          | |- _ <= JS.max ?c _ => apply Qle_trans with c; [lra | apply max_lower_bound]
          end ].
Qed.

(** X3. Every fee is a whole number of shillings. *)
Theorem calculateFee_is_whole (a : Q) (method : string) :
  exists z : Z, calculateFee a method = inject_Z z.
Proof.
  assert (Hmax : forall (c : Z) (x : Q),
            exists z, JS.max (inject_Z c) (JS.floor x) = inject_Z z).
  { intros c x. unfold JS.max, Qmax, GenericMinMax.gmax, JS.floor.
    destruct (Qcompare (inject_Z c) (inject_Z (Qfloor x))); eauto. }
  unfold calculateFee.
  repeat match goal with
  | |- context [if ?c then _ else _] => destruct c
  end;
  first [ apply (Hmax 50%Z) | apply (Hmax 25%Z)
        | exists 0%Z; reflexivity | exists 15%Z; reflexivity | exists 25%Z; reflexivity
        | exists 30%Z; reflexivity | exists 45%Z; reflexivity | exists 50%Z; reflexivity ].
Qed.

(** ** The retry loop in every environment *)

Lemma pow2_pos (i : nat) : 0 < JS.pow2 i.
Proof. unfold JS.pow2. apply Qpower_0_lt. reflexivity. Qed.

Lemma pow2_S (i : nat) : JS.pow2 (S i) == 2 * JS.pow2 i.
Proof.
  unfold JS.pow2. rewrite Nat2Z.inj_succ, <- Z.add_1_l.
  rewrite Qpower_plus by discriminate. reflexivity.
Qed.

Lemma pow2_monotone (i j : nat) : (i <= j)%nat -> JS.pow2 i <= JS.pow2 j.
Proof.
  induction 1 as [|j _ IH]; [apply Qle_refl|].
  rewrite pow2_S. pose proof (pow2_pos j). lra.
Qed.

(** The pauses after failed attempts [i], [i + 1], ..., [i + k - 1] add
    up to [d * 2^i * (2^k - 1)]. *)
Lemma total_backoff (d : Q) (k : nat) :
  forall i, total (backoff d i k) == d * JS.pow2 i * (JS.pow2 k - 1).
Proof.
  unfold total, backoff.
  induction k as [|k IH]; intros i; simpl.
  - change (JS.pow2 0) with 1. ring.
  - rewrite (IH (S i)), (pow2_S i), (pow2_S k). ring.
Qed.

Section RetryBound.

Variable env : Env.
Variable req : HttpRequest.
Variable maxRetries : nat.
Variable initialDelay : Q.

Lemma retry_from_bounded (remaining : nat) :
  forall (i : nat) (lastError : Thrown) (w : World),
  (i + remaining = maxRetries)%nat -> (0 < remaining)%nat ->
  exists j, (1 <= j <= remaining)%nat /\
    let w' := snd (retry_from (fetchWithTimeout env req) maxRetries initialDelay
                     remaining i lastError w) in
    fetch_count w' = (fetch_count w + j)%nat /\
    fetches (trace w') = (fetches (trace w) ++ repeat req j)%list /\
    sleeps (trace w') = (sleeps (trace w) ++ backoff initialDelay i (j - 1))%list.
Proof.
  induction remaining as [|remaining IH]; intros i lastError w Hsum Hpos; [lia|].
  rewrite retry_from_step.
  destruct (fetch_outcome env (fetch_count w)) as [r| |e] eqn:Hout.
  - rewrite (fetch_responded _ _ _ _ Hout). exists 1%nat. split; [lia|].
    simpl. rewrite fetches_app, sleeps_app. simpl.
    repeat split; first [lia | now rewrite ?app_nil_r].
  - rewrite (fetch_thrown env req w (ErrorObj "network_timeout")) by (rewrite Hout; reflexivity).
    destruct remaining as [|remaining].
    + replace (i <? maxRetries - 1)%nat with false by (symmetry; apply Nat.ltb_ge; lia).
      exists 1%nat. split; [lia|]. simpl. rewrite fetches_app, sleeps_app. simpl.
      repeat split; first [lia | now rewrite ?app_nil_r].
    + replace (i <? maxRetries - 1)%nat with true by (symmetry; apply Nat.ltb_lt; lia).
      edestruct (IH (S i) (ErrorObj "network_timeout")
                   (paused maxRetries initialDelay i (count_fetch (emit (EFetch req) w))))
        as (j & Hj & Hc & Hf & Hs); [lia | lia |].
      exists (S j). split; [lia|]. cbv zeta in *. rewrite Hc, Hf, Hs. simpl.
      rewrite ?fetches_app, ?sleeps_app. simpl. rewrite <- ?app_assoc. simpl.
      rewrite Nat.sub_0_r. destruct j as [|j]; [lia|].
      simpl. rewrite Nat.sub_0_r. repeat split; first [lia | reflexivity].
  - rewrite (fetch_thrown env req w e) by (rewrite Hout; reflexivity).
    destruct remaining as [|remaining].
    + replace (i <? maxRetries - 1)%nat with false by (symmetry; apply Nat.ltb_ge; lia).
      exists 1%nat. split; [lia|]. simpl. rewrite fetches_app, sleeps_app. simpl.
      repeat split; first [lia | now rewrite ?app_nil_r].
    + replace (i <? maxRetries - 1)%nat with true by (symmetry; apply Nat.ltb_lt; lia).
      edestruct (IH (S i) e
                   (paused maxRetries initialDelay i (count_fetch (emit (EFetch req) w))))
        as (j & Hj & Hc & Hf & Hs); [lia | lia |].
      exists (S j). split; [lia|]. cbv zeta in *. rewrite Hc, Hf, Hs. simpl.
      rewrite ?fetches_app, ?sleeps_app. simpl. rewrite <- ?app_assoc. simpl.
      rewrite Nat.sub_0_r. destruct j as [|j]; [lia|].
      simpl. rewrite Nat.sub_0_r. repeat split; first [lia | reflexivity].
Qed.

End RetryBound.

(** X4. In every environment, a request run under [retryWithBackoff]
    with [maxRetries >= 1] is sent at least once and at most
    [maxRetries] times, always the same request; the pauses are the
    first [j - 1] delays of the doubling schedule, where [j] is the
    number of attempts, so the time spent pausing is
    [initialDelay * (2^(j-1) - 1)], at most
    [initialDelay * (2^(maxRetries-1) - 1)]: 3000 ms with the
    defaults. *)
Theorem retry_attempts_and_pauses_are_bounded
  (env : Env) (req : HttpRequest) (maxRetries : nat) (initialDelay : Q) (w : World) :
  (0 < maxRetries)%nat -> 0 <= initialDelay ->
  let w' := snd (retryWithBackoff (fetchWithTimeout env req) maxRetries initialDelay w) in
  exists j, (1 <= j <= maxRetries)%nat /\
    fetches (trace w') = (fetches (trace w) ++ repeat req j)%list /\
    sleeps (trace w') = (sleeps (trace w) ++ backoff initialDelay 0 (j - 1))%list /\
    total (backoff initialDelay 0 (j - 1)) == initialDelay * (JS.pow2 (j - 1) - 1) /\
    total (backoff initialDelay 0 (j - 1)) <= initialDelay * (JS.pow2 (maxRetries - 1) - 1).
Proof.
  intros Hpos Hd. cbv zeta. unfold retryWithBackoff.
  destruct (retry_from_bounded env req maxRetries initialDelay maxRetries 0 NotAnError w)
    as (j & Hj & _ & Hf & Hs); [lia | exact Hpos |].
  exists j. split; [exact Hj|]. split; [exact Hf|]. split; [exact Hs|].
  assert (Htotal : total (backoff initialDelay 0 (j - 1))
                   == initialDelay * (JS.pow2 (j - 1) - 1)).
  { rewrite total_backoff. change (JS.pow2 0) with 1. ring. }
  split; [exact Htotal|]. rewrite Htotal.
  assert (Hmono : JS.pow2 (j - 1) <= JS.pow2 (maxRetries - 1)) by (apply pow2_monotone; lia).
  nra.
Qed.

Lemma retry_attempts_and_pauses_are_bounded_witness :
  exists j, (1 <= j <= 3)%nat /\
    fetches (trace (snd (retryDefault
      (fetchWithTimeout (Scenario.environment [Aborted] (Scenario.fine DAbsent) [])
         (balanceRequest "sk_test")) (Scenario.start []))))
      = repeat (balanceRequest "sk_test") j /\
    total (backoff 1000 0 (j - 1)) <= 3000.
Proof.
  destruct (retry_attempts_and_pauses_are_bounded
              (Scenario.environment [Aborted] (Scenario.fine DAbsent) [])
              (balanceRequest "sk_test") 3 1000 (Scenario.start []))
    as (j & Hj & Hf & _ & _ & Hle).
  - lia.
  - vm_compute. discriminate.
  - exists j. split; [exact Hj|]. split; [exact Hf|]. exact Hle.
Defined.

(** ** The two phone forms *)

Lemma allChars_filter (p q : ascii -> bool) (s : string) :
  allChars p s = true -> allChars p (JS.filterChars q s) = true.
Proof.
  induction s as [|c s IH]; simpl; [reflexivity|].
  intros [Hc Hs]%andb_true_iff. destruct (q c); simpl; [rewrite Hc|]; auto.
Qed.

Lemma allChars_filtered (p : ascii -> bool) (s : string) :
  allChars p (JS.filterChars p s) = true.
Proof.
  induction s as [|c s IH]; simpl; [reflexivity|].
  destruct (p c) eqn:Hc; simpl; [rewrite Hc|]; auto.
Qed.

Lemma filterChars_id (p : ascii -> bool) (s : string) :
  allChars p s = true -> JS.filterChars p s = s.
Proof.
  induction s as [|c s IH]; simpl; [reflexivity|].
  intros [Hc Hs]%andb_true_iff. rewrite Hc, IH; auto.
Qed.

Lemma allChars_and (p q : ascii -> bool) (s : string) :
  allChars (fun c => p c && q c) s = allChars p s && allChars q s.
Proof.
  induction s as [|c s IH]; simpl; [reflexivity|].
  rewrite IH. destruct (p c), (q c), (allChars p s); reflexivity.
Qed.

Lemma stripSeparators_clean (s : string) :
  allChars notSeparator (JS.stripSeparators s) = true.
Proof.
  unfold notSeparator, JS.stripSeparators. rewrite allChars_and.
  apply andb_true_iff. split.
  - apply allChars_filter, allChars_filtered.
  - apply allChars_filtered.
Qed.

Lemma stripSeparators_id (s : string) :
  allChars notSeparator s = true -> JS.stripSeparators s = s.
Proof.
  unfold notSeparator, JS.stripSeparators. rewrite allChars_and.
  intros [Hs Hd]%andb_true_iff.
  rewrite (filterChars_id _ s Hs). apply filterChars_id, Hd.
Qed.

Lemma allChars_slice (p : ascii -> bool) (n : nat) :
  forall s, allChars p s = true -> allChars p (JS.slice n s) = true.
Proof.
  induction n as [|n IH]; intros [|c s]; simpl; auto.
  intros [_ Hs]%andb_true_iff. auto.
Qed.

Lemma allChars_stripLeadingPlus (p : ascii -> bool) (s : string) :
  allChars p s = true -> allChars p (JS.stripLeadingPlus s) = true.
Proof.
  destruct s as [|c s]; [auto|]. unfold JS.stripLeadingPlus.
  intros H. pose proof H as [_ Hs]%andb_true_iff.
  destruct c as [[] [] [] [] [] [] [] []]; assumption.
Qed.

(** A string that starts with ["254"] is ["254"] followed by the rest. *)
Lemma startsWith_254 (s : string) :
  JS.startsWith s "254" = true -> s = "254" ++ JS.slice 3 s.
Proof.
  unfold JS.startsWith.
  intros H%String.prefix_correct.
  destruct s as [|a [|b [|c s]]]; simpl in H; try discriminate.
  injection H as -> -> -> _. reflexivity.
Qed.

Lemma allChars_app (p : ascii -> bool) (s t : string) :
  allChars p (s ++ t) = allChars p s && allChars p t.
Proof.
  induction s as [|c s IH]; simpl; [reflexivity|].
  now rewrite IH, andb_assoc.
Qed.

Lemma startsWith_app (p s : string) : JS.startsWith (p ++ s) p = true.
Proof.
  unfold JS.startsWith. induction p as [|a p IH]; simpl.
  - destruct s; reflexivity.
  - destruct (ascii_dec a a) as [_|Hne]; [exact IH | now elim Hne].
Qed.

Lemma intlPhone_shape (p : option string) :
  JS.startsWith (intlPhone p) "254" = true /\ allChars notSeparator (intlPhone p) = true.
Proof.
  unfold intlPhone, phoneNoSpaces. cbv zeta.
  set (q := JS.stripLeadingPlus (JS.stripSeparators (JS.or_else p ""))).
  assert (Hq : allChars notSeparator q = true)
    by apply allChars_stripLeadingPlus, stripSeparators_clean.
  destruct (JS.startsWith q "0").
  - split; [apply startsWith_app|]. rewrite allChars_app. now apply allChars_slice.
  - destruct (JS.startsWith q "254") eqn:H254; cbv beta iota delta [negb].
    + split; assumption.
    + split; [apply startsWith_app|]. rewrite allChars_app. exact Hq.
Qed.

Lemma localPhone_eq (p : option string) : localPhone p = "0" ++ JS.slice 3 (intlPhone p).
Proof. unfold localPhone. cbv zeta. now rewrite (proj1 (intlPhone_shape p)). Qed.

(** The international form of a clean string that starts with ["254"]
    is the string itself. *)
Lemma intlPhone_fixed (s : string) :
  JS.startsWith s "254" = true -> allChars notSeparator s = true -> intlPhone (Some s) = s.
Proof.
  intros H254 Hclean. pose proof (startsWith_254 s H254) as Hs.
  unfold intlPhone, phoneNoSpaces. cbv zeta.
  replace (JS.or_else (Some s) "") with s by (rewrite Hs; reflexivity).
  rewrite (stripSeparators_id s Hclean).
  replace (JS.stripLeadingPlus s) with s by (rewrite Hs; reflexivity).
  replace (JS.startsWith s "0") with false by (rewrite Hs; reflexivity).
  now rewrite H254.
Qed.

(** The international form of a clean local number. *)
Lemma intlPhone_of_local (r : string) :
  allChars notSeparator r = true -> intlPhone (Some ("0" ++ r)) = "254" ++ r.
Proof.
  intros Hr. unfold intlPhone, phoneNoSpaces. cbv zeta.
  change (JS.or_else (Some ("0" ++ r)) "") with ("0" ++ r).
  rewrite stripSeparators_id by (rewrite allChars_app; exact Hr).
  change (JS.stripLeadingPlus ("0" ++ r)) with ("0" ++ r).
  now rewrite (startsWith_app "0" r).
Qed.

(** X5. Whatever is entered as the phone number, the international form
    starts with 254, the local form starts with 0, neither holds white
    space or a dash, and each is the other with its prefix exchanged. *)
Theorem phone_forms_are_normalised (p : option string) :
  JS.startsWith (intlPhone p) "254" = true /\
  JS.startsWith (localPhone p) "0" = true /\
  allChars notSeparator (intlPhone p) = true /\
  allChars notSeparator (localPhone p) = true /\
  intlPhone p = "254" ++ JS.slice 1 (localPhone p) /\
  localPhone p = "0" ++ JS.slice 3 (intlPhone p).
Proof.
  destruct (intlPhone_shape p) as [H254 Hclean].
  rewrite localPhone_eq. repeat split; try assumption; try reflexivity.
  - apply startsWith_app.
  - rewrite allChars_app. now apply allChars_slice.
  - now apply startsWith_254.
Qed.

(** X6. Normalising a phone number that is already in either form
    gives the same two forms again. *)
Theorem phone_forms_are_stable (p : option string) :
  intlPhone (Some (intlPhone p)) = intlPhone p /\
  intlPhone (Some (localPhone p)) = intlPhone p /\
  localPhone (Some (intlPhone p)) = localPhone p /\
  localPhone (Some (localPhone p)) = localPhone p.
Proof.
  destruct (intlPhone_shape p) as [H254 Hclean].
  assert (Hi : intlPhone (Some (intlPhone p)) = intlPhone p)
    by now apply intlPhone_fixed.
  assert (Hl : intlPhone (Some (localPhone p)) = intlPhone p).
  { rewrite localPhone_eq.
    assert (Hrest : allChars notSeparator (JS.slice 3 (intlPhone p)) = true)
      by now apply allChars_slice.
    rewrite (intlPhone_of_local _ Hrest). symmetry. now apply startsWith_254. }
  repeat split; try assumption.
  - rewrite !localPhone_eq. now rewrite Hi.
  - rewrite (localPhone_eq (Some (localPhone p))). rewrite Hl. symmetry. apply localPhone_eq.
Qed.

(** ** Finding the provider *)








(** ** The withdrawal handler in every environment *)

(** What a request has passed when the local checks let it through. *)
Lemma preflight_checks (env : Env) (req : Request WithdrawBody) (w w0 : World) (c : Checked) :
  preflight env req w = (Val c, w0) ->
  exists b,
    req_json req = inr b /\
    amount b = Some (c_amount c) /\
    destinationDetails b = Some (c_destination c) /\
    destinationComplete (paymentMethod b) (c_destination c) = true /\
    0 < c_amount c /\
    c_amount c <= c_balance c /\
    PAYSTACK_SECRET_KEY env = Some (c_key c) /\ c_key c <> "" /\
    calculateFee (c_amount c) (paymentMethod b) < c_amount c.
Proof.
  intros H. unfold preflight in H.
  apply bind_val_inv in H as (user & w1 & Hauth & H).
  apply bind_val_inv in H as (b & w2 & Hb & H).
  unfold parse_body in Hb. destruct (req_json req) as [e|b'] eqn:Hjson; [discriminate Hb|].
  injection Hb as -> <-. exists b. split; [reflexivity|].
  apply bind_val_inv in H as ([] & w3 & _ & H).
  apply bind_val_inv in H as (valid & w4 & Hvalid & H). cbv zeta in H.
  apply bind_val_inv in H as (bal & w5 & Hload & H).
  apply bind_val_inv in H as (key & w6 & Hkey & H).
  apply bind_val_inv in H as (net & w7 & Hnet & H).
  injection H as <- _. simpl.
  assert (Hv : amount b = Some (fst valid) /\ destinationDetails b = Some (snd valid) /\
               destinationComplete (paymentMethod b) (snd valid) = true /\ 0 < fst valid).
  { unfold validateInput in Hvalid. unfold destinationComplete.
    destruct (amount b) as [a|]; [|discriminate Hvalid].
    destruct (JS.Qleb a 0) eqn:Hpos; [discriminate Hvalid|]. apply Qleb_false in Hpos.
    destruct (destinationDetails b) as [d|]; [|discriminate Hvalid].
    destruct (String.eqb (paymentMethod b) "bank").
    - destruct (JS.truthy (account_number d)) eqn:E1, (JS.truthy (bank_name d)) eqn:E2,
        (JS.truthy (account_name d)) eqn:E3; try discriminate Hvalid;
        injection Hvalid as <- _; simpl; rewrite E1, E2, E3; repeat split; auto.
    - destruct (JS.truthy (phone_number d)) eqn:E1; try discriminate Hvalid;
        injection Hvalid as <- _; simpl; rewrite E1; repeat split; auto. }
  destruct Hv as (Ha & Hd & Hcomplete & Hpos).
  repeat split; try assumption.
  - unfold loadWallet, bind, select_balance in Hload. simpl in Hload.
    destruct (db_fault env _); [discriminate Hload|].
    destruct (user_central_wallets _ !! id user) as [q|]; simpl in Hload;
      [|discriminate Hload].
    destruct (JS.Qltb q (fst valid)) eqn:Hlt; [discriminate Hload|].
    injection Hload as <- _. now apply Qltb_false.
  - unfold requireSecretKey in Hkey. destruct (PAYSTACK_SECRET_KEY env) as [k|].
    + destruct (String.eqb k ""); [discriminate Hkey|]. now injection Hkey as <- _.
    + discriminate Hkey.
  - unfold requireSecretKey in Hkey. destruct (PAYSTACK_SECRET_KEY env) as [k|].
    + destruct (String.eqb k "") eqn:Hk; [discriminate Hkey|]. injection Hkey as <- _.
      now apply String.eqb_neq.
    + discriminate Hkey.
  - unfold checkNetAmount in Hnet.
    destruct (JS.Qleb (fst valid - calculateFee (fst valid) (paymentMethod b)) 0) eqn:Hn;
      [discriminate Hnet|]. apply Qleb_false in Hn. lra.
Qed.

Lemma settle_applied (env : Env) (c : Checked) (transferData : Json) (w : World) (x : Q) :
  db_fault env (db_count w) = None ->
  user_central_wallets w !! id (c_user c) = Some x ->
  exists r w',
    settle env c transferData w = (Val r, w') /\
    succeeded r /\ status r = 200%Z /\
    user_central_wallets w' =
      <[id (c_user c) := c_balance c - c_amount c]> (user_central_wallets w) /\
    (wallet_transactions w' = wallet_transactions w \/
     wallet_transactions w' =
       (wallet_transactions w ++
        [withdrawalRecord (c_user c) (c_paymentMethod c) (c_destination c) (c_amount c)
           (c_fee c) transferData (date_now env (fetch_count w))])%list).
Proof.
  intros Hfault Hrow.
  unfold settle, deductFromWallet, bind, update_balance. rewrite Hfault, Hrow. simpl.
  unfold recordAndRespond, bind, insert_transactions. simpl.
  destruct (db_fault env (S (db_count w))); simpl; eexists; eexists;
    (split; [reflexivity|]); (split; [reflexivity|]); (split; [reflexivity|]);
    (split; [reflexivity|]); [left | right]; reflexivity.
Qed.

Lemma settle_refused (env : Env) (c : Checked) (transferData : Json) (w : World) (e : string) :
  db_fault env (db_count w) = Some e ->
  settle env c transferData w =
    (Ret (json_response 500 [("error", str "Failed to update wallet"); ("success", JBool false)]),
     emit (EConsole Error [FStr "Wallet update error:"]) (count_db w)).
Proof.
  intros Hfault. unfold settle, deductFromWallet, bind, update_balance. now rewrite Hfault.
Qed.

(** A run of the handler either leaves the ledger alone and reports no
    success, or passes the local checks and the provider, debits the
    gross amount and reports success; the transaction record is there
    unless its insertion failed. *)
Lemma withdraw_ledger_cases (env : Env) (req : Request WithdrawBody) (w : World) :
  (same_store w (snd (serve_withdraw env req w)) /\
   ~ succeeded (fst (serve_withdraw env req w))) \/
  (exists c w0 transferData w1,
     preflight env req w = (Val c, w0) /\
     payout env c w0 = (Val transferData, w1) /\
     succeeded (fst (serve_withdraw env req w)) /\
     status (fst (serve_withdraw env req w)) = 200%Z /\
     user_central_wallets (snd (serve_withdraw env req w)) =
       <[id (c_user c) := c_balance c - c_amount c]> (user_central_wallets w) /\
     (wallet_transactions (snd (serve_withdraw env req w)) = wallet_transactions w \/
      wallet_transactions (snd (serve_withdraw env req w)) =
        (wallet_transactions w ++
         [withdrawalRecord (c_user c) (c_paymentMethod c) (c_destination c) (c_amount c)
            (c_fee c) transferData (date_now env (fetch_count w1))])%list)).
Proof.
  unfold serve_withdraw. destruct (String.eqb (req_method req) "OPTIONS").
  { left. split; [apply same_store_refl | intros H; exact H]. }
  unfold run_handler, withdraw.
  pose proof (preflight_same_store env req w) as Hs0.
  destruct (preflight env req w) as [[c|r|e] w0] eqn:Hpre; simpl in Hs0.
  - rewrite (bind_val _ _ _ _ _ Hpre).
    pose proof (payout_same_store env c w0) as Hs1.
    destruct (payout env c w0) as [[td|r|e] w1] eqn:Hpay; simpl in Hs1;
      pose proof (same_store_trans _ _ _ Hs0 Hs1) as Hs.
    + rewrite (bind_val _ _ _ _ _ Hpay).
      destruct (preflight_checks _ _ _ _ _ Hpre) as (b & Hjson & Ha & _).
      destruct (preflight_val_inv _ _ _ _ _ _ _ Hjson Ha Hpre) as (_ & Hrow & _).
      destruct Hs as [Hw Ht]. rewrite <- Hw in Hrow.
      destruct (db_fault env (db_count w1)) as [e|] eqn:Hfault.
      * rewrite (settle_refused _ _ _ _ _ Hfault). simpl.
        left. split; [split; assumption|]. unfold succeeded. simpl. discriminate.
      * destruct (settle_applied env c td w1 _ Hfault Hrow)
          as (r & w' & Hset & Hok & Hst & Hwal & Htx).
        rewrite Hset. simpl.
        right. exists c, w0, td, w1. split; [reflexivity|]. split; [exact Hpay|].
        split; [exact Hok|]. split; [exact Hst|]. split; [now rewrite Hwal, Hw|].
        rewrite <- Ht. exact Htx.
    + rewrite (bind_ret _ _ _ _ _ Hpay). simpl. left. split; [exact Hs|].
      exact (rets_payout env c w0 r w1 Hpay).
    + rewrite (bind_throw _ _ _ _ _ Hpay). simpl. left. split; [exact Hs|].
      unfold succeeded. simpl. discriminate.
  - rewrite (bind_ret _ _ _ _ _ Hpre). simpl. left. split; [exact Hs0|].
    exact (rets_preflight env req w r w0 Hpre).
  - rewrite (bind_throw _ _ _ _ _ Hpre). simpl. left. split; [exact Hs0|].
    unfold succeeded. simpl. discriminate.
Qed.

(** X8. A withdrawal request that is not answered with success leaves
    every wallet and the transaction log exactly as they were,
    whatever the provider and the store did. *)
Theorem failed_withdrawal_leaves_ledger_untouched (env : Env) (req : Request WithdrawBody)
  (w w' : World) (resp : Response) :
  serve_withdraw env req w = (resp, w') ->
  ~ succeeded resp ->
  user_central_wallets w' = user_central_wallets w /\
  wallet_transactions w' = wallet_transactions w.
Proof.
  intros Hrun Hfail.
  destruct (withdraw_ledger_cases env req w) as [[Hsame _] | (c & w0 & td & w1 & _ & _ & Hok & _)];
    rewrite Hrun in *; simpl in *.
  - exact Hsame.
  - contradiction.
Qed.

Lemma failed_withdrawal_leaves_ledger_untouched_witness :
  user_central_wallets
    (snd (serve_withdraw (Scenario.environment [] Aborted [])
            (Scenario.withdrawal 1000 "mpesa" (Scenario.toPhone "0712345678"))
            (Scenario.start [("5f0c1d2e-aaaa", 5000)])))
  = list_to_map [("5f0c1d2e-aaaa", 5000)].
Proof.
  refine (proj1 (failed_withdrawal_leaves_ledger_untouched
                   (Scenario.environment [] Aborted [])
                   (Scenario.withdrawal 1000 "mpesa" (Scenario.toPhone "0712345678"))
                   (Scenario.start [("5f0c1d2e-aaaa", 5000)]) _ _
                   (surjective_pairing _) _)).
  vm_compute. discriminate.
Defined.



(** X10. A withdrawal never overdraws a wallet: if no balance is
    negative before the request, none is negative after it, in every
    environment. *)
Theorem withdrawal_keeps_wallets_solvent (env : Env) (req : Request WithdrawBody) (w : World) :
  solvent w -> solvent (snd (serve_withdraw env req w)).
Proof.
  intros Hsolvent. unfold solvent in *.
  destruct (withdraw_ledger_cases env req w)
    as [[[Hsame _] _] | (c & w0 & td & w1 & Hpre & _ & _ & _ & Hwal & _)].
  - now rewrite Hsame.
  - rewrite Hwal. apply map_Forall_insert_2; [|exact Hsolvent].
    destruct (preflight_checks _ _ _ _ _ Hpre) as (_ & _ & _ & _ & _ & _ & Hle & _).
    lra.
Qed.

Lemma withdrawal_keeps_wallets_solvent_witness :
  solvent (snd (serve_withdraw (Scenario.environment Scenario.smooth Aborted [])
                  (Scenario.withdrawal 5000 "mpesa" (Scenario.toPhone "0733000111"))
                  (Scenario.start [("5f0c1d2e-aaaa", 5000)]))).
Proof.
  apply withdrawal_keeps_wallets_solvent.
  unfold solvent. simpl. apply map_Forall_insert_2; [|apply map_Forall_empty].
  vm_compute. discriminate.
Defined.

(** ** What reaches the provider *)

Lemma silent_refl (w : World) : silent w w.
Proof. reflexivity. Qed.

Lemma silent_trans (w1 w2 w3 : World) : silent w1 w2 -> silent w2 w3 -> silent w1 w3.
Proof. unfold silent. congruence. Qed.

Lemma silent_emit (w : World) (e : Event) : fetches [e] = [] -> silent w (emit e w).
Proof. intros H. unfold silent. simpl. rewrite fetches_app, H. apply app_nil_r. Qed.

Lemma preflight_silent (env : Env) (req : Request WithdrawBody) :
  Keeps silent (preflight env req).
Proof.
  apply keeps_preflight with (ok := fun e => fetches [e] = []);
    try (intros; reflexivity); eauto using silent_trans, silent_emit.
Qed.

(** X11. The provider is contacted only for a request that has passed
    every local check: when a run of the handler sends anything to the
    provider, the caller is authenticated, the amount is positive and
    covered by the caller's wallet, the destination fields of the
    channel are present, the provider key is configured, and the fee
    is below the amount. *)
Theorem provider_is_contacted_only_after_local_checks (env : Env)
  (req : Request WithdrawBody) (w : World) :
  fetches (trace (snd (serve_withdraw env req w))) <> fetches (trace w) ->
  req_method req <> "OPTIONS" /\
  exists user b a d bal key,
    auth_user env = Some user /\
    req_json req = inr b /\ amount b = Some a /\
    destinationDetails b = Some d /\
    destinationComplete (paymentMethod b) d = true /\
    user_central_wallets w !! id user = Some bal /\
    0 < a /\ a <= bal /\
    PAYSTACK_SECRET_KEY env = Some key /\ key <> "" /\
    calculateFee a (paymentMethod b) < a.
Proof.
  intros Hsent.
  destruct (String.eqb (req_method req) "OPTIONS") eqn:Hm.
  { exfalso. apply Hsent. unfold serve_withdraw. now rewrite Hm. }
  apply String.eqb_neq in Hm. split; [exact Hm|].
  rewrite (serve_withdraw_runs _ _ _ Hm) in Hsent.
  unfold run_handler, withdraw in Hsent.
  pose proof (preflight_silent env req w) as Hsilent.
  destruct (preflight env req w) as [[c|r|e] w0] eqn:Hpre; simpl in Hsilent.
  - destruct (preflight_checks _ _ _ _ _ Hpre)
      as (b & Hjson & Ha & Hd & Hcomplete & Hpos & Hle & Hkey & Hne & Hfee).
    destruct (preflight_val_inv _ _ _ _ _ _ _ Hjson Ha Hpre) as (Hauth & Hrow & _).
    exists (c_user c), b, (c_amount c), (c_destination c), (c_balance c), (c_key c).
    repeat split; assumption.
  - exfalso. apply Hsent. rewrite (bind_ret _ _ _ _ _ Hpre). exact Hsilent.
  - exfalso. apply Hsent. rewrite (bind_throw _ _ _ _ _ Hpre). simpl.
    rewrite fetches_app. simpl. rewrite app_nil_r. exact Hsilent.
Qed.

Lemma provider_is_contacted_only_after_local_checks_witness :
  exists bal, list_to_map (M := gmap string Q) [("5f0c1d2e-aaaa", 5000)] !! "5f0c1d2e-aaaa"
              = Some bal /\ 400 <= bal.
Proof.
  destruct (provider_is_contacted_only_after_local_checks
              (Scenario.environment Scenario.smooth Aborted [])
              (Scenario.withdrawal 400 "mpesa" (Scenario.toPhone "0733000111"))
              (Scenario.start [("5f0c1d2e-aaaa", 5000)]))
    as (_ & user & b & a & d & bal & key & Hauth & Hjson & Ha & _ & _ & Hrow & _ & Hle & _).
  - vm_compute. discriminate.
  - injection Hauth as <-. injection Hjson as <-. injection Ha as <-.
    exists bal. split; [exact Hrow | exact Hle].
Defined.

(** ** How many requests a withdrawal sends *)

Section Budget.

Variable p : HttpRequest -> bool.

Lemma requests_emit (e : Event) (w : World) :
  requests p (emit e w) = (requests p w + length (List.filter p (fetches [e])))%nat.
Proof.
  unfold requests. simpl. now rewrite fetches_app, List.filter_app, length_app.
Qed.

Lemma sends_ret {A} (n : nat) (a : A) : Sends p n (ret a).
Proof. intros w. simpl. lia. Qed.

Lemma sends_respond {A} (n : nat) (r : Response) : Sends p n (@respond A r).
Proof. intros w. simpl. lia. Qed.

Lemma sends_throw {A} (n : nat) (e : Thrown) : Sends p n (@throw A e).
Proof. intros w. simpl. lia. Qed.

Lemma sends_weaken {A} (n k : nat) (m : M A) : (n <= k)%nat -> Sends p n m -> Sends p k m.
Proof. intros Hle Hm w. specialize (Hm w). lia. Qed.

Lemma sends_bind {A B} (n k : nat) (m : M A) (f : A -> M B) :
  Sends p n m -> (forall a, Sends p k (f a)) -> Sends p (n + k) (bind m f).
Proof.
  intros Hm Hf w. unfold bind. specialize (Hm w).
  destruct (m w) as [[a|r|e] w1]; simpl in *; try lia.
  specialize (Hf a w1). lia.
Qed.

Lemma sends_try_catch {A} (n k : nat) (m : M A) (h : Thrown -> M A) :
  Sends p n m -> (forall e, Sends p k (h e)) -> Sends p (n + k) (try_catch m h).
Proof.
  intros Hm Hh w. unfold try_catch. specialize (Hm w).
  destruct (m w) as [[a|r|e] w1]; simpl in *; try lia.
  specialize (Hh e w1). lia.
Qed.

(** A step that sends nothing before the rest, and the rest after a
    step that may use the whole budget. *)
Lemma sends_bind_free {A B} (n : nat) (m : M A) (f : A -> M B) :
  Sends p 0 m -> (forall a, Sends p n (f a)) -> Sends p n (bind m f).
Proof. intros Hm Hf. apply (sends_bind 0 n); assumption. Qed.

Lemma sends_bind_last {A B} (n : nat) (m : M A) (f : A -> M B) :
  Sends p n m -> (forall a, Sends p 0 (f a)) -> Sends p n (bind m f).
Proof.
  intros Hm Hf. apply (sends_weaken (n + 0)); [lia|]. apply sends_bind; assumption.
Qed.

Lemma sends_try {A} (n : nat) (m : M A) (h : Thrown -> M A) :
  Sends p n m -> (forall e, Sends p 0 (h e)) -> Sends p n (try_catch m h).
Proof.
  intros Hm Hh. apply (sends_weaken (n + 0)); [lia|]. apply sends_try_catch; assumption.
Qed.

Lemma sends_when (n : nat) (b : bool) (m : M unit) : Sends p n m -> Sends p n (when b m).
Proof. intros Hm. destruct b; [exact Hm | apply sends_ret]. Qed.

Lemma sends_console (n : nat) (l : Level) (t : Text) : Sends p n (console l t).
Proof. intros w. unfold console. simpl snd. rewrite requests_emit. simpl. lia. Qed.

Lemma sends_sleep (n : nat) (d : Q) : Sends p n (sleep d).
Proof. intros w. unfold sleep. simpl snd. rewrite requests_emit. simpl. lia. Qed.

Lemma sends_json (n : nat) (r : HttpResponse) : Sends p n (json r).
Proof. unfold json. destruct (resp_json r); [apply sends_ret | apply sends_throw]. Qed.

Lemma sends_select_balance (n : nat) (env : Env) (uid : string) :
  Sends p n (select_balance env uid).
Proof.
  intros w. unfold select_balance, requests.
  destruct (db_fault env (db_count w)); [simpl; lia|].
  destruct (user_central_wallets w !! uid); simpl; lia.
Qed.

Lemma sends_update_balance (n : nat) (env : Env) (uid : string) (balance : Q) :
  Sends p n (update_balance env uid balance).
Proof.
  intros w. unfold update_balance, requests.
  destruct (db_fault env (db_count w)); [simpl; lia|].
  destruct (user_central_wallets w !! uid); simpl; lia.
Qed.

Lemma sends_insert_transactions (n : nat) (env : Env) (rows : list TransactionRecord) :
  Sends p n (insert_transactions env rows).
Proof.
  intros w. unfold insert_transactions, requests.
  destruct (db_fault env (db_count w)); simpl; lia.
Qed.

(** One request costs one when it is of the kind counted. *)
Lemma sends_fetch (c : nat) (env : Env) (mk : World -> HttpRequest) :
  (forall w, ((if p (mk w) then 1 else 0) <= c)%nat) ->
  Sends p c (fun w => fetchWithTimeout env (mk w) w).
Proof.
  intros Hc w. unfold fetchWithTimeout.
  assert (H : (requests p (count_fetch (emit (EFetch (mk w)) w)) <= requests p w + c)%nat).
  { change (requests p (count_fetch (emit (EFetch (mk w)) w)))
      with (requests p (emit (EFetch (mk w)) w)).
    rewrite requests_emit. specialize (Hc w). simpl. destruct (p (mk w)); simpl; lia. }
  destruct (fetch_outcome env (fetch_count w)); exact H.
Qed.

Lemma sends_retry_from {T} (c : nat) (fn : M T) (maxRetries : nat) (initialDelay : Q) :
  Sends p c fn ->
  forall remaining i lastError,
    Sends p (remaining * c) (retry_from fn maxRetries initialDelay remaining i lastError).
Proof.
  intros Hfn. induction remaining as [|remaining IH]; intros i lastError; simpl.
  - apply sends_throw.
  - apply sends_try_catch; [exact Hfn|]. intros e.
    apply sends_bind_free; [|intros _; apply IH].
    apply sends_when, sends_bind_free; [apply sends_console | intros _; apply sends_sleep].
Qed.

Lemma sends_retryDefault {T} (c : nat) (fn : M T) :
  Sends p c fn -> Sends p (3 * c) (retryDefault fn).
Proof. intros Hfn. apply sends_retry_from. exact Hfn. Qed.

End Budget.

Section WithdrawalBudget.

Variable p : HttpRequest -> bool.

(** What a request other than a transfer counts for. *)
Variable q : nat.
Hypothesis p_other : forall r, transfer_amount r = None -> ((if p r then 1 else 0) <= q)%nat.

Variable env : Env.

Lemma sends_fetchWithTimeout (c : nat) (req : HttpRequest) :
  ((if p req then 1 else 0) <= c)%nat -> Sends p c (fetchWithTimeout env req).
Proof. intros Hc. apply (sends_fetch p c env (fun _ => req)). intros _. exact Hc. Qed.

Ltac sends_step :=
  first
    [ apply sends_ret | apply sends_respond | apply sends_throw
    | apply sends_console | apply sends_sleep | apply sends_json
    | apply sends_select_balance | apply sends_update_balance
    | apply sends_insert_transactions
    | apply sends_bind_last;
      [ apply sends_retryDefault, sends_fetchWithTimeout, p_other; reflexivity | ]
    | apply sends_bind_free; [ solve [repeat sends_step] | ]
    | apply sends_try | apply sends_when
    | match goal with
      | |- forall _, _ => intro
      | |- Sends _ _ (let _ := _ in _) => cbv zeta
      | |- Sends _ _ (match ?x with _ => _ end) => destruct x
      end ].

Lemma sends_preflight (req : Request WithdrawBody) : Sends p 0 (preflight env req).
Proof.
  unfold preflight, authenticate, parse_body, validateInput, loadWallet, requireSecretKey,
    checkNetAmount.
  repeat sends_step.
Qed.

Lemma sends_checkPaystackBalance (key : string) (net : Q) :
  Sends p (3 * q) (checkPaystackBalance env key net).
Proof. unfold checkPaystackBalance. repeat sends_step. Qed.

Lemma sends_fetchBanks (key : string) : Sends p (3 * q) (fetchBanks env key).
Proof. unfold fetchBanks. repeat sends_step. Qed.

Lemma sends_findProvider (pm : string) (j : Json) : Sends p 0 (findProvider pm j).
Proof. unfold findProvider. repeat sends_step. Qed.

Lemma sends_createRecipientWithPhone (key : string) (user : User) (pm : string)
  (provider : Bank) (phone : string) :
  Sends p (3 * q) (createRecipientWithPhone env key user pm provider phone).
Proof. unfold createRecipientWithPhone. repeat sends_step. Qed.

Lemma sends_createMobileRecipient (key : string) (user : User) (pm : string)
  (provider : Bank) (d : DestinationDetails) :
  Sends p (6 * q) (createMobileRecipient env key user pm provider d).
Proof.
  unfold createMobileRecipient. cbv zeta.
  apply sends_bind_free; [apply sends_console | intros _].
  apply (sends_weaken p (3 * q + (3 * q + 0))); [lia|].
  apply sends_bind; [apply sends_createRecipientWithPhone | intros first].
  apply sends_bind.
  - destruct (wantsLocalFallback first); [|apply sends_ret].
    apply sends_bind_free; [apply sends_console | intros _].
    apply sends_createRecipientWithPhone.
  - intros recipientResp. repeat sends_step.
Qed.

Lemma sends_resolveBankRecipient (key : string) (d : DestinationDetails) :
  Sends p (3 * q) (resolveBankRecipient env key d).
Proof. unfold resolveBankRecipient. repeat sends_step. Qed.

Lemma sends_resolveRecipient (key : string) (user : User) (pm : string)
  (d : DestinationDetails) :
  Sends p (9 * q) (resolveRecipient env key user pm d).
Proof.
  unfold resolveRecipient, resolveMobileRecipient.
  destruct (String.eqb pm "mpesa" || String.eqb pm "airtel").
  - apply (sends_weaken p (3 * q + (0 + 6 * q))); [lia|].
    apply sends_bind; [apply sends_fetchBanks | intros banksData].
    apply sends_bind; [apply sends_findProvider | intros provider].
    apply sends_createMobileRecipient.
  - apply (sends_weaken p (3 * q)); [lia|]. apply sends_resolveBankRecipient.
Qed.

Lemma sends_initiateTransfer (key : string) (user : User) (pm : string) (net : Q)
  (rc : option string) :
  Sends p 3 (initiateTransfer env key user pm net rc).
Proof.
  unfold initiateTransfer.
  apply sends_bind_free; [apply sends_console | intros _].
  apply sends_try; [|intros e; repeat sends_step].
  apply sends_bind_last; [|intros transferResponse; repeat sends_step].
  apply (sends_retryDefault p 1).
  apply (sends_fetch p 1 env
           (fun w => transferRequest key user pm net rc (date_now env (fetch_count w)))).
  intros w. destruct (p _); lia.
Qed.

Lemma sends_payout (c : Checked) : Sends p (12 * q + 3) (payout env c).
Proof.
  unfold payout, payoutAfterCheck.
  apply (sends_weaken p (3 * q + (9 * q + 3))); [lia|].
  apply sends_bind; [apply sends_checkPaystackBalance | intros _].
  apply sends_bind; [apply sends_resolveRecipient | intros rc].
  apply sends_initiateTransfer.
Qed.

Lemma sends_settle (c : Checked) (transferData : Json) :
  Sends p 0 (settle env c transferData).
Proof.
  unfold settle, deductFromWallet, recordAndRespond.
  apply sends_bind_free; [repeat sends_step | intros _].
  apply sends_bind_free; [|intros _; repeat sends_step].
  intros w.
  apply (sends_bind_free p 0 (insert_transactions env _) (fun _ => ret tt));
    [apply sends_insert_transactions | intros _; apply sends_ret].
Qed.

Lemma sends_withdraw (req : Request WithdrawBody) (w : World) :
  (requests p (snd (serve_withdraw env req w)) <= requests p w + (12 * q + 3))%nat.
Proof.
  unfold serve_withdraw. destruct (String.eqb (req_method req) "OPTIONS"); [simpl; lia|].
  assert (Hbody : Sends p (12 * q + 3) (withdraw env req)).
  { unfold withdraw. apply (sends_weaken p (0 + (12 * q + 3 + 0))); [lia|].
    apply sends_bind; [apply sends_preflight | intros c].
    apply sends_bind; [apply sends_payout | intros transferData].
    apply sends_settle. }
  unfold run_handler. specialize (Hbody w).
  destruct (withdraw env req w) as [[r|r|e] w1]; simpl in *; try exact Hbody.
  unfold requests in *. simpl. rewrite fetches_app. simpl. now rewrite app_nil_r.
Qed.

End WithdrawalBudget.

Lemma requests_any (w : World) : requests anyRequest w = length (fetches (trace w)).
Proof.
  unfold requests. f_equal. induction (fetches (trace w)) as [|r l IH]; simpl; congruence.
Qed.

(** X12. In every environment one withdrawal request sends at most 15
    requests to the provider, of which at most 3 are transfer
    requests; both bounds are reached. *)
Theorem withdrawal_sends_at_most_15_requests :
  (forall (env : Env) (req : Request WithdrawBody) (w : World),
     (length (fetches (trace (snd (serve_withdraw env req w))))
      <= length (fetches (trace w)) + 15)%nat /\
     (requests isTransfer (snd (serve_withdraw env req w))
      <= requests isTransfer w + 3)%nat) /\
  (exists (env : Env) (req : Request WithdrawBody) (w : World),
     length (fetches (trace (snd (serve_withdraw env req w))))
       = (length (fetches (trace w)) + 15)%nat /\
     requests isTransfer (snd (serve_withdraw env req w)) = (requests isTransfer w + 3)%nat).
Proof.
  split.
  - intros env req w. split.
    + rewrite <- !requests_any.
      apply (sends_withdraw anyRequest 1); intros; simpl; lia.
    + apply (sends_withdraw isTransfer 0). intros r Hr. unfold isTransfer. rewrite Hr. lia.
  - exists (Scenario.environment
              [Rejected (ErrorObj "connection refused");
               Rejected (ErrorObj "connection refused");
               Rejected (ErrorObj "connection refused");
               Aborted; Aborted; Scenario.fine (DBanks [Scenario.mpesa]);
               Aborted; Aborted;
               Scenario.reply 400 false (Some "Account number is invalid") None DAbsent;
               Aborted; Aborted; Scenario.fine (DRecipient (Some "RCP_1"))]
              Aborted []),
           (Scenario.withdrawal 1000 "mpesa" (Scenario.toPhone "0712345678")),
           (Scenario.start [("5f0c1d2e-aaaa", 5000)]).
    vm_compute. split; reflexivity.
Qed.

(** ** The status of the response *)

Section Leaves.

Variable P : Response -> Prop.

Lemma leaves_ret {A} (a : A) : Rets P (ret a).
Proof. intros w r w' H. discriminate H. Qed.

Lemma leaves_throw {A} (e : Thrown) : Rets P (@throw A e).
Proof. intros w r w' H. discriminate H. Qed.

Lemma leaves_respond {A} (r : Response) : P r -> Rets P (@respond A r).
Proof. intros Hr w r' w' H. injection H as <- _. exact Hr. Qed.

Lemma leaves_bind {A B} (m : M A) (f : A -> M B) :
  Rets P m -> (forall a, Rets P (f a)) -> Rets P (bind m f).
Proof.
  intros Hm Hf w r w' H. unfold bind in H.
  destruct (m w) as [[a|r0|e] w1] eqn:Hmw.
  - exact (Hf a w1 r w' H).
  - injection H as <- <-. exact (Hm w r0 w1 Hmw).
  - discriminate H.
Qed.

Lemma leaves_try_catch {A} (m : M A) (h : Thrown -> M A) :
  Rets P m -> (forall e, Rets P (h e)) -> Rets P (try_catch m h).
Proof.
  intros Hm Hh w r w' H. unfold try_catch in H.
  destruct (m w) as [[a|r0|e] w1] eqn:Hmw.
  - discriminate H.
  - injection H as <- <-. exact (Hm w r0 w1 Hmw).
  - exact (Hh e w1 r w' H).
Qed.

Lemma leaves_when (b : bool) (m : M unit) : Rets P m -> Rets P (when b m).
Proof. intros Hm. destruct b; [exact Hm | apply leaves_ret]. Qed.

Lemma leaves_console (l : Level) (t : Text) : Rets P (console l t).
Proof. intros w r w' H. discriminate H. Qed.

Lemma leaves_sleep (d : Q) : Rets P (sleep d).
Proof. intros w r w' H. discriminate H. Qed.

Lemma leaves_json (r : HttpResponse) : Rets P (json r).
Proof. unfold json. destruct (resp_json r); [apply leaves_ret | apply leaves_throw]. Qed.

Lemma leaves_fetch (env : Env) (mk : World -> HttpRequest) :
  Rets P (fun w => fetchWithTimeout env (mk w) w).
Proof.
  intros w r w' H. unfold fetchWithTimeout in H.
  destruct (fetch_outcome env (fetch_count w)); discriminate H.
Qed.

Lemma leaves_fetchWithTimeout (env : Env) (req : HttpRequest) :
  Rets P (fetchWithTimeout env req).
Proof. apply (leaves_fetch env (fun _ => req)). Qed.

Lemma leaves_retry_from {T} (fn : M T) (maxRetries : nat) (initialDelay : Q) :
  Rets P fn ->
  forall remaining i lastError,
    Rets P (retry_from fn maxRetries initialDelay remaining i lastError).
Proof.
  intros Hfn. induction remaining as [|remaining IH]; intros i lastError; simpl.
  - apply leaves_throw.
  - apply leaves_try_catch; [exact Hfn|]. intros e.
    apply leaves_bind; [|intros _; apply IH].
    apply leaves_when, leaves_bind; [apply leaves_console | intros _; apply leaves_sleep].
Qed.

Lemma leaves_retryDefault {T} (fn : M T) : Rets P fn -> Rets P (retryDefault fn).
Proof. intros Hfn. apply leaves_retry_from. exact Hfn. Qed.

Lemma leaves_select_balance (env : Env) (uid : string) : Rets P (select_balance env uid).
Proof.
  intros w r w' H. unfold select_balance in H.
  destruct (db_fault env (db_count w)); [discriminate H|].
  destruct (user_central_wallets w !! uid); discriminate H.
Qed.

Lemma leaves_update_balance (env : Env) (uid : string) (balance : Q) :
  Rets P (update_balance env uid balance).
Proof.
  intros w r w' H. unfold update_balance in H.
  destruct (db_fault env (db_count w)); [discriminate H|].
  destruct (user_central_wallets w !! uid); discriminate H.
Qed.

Lemma leaves_insert_transactions (env : Env) (rows : list TransactionRecord) :
  Rets P (insert_transactions env rows).
Proof.
  intros w r w' H. unfold insert_transactions in H.
  destruct (db_fault env (db_count w)); discriminate H.
Qed.

End Leaves.

Ltac is_refusal :=
  unfold refusal, amountTooLow, json_response; cbn [status];
  repeat match goal with
         | |- context [if ?c then _ else _] => destruct c
         end;
  cbn [In]; repeat first [left; reflexivity | right].

Ltac leaves_step :=
  first
    [ apply leaves_ret | apply leaves_throw
    | apply leaves_respond; is_refusal
    | apply leaves_console | apply leaves_sleep | apply leaves_json
    | apply leaves_select_balance | apply leaves_update_balance
    | apply leaves_insert_transactions
    | apply leaves_retryDefault
    | apply leaves_fetchWithTimeout
    | apply leaves_bind | apply leaves_try_catch | apply leaves_when
    | match goal with
      | |- forall _, _ => intro
      | |- Rets _ (let _ := _ in _) => cbv zeta
      | |- Rets _ (match ?x with _ => _ end) => destruct x
      end ].

Lemma refuses_preflight (env : Env) (req : Request WithdrawBody) :
  Rets refusal (preflight env req).
Proof.
  unfold preflight, authenticate, parse_body, validateInput, loadWallet, requireSecretKey,
    checkNetAmount.
  repeat leaves_step.
Qed.

Lemma refuses_createRecipientWithPhone (env : Env) (key : string) (user : User)
  (pm : string) (provider : Bank) (phone : string) :
  Rets refusal (createRecipientWithPhone env key user pm provider phone).
Proof. unfold createRecipientWithPhone. repeat leaves_step. Qed.

Lemma refuses_payout (env : Env) (c : Checked) : Rets refusal (payout env c).
Proof.
  unfold payout, payoutAfterCheck, checkPaystackBalance, resolveRecipient,
    resolveMobileRecipient, resolveBankRecipient, fetchBanks, findProvider,
    createMobileRecipient, initiateTransfer.
  repeat first
    [ apply refuses_createRecipientWithPhone
    | apply (leaves_fetch refusal env
               (fun w => transferRequest (c_key c) (c_user c) (c_paymentMethod c)
                           (c_netAmount c) _ (date_now env (fetch_count w))))
    | leaves_step ].
Qed.

(** What the ledger side returns is the success response. *)
Lemma settle_val_succeeded (env : Env) (c : Checked) (transferData : Json) (w w' : World)
  (r : Response) :
  settle env c transferData w = (Val r, w') -> succeeded r /\ status r = 200%Z.
Proof.
  intros H. unfold settle in H.
  apply bind_val_inv in H as ([] & w1 & _ & H).
  unfold recordAndRespond, bind, insert_transactions in H. simpl in H.
  destruct (db_fault env (db_count w1)); simpl in H; injection H as <- _;
    split; reflexivity.
Qed.

Lemma withdraw_never_returns_success_early (env : Env) (req : Request WithdrawBody) :
  Rets (fun r => ~ succeeded r) (withdraw env req).
Proof.
  unfold withdraw. apply leaves_bind; [apply rets_preflight|]. intros c.
  apply leaves_bind; [apply rets_payout|]. intros td. unfold settle.
  apply leaves_bind; [apply rets_deductFromWallet|]. intros _.
  apply recordAndRespond_never_returns_early.
Qed.

Lemma withdraw_returns_refusals (env : Env) (req : Request WithdrawBody) :
  Rets refusal (withdraw env req).
Proof.
  unfold withdraw. apply leaves_bind; [apply refuses_preflight|]. intros c.
  apply leaves_bind; [apply refuses_payout|]. intros td.
  unfold settle, deductFromWallet, recordAndRespond.
  apply leaves_bind; [repeat leaves_step|]. intros _.
  apply leaves_bind; [|repeat leaves_step].
  intros w r w' H. unfold bind, insert_transactions in H.
  destruct (db_fault env (db_count w)); discriminate H.
Qed.

(** X13. The status of the response tells the outcome of a withdrawal:
    it is one of 200, 400, 401, 404, 500 and 503; every response that
    reports success has status 200; and a response with status 200
    reports success, unless it answers an OPTIONS request. *)
Theorem withdrawal_status_tells_outcome (env : Env) (req : Request WithdrawBody) (w : World) :
  In (status (fst (serve_withdraw env req w))) [200; 400; 401; 404; 500; 503]%Z /\
  (succeeded (fst (serve_withdraw env req w)) ->
   status (fst (serve_withdraw env req w)) = 200%Z) /\
  (status (fst (serve_withdraw env req w)) = 200%Z ->
   succeeded (fst (serve_withdraw env req w)) \/ req_method req = "OPTIONS").
Proof.
  unfold serve_withdraw.
  destruct (String.eqb (req_method req) "OPTIONS") eqn:Hm.
  { apply String.eqb_eq in Hm. simpl. auto. }
  assert (Hcases : (refusal (fst (run_handler (withdraw env req) withdrawFailed w)) /\
                    ~ succeeded (fst (run_handler (withdraw env req) withdrawFailed w))) \/
                   (status (fst (run_handler (withdraw env req) withdrawFailed w)) = 200%Z /\
                    succeeded (fst (run_handler (withdraw env req) withdrawFailed w)))).
  { unfold run_handler.
    destruct (withdraw env req w) as [[r|r|e] w1] eqn:Hw; simpl.
    - right. unfold withdraw in Hw.
      apply bind_val_inv in Hw as (c & w0 & _ & Hw).
      apply bind_val_inv in Hw as (td & w2 & _ & Hw).
      destruct (settle_val_succeeded _ _ _ _ _ _ Hw). auto.
    - left. split.
      + exact (withdraw_returns_refusals env req w r w1 Hw).
      + exact (withdraw_never_returns_success_early env req w r w1 Hw).
    - left. split; [is_refusal|]. unfold succeeded. simpl. discriminate. }
  destruct Hcases as [[Hrefusal Hfail] | [Hst Hok]].
  - split; [right; exact Hrefusal|]. split; [intros Hok; contradiction|].
    intros Hst. exfalso. unfold refusal in Hrefusal. rewrite Hst in Hrefusal.
    simpl in Hrefusal. intuition discriminate.
  - split; [left; now rewrite Hst|]. split; [intros _; exact Hst | intros _; left; exact Hok].
Qed.

Lemma withdrawal_status_tells_outcome_witness :
  status (fst (serve_withdraw (Scenario.environment Scenario.smooth Aborted [])
                 (Scenario.withdrawal 400 "mpesa" (Scenario.toPhone "0733000111"))
                 (Scenario.start [("5f0c1d2e-aaaa", 5000)]))) = 200%Z.
Proof.
  refine (proj1 (proj2 (withdrawal_status_tells_outcome
                          (Scenario.environment Scenario.smooth Aborted [])
                          (Scenario.withdrawal 400 "mpesa" (Scenario.toPhone "0733000111"))
                          (Scenario.start [("5f0c1d2e-aaaa", 5000)]))) _).
  vm_compute. reflexivity.
Defined.

(** ** The provider's float *)



(** ** The wallet-to-wallet transfer in more environments *)

Section PeerTransferEdges.

Import WalletTransfer.

Variable env : Env.















End PeerTransferEdges.






(** ** The wallet-to-wallet transfer in every environment *)

Section PeerTransferCases.

Import WalletTransfer.

Variable env : Env.








End PeerTransferCases.




(** * The transfer approval webhook *)

Section WebhookProperties.

Variable env : Webhook.Env.
Variable req : Request (option Webhook.Payload).

Lemma approvals_app (s t : list Webhook.Event) :
  Webhook.approvals (s ++ t) = (Webhook.approvals s ++ Webhook.approvals t)%list.
Proof.
  induction s as [|e s IH]; [reflexivity|].
  destruct e; simpl; now rewrite IH.
Qed.

(** What a call of [approve] sends. *)
Lemma approve_sends (transferId : Webhook.Value) :
  Webhook.approvals (snd (Webhook.approve env transferId)) =
    match Webhook.PAYSTACK_SECRET_KEY env with
    | Some k => if String.eqb k "" then []
                else [{| Webhook.bearer := k; Webhook.transfer_id := transferId |}]
    | None => []
    end.
Proof.
  unfold Webhook.approve.
  destruct (Webhook.PAYSTACK_SECRET_KEY env) as [k|]; [|reflexivity].
  destruct (String.eqb k ""); [reflexivity|]. cbv zeta.
  destruct (Webhook.fetch env _) as [e|r]; [reflexivity|].
  destruct (Webhook.json r) as [e|d]; [reflexivity|].
  destruct (negb (Webhook.ok r)); reflexivity.
Qed.

(** What a delivery makes the webhook send. *)
Lemma serve_sends :
  Webhook.approvals (snd (Webhook.serve env req)) =
    if String.eqb (req_method req) "OPTIONS" then []
    else
      match req_json req with
      | inr (Some payload) =>
          if Webhook.isPendingApproval (Webhook.event payload) then
            match Webhook.data_id payload with
            | Some transferId =>
                if Webhook.truthy (Some transferId)
                then Webhook.approvals (snd (Webhook.approve env transferId))
                else []
            | None => []
            end
          else []
      | _ => []
      end.
Proof.
  unfold Webhook.serve. destruct (String.eqb (req_method req) "OPTIONS"); [reflexivity|].
  unfold Webhook.handle.
  destruct (req_json req) as [e|[payload|]]; try reflexivity.
  cbv zeta. destruct (Webhook.isPendingApproval (Webhook.event payload)); [|reflexivity].
  destruct (Webhook.data_id payload) as [transferId|]; [|reflexivity].
  destruct (Webhook.truthy (Some transferId)); [|reflexivity].
  destruct (Webhook.approve env transferId) as [[r|e] t]; simpl;
    rewrite ?approvals_app; simpl; rewrite ?approvals_app; simpl;
    rewrite ?app_nil_r; reflexivity.
Qed.

Lemma isPendingApproval_iff (event : option Webhook.Value) :
  Webhook.isPendingApproval event = true <->
  event = Some (Webhook.VStr "transfer.pending_approval").
Proof.
  unfold Webhook.isPendingApproval. destruct event as [[| | |s|]|]; split; try discriminate.
  - intros H. apply String.eqb_eq in H. now subst.
  - intros H. injection H as ->. reflexivity.
Qed.

(** X22. The webhook sends an approval request exactly for a delivery
    whose event is [transfer.pending_approval], whose [data.id] is
    truthy, and with the provider key configured; the request carries
    that id and that key, and no delivery makes it send more than
    one. *)
Theorem approval_is_requested_exactly_when (a : Webhook.Approval) :
  (length (Webhook.approvals (snd (Webhook.serve env req))) <= 1)%nat /\
  (In a (Webhook.approvals (snd (Webhook.serve env req))) <->
   req_method req <> "OPTIONS" /\
   exists payload,
     req_json req = inr (Some payload) /\
     Webhook.event payload = Some (Webhook.VStr "transfer.pending_approval") /\
     Webhook.data_id payload = Some (Webhook.transfer_id a) /\
     Webhook.truthy (Some (Webhook.transfer_id a)) = true /\
     Webhook.PAYSTACK_SECRET_KEY env = Some (Webhook.bearer a) /\
     Webhook.bearer a <> "").
Proof.
  rewrite serve_sends.
  destruct (String.eqb (req_method req) "OPTIONS") eqn:Hm.
  { split; [simpl; lia|]. split; [intros []|].
    intros [Hne _]. apply String.eqb_eq in Hm. contradiction. }
  apply String.eqb_neq in Hm.
  destruct (req_json req) as [e|[payload|]] eqn:Hjson;
    try (split; [simpl; lia|]; split; [intros [] | intros (_ & p & Hp & _); discriminate Hp]).
  destruct (Webhook.isPendingApproval (Webhook.event payload)) eqn:Hev.
  2:{ split; [simpl; lia|]. split; [intros []|].
      intros (_ & p & Hp & He & _). injection Hp as <-.
      apply isPendingApproval_iff in He. congruence. }
  apply isPendingApproval_iff in Hev.
  destruct (Webhook.data_id payload) as [transferId|] eqn:Hid.
  2:{ split; [simpl; lia|]. split; [intros []|].
      intros (_ & p & Hp & _ & Hd & _). injection Hp as <-. congruence. }
  destruct (Webhook.truthy (Some transferId)) eqn:Htruthy.
  2:{ split; [simpl; lia|]. split; [intros []|].
      intros (_ & p & Hp & _ & Hd & Ht & _). injection Hp as <-.
      rewrite Hid in Hd. injection Hd as ->. congruence. }
  rewrite approve_sends.
  destruct (Webhook.PAYSTACK_SECRET_KEY env) as [k|] eqn:Hkey.
  2:{ split; [simpl; lia|]. split; [intros []|].
      intros (_ & p & _ & _ & _ & _ & Hk & _). discriminate Hk. }
  destruct (String.eqb k "") eqn:Hk.
  { split; [simpl; lia|]. split; [intros []|].
    intros (_ & p & _ & _ & _ & _ & Hb & Hne). injection Hb as ->.
    apply String.eqb_eq in Hk. contradiction. }
  apply String.eqb_neq in Hk.
  split; [simpl; lia|]. split.
  - intros [<- | []]. split; [exact Hm|]. exists payload.
    cbn [Webhook.transfer_id Webhook.bearer]. repeat split; auto.
  - intros (_ & p & Hp & _ & Hd & _ & Hb & _). injection Hp as <-.
    rewrite Hid in Hd. injection Hd as ->. injection Hb as ->.
    left. destruct a; reflexivity.
Qed.

(** X23. The webhook answers with status 200 or 500, and with 500
    only when the body of the delivery cannot be read or when it is a
    pending approval with a truthy id; every other delivery, a pending
    approval without an id included, is answered with 200. *)
Theorem webhook_status :
  In (Webhook.status (fst (Webhook.serve env req))) [200; 500]%Z /\
  (Webhook.status (fst (Webhook.serve env req)) = 500%Z ->
   (exists e, req_json req = inl e) \/
   req_json req = inr None \/
   exists payload transferId,
     req_json req = inr (Some payload) /\
     Webhook.event payload = Some (Webhook.VStr "transfer.pending_approval") /\
     Webhook.data_id payload = Some transferId /\
     Webhook.truthy (Some transferId) = true).
Proof.
  unfold Webhook.serve.
  destruct (String.eqb (req_method req) "OPTIONS").
  { simpl. split; [auto | intros H; discriminate H]. }
  unfold Webhook.handle.
  destruct (req_json req) as [e|[payload|]].
  - simpl. split; [auto|]. intros _. left. eauto.
  - cbv zeta. destruct (Webhook.isPendingApproval (Webhook.event payload)) eqn:Hev.
    2:{ simpl. split; [auto | intros H; discriminate H]. }
    apply isPendingApproval_iff in Hev.
    destruct (Webhook.data_id payload) as [transferId|] eqn:Hid.
    2:{ simpl. split; [auto | intros H; discriminate H]. }
    destruct (Webhook.truthy (Some transferId)) eqn:Htruthy.
    2:{ simpl. split; [auto | intros H; discriminate H]. }
    split.
    + unfold Webhook.approve.
      destruct (Webhook.PAYSTACK_SECRET_KEY env) as [k|]; [|simpl; auto].
      destruct (String.eqb k ""); [simpl; auto|]. cbv zeta.
      destruct (Webhook.fetch env _) as [e|r]; [simpl; auto|].
      destruct (Webhook.json r) as [e|d]; [simpl; auto|].
      destruct (negb (Webhook.ok r)); simpl; auto.
    + intros _. right. right. exists payload, transferId. auto.
  - simpl. split; [auto|]. intros _. right. left. reflexivity.
Qed.

End WebhookProperties.

Lemma approval_is_requested_exactly_when_witness :
  In {| Webhook.bearer := "sk_test"; Webhook.transfer_id := Webhook.VNum 4711 |}
     (Webhook.approvals
        (snd (Webhook.serve
                {| Webhook.PAYSTACK_SECRET_KEY := Some "sk_test";
                   Webhook.fetch := fun _ => inl (ErrorObj "connection refused") |}
                {| req_method := "POST";
                   req_json := inr (Some {| Webhook.event :=
                                              Some (Webhook.VStr "transfer.pending_approval");
                                            Webhook.data_id := Some (Webhook.VNum 4711) |}) |}))).
Proof.
  apply (approval_is_requested_exactly_when
           {| Webhook.PAYSTACK_SECRET_KEY := Some "sk_test";
              Webhook.fetch := fun _ => inl (ErrorObj "connection refused") |}
           {| req_method := "POST";
              req_json := inr (Some {| Webhook.event :=
                                         Some (Webhook.VStr "transfer.pending_approval");
                                       Webhook.data_id := Some (Webhook.VNum 4711) |}) |}
           {| Webhook.bearer := "sk_test"; Webhook.transfer_id := Webhook.VNum 4711 |}).
  split; [discriminate|]. eexists. split; [reflexivity|].
  split; [reflexivity|]. split; [reflexivity|]. split; [reflexivity|].
  split; [reflexivity | discriminate].
Defined.

Lemma webhook_status_witness :
  (exists e, @inl Thrown (option Webhook.Payload) (ErrorObj "Unexpected token") = inl e) \/
  @inl Thrown (option Webhook.Payload) (ErrorObj "Unexpected token") = inr None \/
  exists payload transferId,
    @inl Thrown (option Webhook.Payload) (ErrorObj "Unexpected token") = inr (Some payload) /\
    Webhook.event payload = Some (Webhook.VStr "transfer.pending_approval") /\
    Webhook.data_id payload = Some transferId /\
    Webhook.truthy (Some transferId) = true.
Proof.
  refine (proj2 (webhook_status
                   {| Webhook.PAYSTACK_SECRET_KEY := None;
                      Webhook.fetch := fun _ => inl NotAnError |}
                   {| req_method := "POST";
                      req_json := inl (ErrorObj "Unexpected token") |}) _).
  reflexivity.
Defined.

(** * The phone sign-in form *)

Lemma length_take (n : nat) : forall s, (String.length (JS.take n s) <= n)%nat.
Proof.
  induction n as [|n IH]; intros [|c s]; simpl; try lia.
  specialize (IH s). lia.
Qed.

Lemma allChars_take (p : ascii -> bool) (n : nat) :
  forall s, allChars p s = true -> allChars p (JS.take n s) = true.
Proof.
  induction n as [|n IH]; intros [|c s]; simpl; auto.
  intros [Hc Hs]%andb_true_iff. rewrite Hc. simpl. auto.
Qed.

Lemma take_all (n : nat) : forall s, (String.length s <= n)%nat -> JS.take n s = s.
Proof.
  induction n as [|n IH]; intros [|c s]; simpl; intros H; try reflexivity; try lia.
  rewrite IH; [reflexivity | lia].
Qed.

Lemma onOtpChange_digits (value : string) :
  allChars PhoneAuth.isDigit (PhoneAuth.onOtpChange value) = true.
Proof. apply allChars_take, allChars_filtered. Qed.

(** X24. Whatever is typed or pasted into the code input, the stored
    code consists of digits only and has at most six of them; a code
    of at most six digits is stored as it is, so that storing is
    idempotent. *)
Theorem otp_input_keeps_six_digits (value : string) :
  allChars PhoneAuth.isDigit (PhoneAuth.onOtpChange value) = true /\
  (String.length (PhoneAuth.onOtpChange value) <= 6)%nat /\
  PhoneAuth.onOtpChange (PhoneAuth.onOtpChange value) = PhoneAuth.onOtpChange value /\
  (allChars PhoneAuth.isDigit value = true -> (String.length value <= 6)%nat ->
   PhoneAuth.onOtpChange value = value).
Proof.
  assert (Hid : forall s, allChars PhoneAuth.isDigit s = true -> (String.length s <= 6)%nat ->
                          PhoneAuth.onOtpChange s = s).
  { intros s Hd Hl. unfold PhoneAuth.onOtpChange.
    rewrite (filterChars_id _ s Hd). now apply take_all. }
  split; [apply onOtpChange_digits|]. split; [apply length_take|]. split; [|apply Hid].
  apply Hid; [apply onOtpChange_digits | apply length_take].
Qed.

Lemma otp_input_keeps_six_digits_witness :
  PhoneAuth.onOtpChange "048213" = "048213".
Proof.
  apply (proj2 (proj2 (proj2 (otp_input_keeps_six_digits "048213")))).
  - reflexivity.
  - simpl. lia.
Defined.

Lemma digits_not_blank (s : string) :
  allChars PhoneAuth.isDigit s = true -> s <> "" -> PhoneAuth.blank s = false.
Proof.
  destruct s as [|c s]; [contradiction|]. intros [Hc _]%andb_true_iff _.
  unfold PhoneAuth.blank. simpl. apply andb_false_iff. left.
  revert Hc. destruct c as [[] [] [] [] [] [] [] []]; vm_compute; congruence.
Qed.

(** X25. When the submit button of the code form is enabled, the
    stored code has exactly six digits and submitting calls
    [verifyOTP] with the phone number and that code: the "OTP
    Required" notice cannot be reached through the button. *)
Theorem enabled_verify_submits_six_digits (isLoading : bool) (phone value : string) :
  PhoneAuth.verifyDisabled isLoading (PhoneAuth.onOtpChange value) = false ->
  String.length (PhoneAuth.onOtpChange value) = 6%nat /\
  allChars PhoneAuth.isDigit (PhoneAuth.onOtpChange value) = true /\
  PhoneAuth.handleVerifyOTP phone (PhoneAuth.onOtpChange value)
    = PhoneAuth.VerifyOTP phone (PhoneAuth.onOtpChange value).
Proof.
  unfold PhoneAuth.verifyDisabled. intros [_ Hlen]%orb_false_iff.
  apply negb_false_iff, Nat.eqb_eq in Hlen.
  split; [exact Hlen|]. split; [apply onOtpChange_digits|].
  unfold PhoneAuth.handleVerifyOTP. rewrite digits_not_blank; [reflexivity | |].
  - apply onOtpChange_digits.
  - intros Hempty. rewrite Hempty in Hlen. discriminate Hlen.
Qed.

Lemma enabled_verify_submits_six_digits_witness :
  PhoneAuth.handleVerifyOTP "+254712345678" (PhoneAuth.onOtpChange "12 34-56x7")
  = PhoneAuth.VerifyOTP "+254712345678" (PhoneAuth.onOtpChange "12 34-56x7").
Proof.
  apply (enabled_verify_submits_six_digits false "+254712345678" "12 34-56x7").
  reflexivity.
Defined.
